(** * Blockly.BlockMenu (core/block_menu.js): the block palette of the editor.

    A shallow embedding of the block menu class: the panel object, the DOM
    parts it touches (listener registry, hit-region rectangles) and the block
    objects of the two workspaces are an explicit [World]; every method of
    the class is a function on worlds.  Numbers are rationals ([Q]): the
    arithmetic of the file is sums, one halving and comparisons, which are
    exact there; rounding of JS doubles is not modelled.  Positions and the
    width of the menu, which the arithmetic of [reflow] reaches, are
    rationals or NaN ([Js.num]).  Mouse coordinates are integers. *)

From Stdlib Require Import ZArith QArith Qminmax Reals Lqa Lia.
From Stdlib Require Import String Ascii.
From stdpp Require Import base option list gmap strings.

Local Open Scope Q_scope.

(** ** JavaScript values and arrays *)

Module Js.

(** Values a property may hold, as far as [goog.isNumber] tells them apart. *)
Inductive Value :=
| Number (q : Q)
| Undefined
| Null
| Str (s : string).

(** goog.isNumber(v): typeof v == 'number'. *)
Definition isNumber (v : Value) : bool :=
  match v with Number _ => true | _ => false end.

(** An array with holes: [None] is a missing (undefined) element. *)
Abbreviation Array A := (list (option A)) (only parsing).

(** [a[i] = v]: overwrites inside the array, extends it (leaving holes)
    at or past its length. *)
Definition array_set {A} (a : Array A) (i : nat) (v : A) : Array A :=
  if decide (i < length a)%nat
  then <[i := Some v]> a
  else a ++ replicate (i - length a) None ++ [Some v].

(** The elements visited by [for (x = 0, v; v = a[x]; x++)], which stops
    at the first missing element (objects are always truthy). *)
Fixpoint truthy_prefix {A} (a : Array A) : list A :=
  match a with
  | Some v :: rest => v :: truthy_prefix rest
  | _ => []
  end.

(** What a call does: it returns, or it throws a value. *)
Inductive Outcome :=
| Returned
| Thrown (what : string).

(** The message of the error raised by reading a property of null. *)
Definition TypeError : string := "TypeError".

(** [c.toUpperCase()] on ASCII letters. *)
Definition upper_ascii (c : ascii) : ascii :=
  let n := nat_of_ascii c in
  if (97 <=? n)%nat && (n <=? 122)%nat then ascii_of_nat (n - 32) else c.

Fixpoint toUpperCase (s : string) : string :=
  match s with
  | EmptyString => EmptyString
  | String c rest => String (upper_ascii c) (toUpperCase rest)
  end.

(** Math.max on two numbers. *)
Definition max (a b : Q) : Q := if Qle_bool a b then b else a.

(** A number that arithmetic may have spoilt: a rational, or NaN.  No
    infinity arises, the only division of the file being by 2. *)
Inductive num :=
| Num (q : Q)
| NaN.

(** A property as an operand of arithmetic: [None] is a property that was
    never set, which reads as undefined, and ToNumber(undefined) is NaN. *)
Definition toNumber (p : option num) : num :=
  match p with
  | Some n => n
  | None => NaN
  end.

(** [a + b], [a - b] and [a / 2]: NaN as soon as an operand is NaN. *)
Definition add (a b : num) : num :=
  match a, b with
  | Num x, Num y => Num (x + y)
  | _, _ => NaN
  end.
Definition sub (a b : num) : num :=
  match a, b with
  | Num x, Num y => Num (x - y)
  | _, _ => NaN
  end.
Definition half (a : num) : num :=
  match a with
  | Num x => Num (x / 2)
  | NaN => NaN
  end.

(** [p != b] for a property [p] and a number [b]: undefined differs from
    every number, and NaN from every number, NaN included. *)
Definition neq (p : option num) (b : num) : bool :=
  match p, b with
  | Some (Num x), Num y => negb (Qeq_bool x y)
  | _, _ => true
  end.

(** The two are the same number: equal rationals, or NaN both. *)
Definition same (a b : num) : Prop :=
  match a, b with
  | Num x, Num y => x == y
  | NaN, NaN => True
  | _, _ => False
  end.

End Js.

(** ** The objects of the toolkit that the block menu works on *)

Inductive WorkspaceId := PanelWorkspace | MainWorkspace.

#[global] Instance WorkspaceId_eq_dec : EqDecision WorkspaceId.
Proof. solve_decision. Defined.

(** A mouse event, with the fields the file reads. *)
Record MouseEvent := {
  etype : string;
  clientX : Z;
  clientY : Z;
  button : Z;
  ctrlKey : bool
}.

(** What a block looks like once built and rendered: its connections, its
    flags and its rendered size.  Templates are flat (no nested child
    blocks), so [getDescendants()] of a block is the block itself. *)
Record Shape := {
  outputConnection : bool;
  previousConnection : bool;
  nextConnection : bool;
  disabled : bool;
  addable : bool;             (* block.isAddable() *)
  height : Q;                 (* block.getHeightWidth().height *)
  width : Q;                  (* block.getHeightWidth().width *)
  comment : option string
}.

(** An element of the XML list given to [show]; [tagName] is missing on
    text nodes. *)
Record Xml := {
  tagName : option string;
  xtype : string;
  xshape : Shape
}.

Record Block := {
  type : string;
  workspace : option WorkspaceId;     (* null once disposed *)
  shape : Shape;
  svgRoot : option nat;               (* block.getSvgRoot() *)
  xy : Js.num * Js.num;               (* block.getRelativeToSurfaceXY() *)
  isInFlyout : bool;
  isInBlockMenu : bool;
  commentText : option string;
  blockMenuRect_ : option nat;
  stalkerBlock : option nat;
  startDragXY : option (Js.num * Js.num)  (* startDragX, startDragY *)
}.

(** A [rect] element and the attributes the file sets on it. *)
Record Rect := {
  rwidth : option Q;
  rheight : option Q;
  rx : option Js.num;
  ry : option Js.num;
  inCanvas : bool
}.

Inductive Target :=
| TWindow
| TDocument
| TCanvas
| TRoot (block : nat)     (* the SVG root of a block *)
| TRect (rect : nat).

#[global] Instance Target_eq_dec : EqDecision Target.
Proof. solve_decision. Defined.

Inductive EntryAction :=
| createVariable | createMessage | deleteMessage | removeVariable
| changeVariableName.

(** The functions that the file binds to events. *)
Inductive Handler :=
| HBlockMouseDown (block : nat)     (* this.blockMouseDown_(block) *)
| HCreateBlock (block : nat)        (* this.createBlockFunc_(block) *)
| HEntry (a : EntryAction)          (* function () {Entry.container...} *)
| HTerminateDrag                    (* Blockly.terminateDrag_ *)
| HMouseMove                        (* blockMenu.onMouseMove_ *)
| HReflow                           (* this.reflow *)
| HSyncViewSize.                    (* this.syncViewSize_ *)

Record Binding := {
  btarget : Target;
  bname : string;
  bhandler : Handler
}.

(** Calls into the toolkit whose effect lies outside the block menu; the
    world keeps them as a trace, latest first. *)
Inductive Effect :=
| FireResize                          (* Blockly.fireUiEvent(window, 'resize') *)
| FireChange                          (* workspace_.fireChangeEvent() *)
| EntryDispatch (name : string)       (* Entry.dispatchEvent(name) *)
| EntryCall (a : EntryAction)         (* Entry.container.<a>() *)
| HideChaff
| RemoveAllRanges
| SetCursorHand (closed : bool)
| ShowContextMenu (block : nat)
| StopPropagation
| BlockTerminateDrag                  (* Blockly.Block.terminateDrag_() *)
| ScrollbarResize                     (* this.scrollbar_.resize() *)
| BlockMouseDown (block : nat) (e : MouseEvent).  (* block.onMouseDown_(e) *)

Inductive MenuRef := TheBlockMenu.

(** The DOM parts the block menu touches. *)
Record Dom := {
  bindings : list (nat * Binding);    (* bound listeners by handle, oldest first *)
  rects : gmap nat Rect;
  viewRect : Q * Q;                   (* view_.getBoundingClientRect(): height, width *)
  canvasBBox : option (Q * Q);        (* getCanvas().getBBox(): height, y; None when it throws *)
  menuViewSize : option (Q * Q);      (* menuView_.style: width, height *)
  display : option string;            (* menuView_.style.display *)
  canvasTransform : option (Q * Q)    (* translate(x, y) of the panel canvas *)
}.

(** Block objects and the two workspaces. *)
Record Store := {
  heap : gmap nat Block;
  panelTopBlocks : list nat;          (* workspace_.getTopBlocks(false) *)
  mainTopBlocks : list nat;
  scrollY : Q                         (* workspace_.scrollY *)
}.

(** The fields of a block menu. *)
Record Menu := {
  buttons_ : Js.Array nat;
  listeners_ : list nat;
  reflowWrapper_ : option nat;
  onResizeWrapper_ : option nat;
  width_ : option Js.num              (* never set by the constructor *)
}.

(** The statics of Blockly.BlockMenu. *)
Record Statics := {
  startDownEvent_ : option MouseEvent;
  startBlock_ : option nat;
  startblockMenu_ : option MenuRef;
  startFlyout_ : option MenuRef;
  onMouseUpWrapper_ : option nat;
  onMouseMoveWrapper_ : option nat
}.

Record World := {
  dom : Dom;
  store : Store;
  menu : Menu;
  statics : Statics;
  next_id : nat;                      (* identity of the next object created *)
  trace : list Effect
}.

(** What the block menu reads from its surroundings and never writes: the
    constants and switches of the toolkit, none of which is set in
    block_menu.js, are parameters.  [this.CORNER_RADIUS], a property of the
    block menu itself, is not among them: see [CORNER_RADIUS]. *)
Record Env := {
  DRAG_RADIUS : Z;                    (* Blockly.DRAG_RADIUS *)
  RTL : bool;                         (* Blockly.RTL *)
  TAB_WIDTH : Q;                      (* Blockly.BlockSvg.TAB_WIDTH *)
  scrollbarThickness : Q;             (* Blockly.Scrollbar.scrollbarThickness *)
  hasEntry : bool;                    (* typeof(Entry) == "object" *)
  hasComment : bool;                  (* Blockly.Comment *)
  hasContextMenu : bool;              (* Blockly.ContextMenu *)
  rendersIn : WorkspaceId -> bool;    (* blocks built in the workspace get an SVG root *)
  mainCanvasXY : Q * Q;               (* translation of the main workspace canvas *)
  variablesCategory : list (Xml * Q); (* Blockly.Variables.blockMenuCategory *)
  proceduresCategory : list (Xml * Q) (* Blockly.Procedures.blockMenuCategory *)
}.

(** ** Field updates *)

Definition on_dom (f : Dom -> Dom) (w : World) : World :=
  {| dom := f (dom w); store := store w; menu := menu w; statics := statics w;
     next_id := next_id w; trace := trace w |}.
Definition on_store (f : Store -> Store) (w : World) : World :=
  {| dom := dom w; store := f (store w); menu := menu w; statics := statics w;
     next_id := next_id w; trace := trace w |}.
Definition on_menu (f : Menu -> Menu) (w : World) : World :=
  {| dom := dom w; store := store w; menu := f (menu w); statics := statics w;
     next_id := next_id w; trace := trace w |}.
Definition on_statics (f : Statics -> Statics) (w : World) : World :=
  {| dom := dom w; store := store w; menu := menu w; statics := f (statics w);
     next_id := next_id w; trace := trace w |}.
Definition bump (w : World) : World :=
  {| dom := dom w; store := store w; menu := menu w; statics := statics w;
     next_id := S (next_id w); trace := trace w |}.
Definition log (e : Effect) (w : World) : World :=
  {| dom := dom w; store := store w; menu := menu w; statics := statics w;
     next_id := next_id w; trace := e :: trace w |}.

Definition with_bindings (f : list (nat * Binding) -> list (nat * Binding)) (d : Dom) : Dom :=
  {| bindings := f (bindings d); rects := rects d; viewRect := viewRect d;
     canvasBBox := canvasBBox d; menuViewSize := menuViewSize d;
     display := display d; canvasTransform := canvasTransform d |}.
Definition with_rects (f : gmap nat Rect -> gmap nat Rect) (d : Dom) : Dom :=
  {| bindings := bindings d; rects := f (rects d); viewRect := viewRect d;
     canvasBBox := canvasBBox d; menuViewSize := menuViewSize d;
     display := display d; canvasTransform := canvasTransform d |}.
Definition with_menuViewSize (v : option (Q * Q)) (d : Dom) : Dom :=
  {| bindings := bindings d; rects := rects d; viewRect := viewRect d;
     canvasBBox := canvasBBox d; menuViewSize := v;
     display := display d; canvasTransform := canvasTransform d |}.
Definition with_display (v : option string) (d : Dom) : Dom :=
  {| bindings := bindings d; rects := rects d; viewRect := viewRect d;
     canvasBBox := canvasBBox d; menuViewSize := menuViewSize d;
     display := v; canvasTransform := canvasTransform d |}.
Definition with_canvasTransform (v : option (Q * Q)) (d : Dom) : Dom :=
  {| bindings := bindings d; rects := rects d; viewRect := viewRect d;
     canvasBBox := canvasBBox d; menuViewSize := menuViewSize d;
     display := display d; canvasTransform := v |}.

Definition with_heap (f : gmap nat Block -> gmap nat Block) (s : Store) : Store :=
  {| heap := f (heap s); panelTopBlocks := panelTopBlocks s;
     mainTopBlocks := mainTopBlocks s; scrollY := scrollY s |}.
Definition with_panelTopBlocks (f : list nat -> list nat) (s : Store) : Store :=
  {| heap := heap s; panelTopBlocks := f (panelTopBlocks s);
     mainTopBlocks := mainTopBlocks s; scrollY := scrollY s |}.
Definition with_mainTopBlocks (f : list nat -> list nat) (s : Store) : Store :=
  {| heap := heap s; panelTopBlocks := panelTopBlocks s;
     mainTopBlocks := f (mainTopBlocks s); scrollY := scrollY s |}.
Definition with_scrollY (v : Q) (s : Store) : Store :=
  {| heap := heap s; panelTopBlocks := panelTopBlocks s;
     mainTopBlocks := mainTopBlocks s; scrollY := v |}.

Definition with_buttons_ (f : Js.Array nat -> Js.Array nat) (m : Menu) : Menu :=
  {| buttons_ := f (buttons_ m); listeners_ := listeners_ m;
     reflowWrapper_ := reflowWrapper_ m;
     onResizeWrapper_ := onResizeWrapper_ m; width_ := width_ m |}.
Definition with_listeners_ (f : list nat -> list nat) (m : Menu) : Menu :=
  {| buttons_ := buttons_ m; listeners_ := f (listeners_ m);
     reflowWrapper_ := reflowWrapper_ m;
     onResizeWrapper_ := onResizeWrapper_ m; width_ := width_ m |}.
Definition with_reflowWrapper_ (v : option nat) (m : Menu) : Menu :=
  {| buttons_ := buttons_ m; listeners_ := listeners_ m;
     reflowWrapper_ := v;
     onResizeWrapper_ := onResizeWrapper_ m; width_ := width_ m |}.
Definition with_onResizeWrapper_ (v : option nat) (m : Menu) : Menu :=
  {| buttons_ := buttons_ m; listeners_ := listeners_ m;
     reflowWrapper_ := reflowWrapper_ m;
     onResizeWrapper_ := v; width_ := width_ m |}.
Definition with_width_ (v : option Js.num) (m : Menu) : Menu :=
  {| buttons_ := buttons_ m; listeners_ := listeners_ m;
     reflowWrapper_ := reflowWrapper_ m;
     onResizeWrapper_ := onResizeWrapper_ m; width_ := v |}.

Definition with_startDownEvent_ (v : option MouseEvent) (s : Statics) : Statics :=
  {| startDownEvent_ := v; startBlock_ := startBlock_ s;
     startblockMenu_ := startblockMenu_ s; startFlyout_ := startFlyout_ s;
     onMouseUpWrapper_ := onMouseUpWrapper_ s;
     onMouseMoveWrapper_ := onMouseMoveWrapper_ s |}.
Definition with_startBlock_ (v : option nat) (s : Statics) : Statics :=
  {| startDownEvent_ := startDownEvent_ s; startBlock_ := v;
     startblockMenu_ := startblockMenu_ s; startFlyout_ := startFlyout_ s;
     onMouseUpWrapper_ := onMouseUpWrapper_ s;
     onMouseMoveWrapper_ := onMouseMoveWrapper_ s |}.
Definition with_startblockMenu_ (v : option MenuRef) (s : Statics) : Statics :=
  {| startDownEvent_ := startDownEvent_ s; startBlock_ := startBlock_ s;
     startblockMenu_ := v; startFlyout_ := startFlyout_ s;
     onMouseUpWrapper_ := onMouseUpWrapper_ s;
     onMouseMoveWrapper_ := onMouseMoveWrapper_ s |}.
Definition with_startFlyout_ (v : option MenuRef) (s : Statics) : Statics :=
  {| startDownEvent_ := startDownEvent_ s; startBlock_ := startBlock_ s;
     startblockMenu_ := startblockMenu_ s; startFlyout_ := v;
     onMouseUpWrapper_ := onMouseUpWrapper_ s;
     onMouseMoveWrapper_ := onMouseMoveWrapper_ s |}.
Definition with_onMouseUpWrapper_ (v : option nat) (s : Statics) : Statics :=
  {| startDownEvent_ := startDownEvent_ s; startBlock_ := startBlock_ s;
     startblockMenu_ := startblockMenu_ s; startFlyout_ := startFlyout_ s;
     onMouseUpWrapper_ := v;
     onMouseMoveWrapper_ := onMouseMoveWrapper_ s |}.
Definition with_onMouseMoveWrapper_ (v : option nat) (s : Statics) : Statics :=
  {| startDownEvent_ := startDownEvent_ s; startBlock_ := startBlock_ s;
     startblockMenu_ := startblockMenu_ s; startFlyout_ := startFlyout_ s;
     onMouseUpWrapper_ := onMouseUpWrapper_ s;
     onMouseMoveWrapper_ := v |}.

(** Updates of one block object. *)
Definition block_moved (dx dy : Js.num) (b : Block) : Block :=
  {| type := type b; workspace := workspace b; shape := shape b;
     svgRoot := svgRoot b; xy := (Js.add (fst (xy b)) dx, Js.add (snd (xy b)) dy);
     isInFlyout := isInFlyout b; isInBlockMenu := isInBlockMenu b;
     commentText := commentText b; blockMenuRect_ := blockMenuRect_ b;
     stalkerBlock := stalkerBlock b; startDragXY := startDragXY b |}.
Definition block_disposed (b : Block) : Block :=
  {| type := type b; workspace := None; shape := shape b;
     svgRoot := None; xy := xy b;
     isInFlyout := isInFlyout b; isInBlockMenu := isInBlockMenu b;
     commentText := commentText b; blockMenuRect_ := blockMenuRect_ b;
     stalkerBlock := stalkerBlock b; startDragXY := startDragXY b |}.
Definition block_isInFlyout (v : bool) (b : Block) : Block :=
  {| type := type b; workspace := workspace b; shape := shape b;
     svgRoot := svgRoot b; xy := xy b;
     isInFlyout := v; isInBlockMenu := isInBlockMenu b;
     commentText := commentText b; blockMenuRect_ := blockMenuRect_ b;
     stalkerBlock := stalkerBlock b; startDragXY := startDragXY b |}.
Definition block_isInBlockMenu (v : bool) (b : Block) : Block :=
  {| type := type b; workspace := workspace b; shape := shape b;
     svgRoot := svgRoot b; xy := xy b;
     isInFlyout := isInFlyout b; isInBlockMenu := v;
     commentText := commentText b; blockMenuRect_ := blockMenuRect_ b;
     stalkerBlock := stalkerBlock b; startDragXY := startDragXY b |}.
Definition block_commentText (v : option string) (b : Block) : Block :=
  {| type := type b; workspace := workspace b; shape := shape b;
     svgRoot := svgRoot b; xy := xy b;
     isInFlyout := isInFlyout b; isInBlockMenu := isInBlockMenu b;
     commentText := v; blockMenuRect_ := blockMenuRect_ b;
     stalkerBlock := stalkerBlock b; startDragXY := startDragXY b |}.
Definition block_blockMenuRect_ (v : option nat) (b : Block) : Block :=
  {| type := type b; workspace := workspace b; shape := shape b;
     svgRoot := svgRoot b; xy := xy b;
     isInFlyout := isInFlyout b; isInBlockMenu := isInBlockMenu b;
     commentText := commentText b; blockMenuRect_ := v;
     stalkerBlock := stalkerBlock b; startDragXY := startDragXY b |}.
Definition block_stalkerBlock (v : option nat) (b : Block) : Block :=
  {| type := type b; workspace := workspace b; shape := shape b;
     svgRoot := svgRoot b; xy := xy b;
     isInFlyout := isInFlyout b; isInBlockMenu := isInBlockMenu b;
     commentText := commentText b; blockMenuRect_ := blockMenuRect_ b;
     stalkerBlock := v; startDragXY := startDragXY b |}.
Definition block_startDragXY (v : option (Js.num * Js.num)) (b : Block) : Block :=
  {| type := type b; workspace := workspace b; shape := shape b;
     svgRoot := svgRoot b; xy := xy b;
     isInFlyout := isInFlyout b; isInBlockMenu := isInBlockMenu b;
     commentText := commentText b; blockMenuRect_ := blockMenuRect_ b;
     stalkerBlock := stalkerBlock b; startDragXY := v |}.

(** rect.setAttribute of the four geometry attributes. *)
Definition rect_geometry (w h : Q) (x y : Js.num) (r : Rect) : Rect :=
  {| rwidth := Some w; rheight := Some h; rx := Some x; ry := Some y;
     inCanvas := inCanvas r |}.
Definition rect_inCanvas (v : bool) (r : Rect) : Rect :=
  {| rwidth := rwidth r; rheight := rheight r; rx := rx r; ry := ry r;
     inCanvas := v |}.

(** ** The toolkit functions the block menu calls

    None of them is defined in block_menu.js; each is modelled by what the
    block menu relies on: listeners are bound and unbound by handle, blocks
    are built from templates and destroyed, elements enter and leave the
    canvas. *)

Section BlockMenu.

Variable env : Env.

(** Modelled from the spec: Blockly.isRightButton(e), which is not in
    block_menu.js.  The right button, or a control-click. *)
Definition isRightButton (e : MouseEvent) : bool :=
  (button e =? 2)%Z || ctrlKey e.

(** Modelled from the spec: Blockly.bindEvent_(element, name, thisObject,
    func), which is not in block_menu.js.  It registers the listener and
    returns the handle that [unbindEvent_] takes. *)
Definition bindEvent_ (t : Target) (name : string) (h : Handler) (w : World)
  : nat * World :=
  let handle := next_id w in
  (handle,
   bump (on_dom (with_bindings (fun l =>
     l ++ [(handle, {| btarget := t; bname := name; bhandler := h |})])) w)).

(** Modelled from the spec: Blockly.unbindEvent_(bindData), which is not
    in block_menu.js.  It detaches the listener of that handle. *)
Definition unbindEvent_ (handle : nat) (w : World) : World :=
  on_dom (with_bindings (List.filter (fun p => negb (Nat.eqb (fst p) handle)))) w.

Definition isBound (handle : nat) (w : World) : bool :=
  existsb (fun p => Nat.eqb (fst p) handle) (bindings (dom w)).

(** Modelled from the spec: Blockly.createSvgElement, which is not in
    block_menu.js, called as createSvgElement('rect', {'fill-opacity': 0},
    null).  A new element without a parent. *)
Definition createSvgRect (w : World) : nat * World :=
  let r := next_id w in
  (r, bump (on_dom (with_rects (insert r
       {| rwidth := None; rheight := None; rx := None; ry := None;
          inCanvas := false |})) w)).

(** Modelled from the spec: getCanvas().insertBefore(rect, root) and
    goog.dom.removeNode(rect), of the DOM and of Closure. *)
Definition insertBefore (r : nat) (w : World) : World :=
  on_dom (with_rects (alter (rect_inCanvas true) r)) w.
Definition removeNode (r : nat) (w : World) : World :=
  on_dom (with_rects (alter (rect_inCanvas false) r)) w.

(** Modelled from the spec: workspace.getTopBlocks(false), which is not in
    block_menu.js.  A copy of the list of top blocks. *)
Definition getTopBlocks (ws : WorkspaceId) (w : World) : list nat :=
  match ws with
  | PanelWorkspace => panelTopBlocks (store w)
  | MainWorkspace => mainTopBlocks (store w)
  end.

Definition addTopBlock (ws : WorkspaceId) (b : nat) (s : Store) : Store :=
  match ws with
  | PanelWorkspace => with_panelTopBlocks (fun l => l ++ [b]) s
  | MainWorkspace => with_mainTopBlocks (fun l => l ++ [b]) s
  end.

Definition removeTopBlock (ws : WorkspaceId) (b : nat) (s : Store) : Store :=
  let drop := List.filter (fun x => negb (Nat.eqb x b)) in
  match ws with
  | PanelWorkspace => with_panelTopBlocks drop s
  | MainWorkspace => with_mainTopBlocks drop s
  end.

(** Modelled from the spec: Blockly.Xml.domToBlock(workspace, xml), which
    is not in block_menu.js.  It builds the block described by [xml] as a
    new top block of the workspace, at the origin. *)
Definition domToBlock (ws : WorkspaceId) (xml : Xml) (w : World) : nat * World :=
  let b := next_id w in
  let obj := {| type := xtype xml; workspace := Some ws; shape := xshape xml;
                svgRoot := if rendersIn env ws then Some b else None;
                xy := (Js.Num 0, Js.Num 0);
                isInFlyout := false; isInBlockMenu := false;
                commentText := comment (xshape xml); blockMenuRect_ := None;
                stalkerBlock := None; startDragXY := None |} in
  (b, bump (on_store (fun s => addTopBlock ws b (with_heap (insert b obj) s)) w)).

(** Modelled from the spec: Blockly.Xml.blockToDom_(block), which is not
    in block_menu.js.  The template of the block. *)
Definition blockToDom_ (b : Block) : Xml :=
  {| tagName := Some "block"%string; xtype := type b; xshape := shape b |}.

Definition update_block (f : Block -> Block) (b : nat) (w : World) : World :=
  on_store (with_heap (alter f b)) w.

(** Modelled from the spec: block.moveBy(dx, dy), which is not in
    block_menu.js. *)
Definition moveBy (b : nat) (dx dy : Js.num) (w : World) : World :=
  update_block (block_moved dx dy) b w.

(** Modelled from the spec: block.dispose(false, false), which is not in
    block_menu.js.  The block leaves its workspace and loses its SVG. *)
Definition dispose (b : nat) (w : World) : World :=
  match heap (store w) !! b with
  | Some obj =>
      let w1 := match workspace obj with
                | Some ws => on_store (removeTopBlock ws b) w
                | None => w
                end in
      update_block block_disposed b w1
  | None => w
  end.

(** Modelled from the spec: the translation of the canvas that holds the
    blocks of a workspace, which [getSvgXY_] adds up. *)
Definition canvasXY (ws : option WorkspaceId) (w : World) : Q * Q :=
  match ws with
  | Some PanelWorkspace => default (0, 0) (canvasTransform (dom w))
  | Some MainWorkspace => mainCanvasXY env
  | None => (0, 0)
  end.

(** Modelled from the spec: Blockly.getSvgXY_(root), which is not in
    block_menu.js.  Where the root of the block lies in its SVG image. *)
Definition getSvgXY_ (obj : Block) (w : World) : Js.num * Js.num :=
  let c := canvasXY (workspace obj) w in
  (Js.add (Js.Num (fst c)) (fst (xy obj)), Js.add (Js.Num (snd c)) (snd (xy obj))).

(** ** Blockly.BlockMenu *)

(** The constructor, on a page [w] that has no block menu yet: the two
    lists start empty, the workspace of the panel gets its DOM, and the
    menu listens to the resizing of the window. *)
Definition BlockMenu (w : World) : World :=
  let w := on_menu (with_buttons_ (fun _ => [])) w in
  let w := on_menu (with_listeners_ (fun _ => [])) w in
  let '(h, w) := bindEvent_ TWindow "resize" HSyncViewSize w in
  on_menu (with_onResizeWrapper_ (Some h)) w.

(** Blockly.BlockMenu.terminateDrag_ *)
Definition terminateDrag_ (w : World) : World :=
  let w :=
    match onMouseUpWrapper_ (statics w) with
    | Some h => on_statics (with_onMouseUpWrapper_ None) (unbindEvent_ h w)
    | None => w
    end in
  let w :=
    match onMouseMoveWrapper_ (statics w) with
    | Some h => on_statics (with_onMouseMoveWrapper_ None) (unbindEvent_ h w)
    | None => w
    end in
  let w := on_statics (with_startDownEvent_ None) w in
  let w := on_statics (with_startBlock_ None) w in
  on_statics (with_startFlyout_ None) w.

(** Modelled from the spec: Blockly.terminateDrag_, which is not in
    block_menu.js.  It ends the drag of a block and the pending drag of
    the palette ("pointer-up cancels pending state"). *)
Definition Blockly_terminateDrag_ (w : World) : World :=
  terminateDrag_ (log BlockTerminateDrag w).

(** Blockly.BlockMenu.prototype.hide *)
Definition hide (w : World) : World :=
  (* Delete all the event listeners. *)
  let w := fold_left (fun w listen => unbindEvent_ listen w) (listeners_ (menu w)) w in
  let w := on_menu (with_listeners_ (fun _ => [])) w in
  let w :=
    match reflowWrapper_ (menu w) with
    | Some h => on_menu (with_reflowWrapper_ None) (unbindEvent_ h w)
    | None => w
    end in
  (* Delete all the blocks. *)
  let blocks := getTopBlocks PanelWorkspace w in
  let w :=
    fold_left (fun w block =>
      match heap (store w) !! block with
      | Some obj =>
          if decide (workspace obj = Some PanelWorkspace)
          then dispose block w else w
      | None => w
      end) blocks w in
  (* Delete all the background buttons. *)
  let w := fold_left (fun w rect => removeNode rect w)
                     (Js.truthy_prefix (buttons_ (menu w))) w in
  on_menu (with_buttons_ (fun _ => [])) w.

(** [this.CORNER_RADIUS], which [reflow] reads.  Nothing in block_menu.js
    sets the property, neither the constructor nor an assignment to the
    prototype, and the class inherits from no other: the property is
    missing, and reading it gives undefined. *)
Definition CORNER_RADIUS : option Js.num := None.

(** Blockly.BlockMenu.prototype.reflow: one pass of its second loop. *)
Definition reflowBlock (blockMenuWidth margin : Js.num) (w : World) (block : nat)
  : World :=
  match heap (store w) !! block with
  | Some obj =>
      let blockHW := (height (shape obj), width (shape obj)) in
      let blockXY := xy obj in
      let '(w, blockXY) :=
        if RTL env then
          (* With the blockMenuWidth known, right-align the blocks. *)
          let dx := Js.sub (Js.sub (Js.sub blockMenuWidth margin)
                                   (Js.Num (TAB_WIDTH env)))
                           (fst blockXY) in
          (moveBy block dx (Js.Num 0) w, (Js.add (fst blockXY) dx, snd blockXY))
        else (w, blockXY) in
      match blockMenuRect_ obj with
      | Some r =>
          on_dom (with_rects (alter
            (rect_geometry (snd blockHW) (fst blockHW)
               (if RTL env then Js.sub (fst blockXY) (Js.Num (snd blockHW))
                else fst blockXY)
               (snd blockXY)) r)) w
      | None => w
      end
  | None => w
  end.

Definition widthOf (w : World) (block : nat) : Q :=
  match heap (store w) !! block with
  | Some obj => width (shape obj)
  | None => 0
  end.

(** The greatest width of a top block of the panel, or 0: the first loop
    of [reflow]. *)
Definition maxWidth (w : World) : Q :=
  fold_left (fun acc block => Js.max acc (widthOf w block))
            (getTopBlocks PanelWorkspace w) 0.

(** The width that [reflow] computes. *)
Definition reflowWidth (w : World) : Js.num :=
  let margin := Js.toNumber CORNER_RADIUS in
  let blockMenuWidth := maxWidth w in
  Js.add (Js.Num blockMenuWidth)
    (Js.add (Js.add (Js.add margin (Js.Num (TAB_WIDTH env))) (Js.half margin))
            (Js.Num (scrollbarThickness env))).

(** Blockly.BlockMenu.prototype.reflow *)
Definition reflow (w : World) : World :=
  let margin := Js.toNumber CORNER_RADIUS in
  let blocks := getTopBlocks PanelWorkspace w in
  let blockMenuWidth := reflowWidth w in
  if Js.neq (width_ (menu w)) blockMenuWidth then
    let w := fold_left (reflowBlock blockMenuWidth margin) blocks w in
    (* Record the width for .getMetrics_ and .position_. *)
    let w := on_menu (with_width_ (Some blockMenuWidth)) w in
    log FireResize w
  else w.

Record Metrics := {
  viewHeight : Q;
  viewWidth : Q;
  contentHeight : Q;
  viewTop : Q;
  contentTop : Q;
  absoluteTop : Q;
  absoluteLeft : Q
}.

(** Blockly.BlockMenu.prototype.getMetrics_; the result is an object, so
    it is never the falsy value that [setMetrics_] guards against. *)
Definition getMetrics_ (w : World) : option Metrics :=
  let rect := viewRect (dom w) in
  let optionBox :=
    match canvasBBox (dom w) with
    | Some box => box
    | None =>
        (* Firefox has trouble with hidden elements (Bug 528969). *)
        (0, 0)
    end in
  Some {| viewHeight := fst rect;
          viewWidth := snd rect;
          contentHeight := fst optionBox + snd optionBox;
          viewTop := - scrollY (store w);
          contentTop := 0;
          absoluteTop := 0;
          absoluteLeft := 0 |}.

(** Blockly.BlockMenu.prototype.setMetrics_; [yRatio] is the [y] property
    of its argument. *)
Definition setMetrics_ (yRatio : Js.Value) (w : World) : World :=
  match getMetrics_ w with
  | None =>
      (* This is a fix to an apparent race condition. *)
      w
  | Some metrics =>
      let w :=
        match yRatio with
        | Js.Number y =>
            on_store (with_scrollY
              (- contentHeight metrics * y - contentTop metrics)) w
        | _ => w
        end in
      let y := scrollY (store w) + absoluteTop metrics in
      on_dom (with_canvasTransform (Some (0, y))) w
  end.

(** Blockly.BlockMenu.prototype.syncViewSize_ *)
Definition syncViewSize_ (w : World) : World :=
  let rect := viewRect (dom w) in
  log ScrollbarResize (on_dom (with_menuViewSize (Some (snd rect, fst rect))) w).

(** The function returned by Blockly.BlockMenu.prototype.createBlockFunc_
    for [originBlock], applied to the event [e]. *)
Definition createBlockFunc_ (originBlock : nat) (e : MouseEvent) (w : World)
  : Js.Outcome * World :=
  if isRightButton e then
    (* Right-click.  Don't create a block, let the context menu show. *)
    (Js.Returned, w)
  else
  match heap (store w) !! originBlock with
  | None => (Js.Thrown Js.TypeError, w)
  | Some origin =>
  if disabled (shape origin) then
    (* Beyond capacity. *)
    (Js.Returned, w)
  else
  (* Create the new block by cloning the block in the blockMenu (via XML). *)
  let w := if hasEntry env then log (EntryDispatch "entryBlocklyChanged") w
           else w in
  let xml := blockToDom_ origin in
  let '(block, w) := domToBlock PanelWorkspace xml w in
  let w := update_block (block_isInBlockMenu true) block w in
  (* Place it in the same spot as the blockMenu copy. *)
  match svgRoot origin with
  | None => (Js.Thrown "originBlock is not rendered.", w)
  | Some svgRootOld =>
  let xyOld := getSvgXY_ origin w in
  match heap (store w) !! block with
  | None => (Js.Thrown Js.TypeError, w)
  | Some blockObj =>
  match svgRoot blockObj with
  | None => (Js.Thrown "block is not rendered.", w)
  | Some svgRootNew =>
  let xyNew := getSvgXY_ blockObj w in
  let w := moveBy block (Js.sub (fst xyOld) (fst xyNew))
                        (Js.sub (snd xyOld) (snd xyNew)) w in
  let '(workspaceBlock, w) := domToBlock MainWorkspace xml w in
  match heap (store w) !! workspaceBlock with
  | None => (Js.Thrown Js.TypeError, w)
  | Some workspaceObj =>
  match svgRoot workspaceObj with
  | None => (Js.Thrown "block is not rendered.", w)
  | Some svgRootNewWorkspace =>
  let xyNewWorkspace := getSvgXY_ workspaceObj w in
  let stalkerX := Js.sub (Js.sub (fst xyOld) (fst xyNewWorkspace)) (Js.Num 202) in
  let stalkerY := Js.add (Js.sub (snd xyOld) (snd xyNewWorkspace)) (Js.Num 33) in
  let w := moveBy workspaceBlock stalkerX stalkerY w in
  (* Start a dragging operation on the new block. *)
  let w := update_block (block_startDragXY (Some (stalkerX, stalkerY)))
                        workspaceBlock w in
  let w := update_block (block_stalkerBlock (Some workspaceBlock)) block w in
  (Js.Returned, log (BlockMouseDown block e) w)
  end end end end end end.

(** Math.sqrt(Math.pow(dx, 2) + Math.pow(dy, 2)) > Blockly.DRAG_RADIUS, on
    integers: a square root exceeds a negative radius, and exceeds another
    one exactly when the squares compare so ([beyondRadius_sqrt]). *)
Definition beyondRadius (dx dy : Z) : bool :=
  if (DRAG_RADIUS env <? 0)%Z then true
  else (DRAG_RADIUS env * DRAG_RADIUS env <? dx * dx + dy * dy)%Z.

(** The signature of the rogue events that [onMouseMove_] ignores. *)
Definition rogueMove (e : MouseEvent) : bool :=
  String.eqb (etype e) "mousemove" && (clientX e <=? 1)%Z
  && (clientY e =? 0)%Z && (button e =? 0)%Z.

(** Blockly.BlockMenu.prototype.onMouseMove_ *)
Definition onMouseMove_ (e : MouseEvent) (w : World) : Js.Outcome * World :=
  if rogueMove e then
    (Js.Returned, log StopPropagation w)
  else
  let w := log RemoveAllRanges w in
  match startDownEvent_ (statics w) with
  | None => (Js.Thrown Js.TypeError, w)
  | Some down =>
  let dx := (clientX e - clientX down)%Z in
  let dy := (clientY e - clientY down)%Z in
  (* Still dragging within the sticky DRAG_RADIUS. *)
  if beyondRadius dx dy then
    (* Create the block. *)
    match startblockMenu_ (statics w), startBlock_ (statics w) with
    | Some TheBlockMenu, Some startBlock => createBlockFunc_ startBlock down w
    | _, _ => (Js.Thrown Js.TypeError, w)
    end
  else (Js.Returned, w)
  end.

(** The function returned by Blockly.BlockMenu.prototype.blockMouseDown_
    for [block], applied to the event [e]. *)
Definition blockMouseDown_ (block : nat) (e : MouseEvent) (w : World) : World :=
  let w := Blockly_terminateDrag_ w in
  let w := log HideChaff w in
  let w :=
    if isRightButton e then
      (* Right-click. *)
      if hasContextMenu env then log (ShowContextMenu block) w else w
    else
      (* Left-click (or middle click) *)
      let w := log RemoveAllRanges w in
      let w := log (SetCursorHand true) w in
      (* Record the current mouse position. *)
      let w := on_statics (with_startDownEvent_ (Some e)) w in
      let w := on_statics (with_startBlock_ (Some block)) w in
      let w := on_statics (with_startblockMenu_ (Some TheBlockMenu)) w in
      let '(up, w) := bindEvent_ TDocument "mouseup" HTerminateDrag w in
      let w := on_statics (with_onMouseUpWrapper_ (Some up)) w in
      let '(move, w) := bindEvent_ TDocument "mousemove" HMouseMove w in
      on_statics (with_onMouseMoveWrapper_ (Some move)) w in
  (* This event has been handled.  No need to bubble up to the document. *)
  log StopPropagation w.

(** ** show *)

Inductive XmlList :=
| VariablesCategory                (* Blockly.Variables.NAME_TYPE *)
| ProceduresCategory               (* Blockly.Procedures.NAME_TYPE *)
| XmlNodes (nodes : list Xml).

(** xml.tagName && xml.tagName.toUpperCase() == 'BLOCK' *)
Definition isBlockTag (xml : Xml) : bool :=
  match tagName xml with
  | Some t => String.eqb (Js.toUpperCase t) "BLOCK"
  | None => false
  end.

(** The first loop of [show]: one block per BLOCK element, with the gap
    [margin] after each. *)
Fixpoint createBlocks (nodes : list Xml) (margin : Q)
    (blocks : list nat) (gaps : list Q) (w : World)
  : list nat * list Q * World :=
  match nodes with
  | [] => (blocks, gaps, w)
  | xml :: rest =>
      if isBlockTag xml then
        let '(block, w) := domToBlock PanelWorkspace xml w in
        let w := update_block (block_isInFlyout true) block w in
        let w := update_block (block_isInBlockMenu true) block w in
        createBlocks rest margin (blocks ++ [block]) (gaps ++ [margin]) w
      else createBlocks rest margin blocks gaps w
  end.

(** Modelled from the spec: Blockly.Variables.blockMenuCategory and
    Blockly.Procedures.blockMenuCategory, which are not in block_menu.js.
    They fill [blocks] and [gaps] with the blocks of their category, which
    they build in the workspace. *)
Fixpoint categoryBlocks (items : list (Xml * Q))
    (blocks : list nat) (gaps : list Q) (w : World)
  : list nat * list Q * World :=
  match items with
  | [] => (blocks, gaps, w)
  | (xml, gap) :: rest =>
      let '(block, w) := domToBlock PanelWorkspace xml w in
      categoryBlocks rest (blocks ++ [block]) (gaps ++ [gap]) w
  end.

(** The horizontal position of a block and the cursor before it is
    placed: the if-else chain of the layout loop. *)
Definition leadIn (s : Shape) (cursorY : Q) : Q * Q :=
  let x := 10 in
  if outputConnection s then (x + height s / 2, cursorY)
  else if negb (previousConnection s) && nextConnection s then (x, cursorY + 10)
  else if negb (previousConnection s) && negb (nextConnection s) then (x, cursorY + 10)
  else (x, cursorY + 7).

(** The cursor after the block is placed at [cursorY]. *)
Definition leadOut (s : Shape) (gap : Q) (cursorY : Q) : Q :=
  let cursorY :=
    if negb (previousConnection s) && negb (nextConnection s)
    then cursorY + 10 else cursorY in
  cursorY + (height s + gap).

(** The mousedown listeners bound for the blocks of Entry; their handles
    are dropped. *)
Definition entryAction (ty : string) : option EntryAction :=
  if String.eqb ty "make_variable" then Some createVariable
  else if String.eqb ty "add_message" then Some createMessage
  else if String.eqb ty "delete_message" then Some deleteMessage
  else if String.eqb ty "remove_variable" then Some removeVariable
  else if String.eqb ty "change_variable_name" then Some changeVariableName
  else None.

(** One pass of the second loop of [show], for the block [block], whose
    object is [obj], at index [i]: the cursor after the block, and the
    world. *)
Definition layoutBlock (gaps : list Q) (i : nat) (cursorY : Q) (w : World)
    (block : nat) (obj : Block) : Q * World :=
  (* Mark blocks as being inside a blockMenu; kill the comment. *)
  let w := update_block (block_isInFlyout true) block w in
  let w := if hasComment env
           then update_block (block_commentText None) block w else w in
  let root := TRoot block in
  let '(x, cursorY) := leadIn (shape obj) cursorY in
  let w := moveBy block (Js.Num x) (Js.Num cursorY) w in
  let cursorY := leadOut (shape obj) (default 0 (gaps !! i)) cursorY in
  (* Create an invisible rectangle under the block to act as a button. *)
  let '(rect, w) := createSvgRect w in
  let w := insertBefore rect w in
  let w := update_block (block_blockMenuRect_ (Some rect)) block w in
  let w := on_menu (with_buttons_ (fun a => Js.array_set a i rect)) w in
  let w :=
    if addable (shape obj) then
      let '(h, w) := bindEvent_ root "mousedown" (HBlockMouseDown block) w in
      on_menu (with_listeners_ (fun l => l ++ [h])) w
    else w in
  let w :=
    match (if hasEntry env then entryAction (type obj) else None) with
    | Some a => snd (bindEvent_ root "mousedown" (HEntry a) w)
    | None => w
    end in
  let '(h, w) := bindEvent_ (TRect rect) "mousedown" (HCreateBlock block) w in
  let w := on_menu (with_listeners_ (fun l => l ++ [h])) w in
  (cursorY, w).

(** The second loop of [show]: lay out the blocks vertically.  The blocks
    of the list are objects, so each is found. *)
Fixpoint layoutBlocks (blocks : list nat) (gaps : list Q) (i : nat)
    (cursorY : Q) (w : World) : World :=
  match blocks with
  | [] => w
  | block :: rest =>
      match heap (store w) !! block with
      | None => w
      | Some obj =>
          let '(cursorY, w) := layoutBlock gaps i cursorY w block obj in
          layoutBlocks rest gaps (S i) cursorY w
      end
  end.

(** Blockly.BlockMenu.prototype.show *)
Definition show (xmlList : XmlList) (w : World) : World :=
  let w := hide w in
  let margin := 0 in
  let w := on_dom (with_display (Some "block"%string)) w in
  (* Create the blocks to be shown in this blockMenu. *)
  let '(blocks, gaps, w) :=
    match xmlList with
    | VariablesCategory => categoryBlocks (variablesCategory env) [] [] w
    | ProceduresCategory => categoryBlocks (proceduresCategory env) [] [] w
    | XmlNodes nodes => createBlocks nodes margin [] [] w
    end in
  (* Lay out the blocks vertically. *)
  let w := layoutBlocks blocks gaps 0%nat 10 w in
  let w := on_menu (with_width_ (Some (Js.Num 0))) w in
  let w := reflow w in
  (* Fire a resize event to update the blockMenu's scrollbar. *)
  let w := log FireResize w in
  let '(h, w) := bindEvent_ TCanvas "blocklyWorkspaceChange" HReflow w in
  let w := on_menu (with_reflowWrapper_ (Some h)) w in
  log FireChange w.

(** ** Events reaching the listeners *)

Definition runHandler (h : Handler) (e : MouseEvent) (w : World) : World :=
  match h with
  | HBlockMouseDown block => blockMouseDown_ block e w
  | HCreateBlock block => snd (createBlockFunc_ block e w)
  | HEntry a => log (EntryCall a) w
  | HTerminateDrag => Blockly_terminateDrag_ w
  | HMouseMove => snd (onMouseMove_ e w)
  | HReflow => reflow w
  | HSyncViewSize => syncViewSize_ w
  end.

(** The browser delivers an event of name [name] at [t]: the listeners
    bound there when it arrives run oldest first, each one only if it is
    still bound when its turn comes. *)
Definition deliver (t : Target) (name : string) (e : MouseEvent) (w : World)
  : World :=
  fold_left (fun w p =>
    if isBound (fst p) w
       && bool_decide (btarget (snd p) = t)
       && String.eqb (bname (snd p)) name
    then runHandler (bhandler (snd p)) e w else w)
    (bindings (dom w)) w.

End BlockMenu.

(** The three loops of [hide]. *)
Definition hideListeners (w : World) : World :=
  fold_left (fun w listen => unbindEvent_ listen w) (listeners_ (menu w)) w.
Definition hideBlocks (blocks : list nat) (w : World) : World :=
  fold_left (fun w block =>
    match heap (store w) !! block with
    | Some obj =>
        if decide (workspace obj = Some PanelWorkspace)
        then dispose block w else w
    | None => w
    end) blocks w.
Definition hideButtons (rs : list nat) (w : World) : World :=
  fold_left (fun w rect => removeNode rect w) rs w.

(** What the layout loop does to the object of a block that it puts at
    [p] over the hit-region [r]. *)
Definition placeBlock (env : Env) (p : Q * Q) (r : nat) (b : Block) : Block :=
  block_blockMenuRect_ (Some r)
    (block_moved (Js.Num (fst p)) (Js.Num (snd p))
       ((if hasComment env then block_commentText None else fun b => b)
          (block_isInFlyout true b))).

(** The hit-region as the layout loop leaves it. *)
Definition newRect : Rect :=
  {| rwidth := None; rheight := None; rx := None; ry := None; inCanvas := true |}.

(** The result [res] of building the blocks of [items] (template and gap
    of each) from the world [w], after the blocks and gaps already there:
    the blocks are new objects with consecutive identities, at the origin
    of the workspace of the menu, and nothing else has changed. *)
Definition built (items : list (Xml * Q)) (blocks : list nat) (gaps : list Q)
    (w : World) (res : list nat * list Q * World) : Prop :=
  let n := next_id w in
  let w' := snd res in
  fst (fst res) = blocks ++ seq n (length items) /\
  snd (fst res) = gaps ++ map snd items /\
  next_id w' = (n + length items)%nat /\
  menu w' = menu w /\ dom w' = dom w /\
  (forall b, (b < n)%nat -> heap (store w') !! b = heap (store w) !! b) /\
  (forall k it, items !! k = Some it ->
     exists obj, heap (store w') !! (n + k)%nat = Some obj /\
       shape obj = xshape (fst it) /\ xy obj = (Js.Num 0, Js.Num 0)).

(** Shape and gap of the blocks that the layout loop goes through, from
    index [i] on. *)
Fixpoint itemsOf (w : World) (blocks : list nat) (gaps : list Q) (i : nat)
  : list (Shape * Q) :=
  match blocks with
  | [] => []
  | block :: rest =>
      match heap (store w) !! block with
      | Some obj => (shape obj, default 0 (gaps !! i)) :: itemsOf w rest gaps (S i)
      | None => []
      end
  end.

(** The first stage of [show]: the blocks of the list or of the category. *)
Definition showBuild (env : Env) (xmlList : XmlList) (w : World)
  : list nat * list Q * World :=
  match xmlList with
  | VariablesCategory => categoryBlocks env (variablesCategory env) [] [] w
  | ProceduresCategory => categoryBlocks env (proceduresCategory env) [] [] w
  | XmlNodes nodes => createBlocks env nodes 0 [] [] w
  end.

(** Template and gap of the blocks that [show] lays out, in order. *)
Definition shownItems (env : Env) (xmlList : XmlList) : list (Xml * Q) :=
  match xmlList with
  | VariablesCategory => variablesCategory env
  | ProceduresCategory => proceduresCategory env
  | XmlNodes nodes => map (fun xml => (xml, 0)) (List.filter isBlockTag nodes)
  end.

(** The world when the layout loop of [show] is through, before the width
    is reset and the menu reflowed. *)
Definition showLaidOut (env : Env) (xmlList : XmlList) (w : World) : World :=
  let res := showBuild env xmlList
               (on_dom (with_display (Some "block"%string)) (hide w)) in
  layoutBlocks env (fst (fst res)) (snd (fst res)) 0 10 (snd res).

(** The object of a block after [reflow] has gone over it. *)
Definition reflowed (env : Env) (blockMenuWidth : Js.num) (obj : Block) : Block :=
  if RTL env
  then block_moved
         (Js.sub (Js.sub (Js.sub blockMenuWidth (Js.toNumber CORNER_RADIUS))
                         (Js.Num (TAB_WIDTH env)))
                 (fst (xy obj)))
         (Js.Num 0) obj
  else obj.

(** The geometry that [reflow] gives to the hit-region of a block. *)
Definition reflowedRect (env : Env) (blockMenuWidth : Js.num) (obj : Block)
    (r : Rect) : Rect :=
  let x := fst (xy (reflowed env blockMenuWidth obj)) in
  rect_geometry (width (shape obj)) (height (shape obj))
    (if RTL env then Js.sub x (Js.Num (width (shape obj))) else x)
    (snd (xy obj)) r.

(** From [w] to [w'] each block object has kept its shape, its row and its
    hit-region, and its column too unless the layout is right-to-left. *)
Definition keepsRows (env : Env) (w w' : World) : Prop :=
  forall b,
    match heap (store w) !! b, heap (store w') !! b with
    | Some o, Some o' =>
        shape o' = shape o /\ Js.same (snd (xy o')) (snd (xy o)) /\
        blockMenuRect_ o' = blockMenuRect_ o /\
        (RTL env = false -> fst (xy o') = fst (xy o))
    | None, None => True
    | _, _ => False
    end.

(** The hit-regions of two of the blocks are distinct elements. *)
Definition rectsDistinct (w : World) (blocks : list nat) : Prop :=
  forall b1 b2 o1 o2 r,
    In b1 blocks -> In b2 blocks ->
    heap (store w) !! b1 = Some o1 -> heap (store w) !! b2 = Some o2 ->
    blockMenuRect_ o1 = Some r -> blockMenuRect_ o2 = Some r -> b1 = b2.

(** ** Observations on worlds *)

(** The listeners bound at a target for an event. *)
Definition listenersAt (t : Target) (name : string) (w : World) : list Handler :=
  omap (fun p : nat * Binding =>
          if bool_decide (btarget (snd p) = t) && String.eqb (bname (snd p)) name
          then Some (bhandler (snd p)) else None)
       (bindings (dom w)).

(** A call that took the world from [w] to [w'] has put a block on the main
    workspace. *)
Definition createsBlock (w w' : World) : Prop :=
  (length (mainTopBlocks (store w)) < length (mainTopBlocks (store w')))%nat.

(** The block on which the latest drag was started. *)
Definition dragTarget (w : World) : option nat :=
  match trace w with
  | BlockMouseDown block _ :: _ => Some block
  | _ => None
  end.

Definition workspaceOf (w : World) (block : nat) : option WorkspaceId :=
  heap (store w) !! block ≫= workspace.

(** The blocks that [show] lays out, in order: shape and gap of each. *)
Definition shownShapes (env : Env) (xmlList : XmlList) : list (Shape * Q) :=
  match xmlList with
  | VariablesCategory => map (fun p => (xshape (fst p), snd p)) (variablesCategory env)
  | ProceduresCategory => map (fun p => (xshape (fst p), snd p)) (proceduresCategory env)
  | XmlNodes nodes => map (fun xml => (xshape xml, 0)) (List.filter isBlockTag nodes)
  end.

(** The positions that the layout loop gives to blocks of these shapes and
    gaps when it starts with the cursor at [cursorY]. *)
Fixpoint positions (items : list (Shape * Q)) (cursorY : Q) : list (Q * Q) :=
  match items with
  | [] => []
  | (s, gap) :: rest =>
      let p := leadIn s cursorY in
      p :: positions rest (leadOut s gap (snd p))
  end.

(** The gap that the layout leaves above a block, and the one below it
    before height and gap are added. *)
Definition leadingGap (s : Shape) : Q :=
  if outputConnection s then 0
  else if negb (previousConnection s) then 10 else 7.
Definition trailingGap (s : Shape) : Q :=
  if negb (previousConnection s) && negb (nextConnection s) then 10 else 0.

(** The position of a block in the world, if it is there. *)
Definition positionOf (w : World) (block : nat) : option (Js.num * Js.num) :=
  xy <$> heap (store w) !! block.

(** The hit-region of a block has the geometry of the block. *)
Definition rectMatches (env : Env) (r : Rect) (obj : Block) : Prop :=
  exists w h x y,
    rwidth r = Some w /\ rheight r = Some h /\ rx r = Some x /\ ry r = Some y /\
    w == width (shape obj) /\ h == height (shape obj) /\
    Js.same x (if RTL env then Js.sub (fst (xy obj)) (Js.Num (width (shape obj)))
               else fst (xy obj)) /\
    Js.same y (snd (xy obj)).

(** Each top block of the panel is a block object, no block is listed
    twice, and the hit-regions of two blocks are distinct elements. *)
Definition panelWellFormed (w : World) : Prop :=
  NoDup (panelTopBlocks (store w)) /\
  (forall b, In b (panelTopBlocks (store w)) -> is_Some (heap (store w) !! b)) /\
  (forall b1 b2 o1 o2 r,
      In b1 (panelTopBlocks (store w)) -> In b2 (panelTopBlocks (store w)) ->
      heap (store w) !! b1 = Some o1 -> heap (store w) !! b2 = Some o2 ->
      blockMenuRect_ o1 = Some r -> blockMenuRect_ o2 = Some r -> b1 = b2) /\
  (forall b o r,
      In b (panelTopBlocks (store w)) -> heap (store w) !! b = Some o ->
      blockMenuRect_ o = Some r -> is_Some (rects (dom w) !! r)).

(** ** The layout as the specification words it

    Two readings of "each block with an output connection is shifted right
    by half its height, each block lacking a previous connection gets an
    extra 10 units of leading gap (and, if it also lacks a next connection,
    an extra 10 units of trailing gap), each other block gets 7 units of
    leading gap". *)
Module Spec.

(** The three kinds of block are read as overlapping. *)
Definition leadingGapLiteral (s : Shape) : Q :=
  if negb (previousConnection s) then 10 else 7.
Definition trailingGapLiteral (s : Shape) : Q :=
  if negb (previousConnection s) && negb (nextConnection s) then 10 else 0.

(** The three kinds are read as exclusive: a block with an output
    connection is only shifted. *)
Definition leadingGapExclusive (s : Shape) : Q :=
  if outputConnection s then 0
  else if negb (previousConnection s) then 10 else 7.
Definition trailingGapExclusive (s : Shape) : Q :=
  if outputConnection s then 0
  else if negb (previousConnection s) && negb (nextConnection s) then 10 else 0.

(** The y positions under a reading, from the cursor [cursorY]. *)
Fixpoint ys (lead trail : Shape -> Q) (items : list (Shape * Q)) (cursorY : Q)
  : list Q :=
  match items with
  | [] => []
  | (s, gap) :: rest =>
      let y := cursorY + lead s in
      y :: ys lead trail rest (y + trail s + (height s + gap))
  end.

End Spec.

(** ** A page *)

Module Page.

(** The constants of the toolkit, Entry loaded, both workspaces rendered. *)
Definition env : Env :=
  {| DRAG_RADIUS := 5; RTL := false; TAB_WIDTH := 8; scrollbarThickness := 15;
     hasEntry := true; hasComment := true;
     hasContextMenu := true; rendersIn := fun _ => true;
     mainCanvasXY := (0, 0); variablesCategory := []; proceduresCategory := [] |}.

Definition rtl : Env :=
  {| DRAG_RADIUS := 5; RTL := true; TAB_WIDTH := 8; scrollbarThickness := 15;
     hasEntry := true; hasComment := true;
     hasContextMenu := true; rendersIn := fun _ => true;
     mainCanvasXY := (0, 0); variablesCategory := []; proceduresCategory := [] |}.

Definition blank : World :=
  {| dom := {| bindings := []; rects := ∅; viewRect := (600, 250);
               canvasBBox := Some (300, 0); menuViewSize := None;
               display := None; canvasTransform := None |};
     store := {| heap := ∅; panelTopBlocks := []; mainTopBlocks := [];
                 scrollY := 0 |};
     menu := {| buttons_ := []; listeners_ := []; reflowWrapper_ := None;
                onResizeWrapper_ := None; width_ := None |};
     statics := {| startDownEvent_ := None; startBlock_ := None;
                   startblockMenu_ := None; startFlyout_ := None;
                   onMouseUpWrapper_ := None; onMouseMoveWrapper_ := None |};
     next_id := 0; trace := [] |}.

(** A page with a new, empty block menu. *)
Definition fresh : World := BlockMenu blank.

Definition statement : Shape :=
  {| outputConnection := false; previousConnection := true;
     nextConnection := true; disabled := false; addable := true;
     height := 20; width := 100; comment := None |}.
Definition value : Shape :=
  {| outputConnection := true; previousConnection := false;
     nextConnection := false; disabled := false; addable := true;
     height := 20; width := 60; comment := None |}.

Definition full : Shape :=
  {| outputConnection := false; previousConnection := true;
     nextConnection := true; disabled := true; addable := true;
     height := 20; width := 100; comment := None |}.

Definition node (ty : string) (s : Shape) : Xml :=
  {| tagName := Some "block"%string; xtype := ty; xshape := s |}.

Definition click (x y : Z) : MouseEvent :=
  {| etype := "mousedown"; clientX := x; clientY := y; button := 0;
     ctrlKey := false |}.
Definition rightClick (x y : Z) : MouseEvent :=
  {| etype := "mousedown"; clientX := x; clientY := y; button := 2;
     ctrlKey := false |}.
Definition move (x y : Z) : MouseEvent :=
  {| etype := "mousemove"; clientX := x; clientY := y; button := 0;
     ctrlKey := false |}.
Definition release (x y : Z) : MouseEvent :=
  {| etype := "mouseup"; clientX := x; clientY := y; button := 0;
     ctrlKey := false |}.

(** The menu shows the button of Entry that makes a variable. *)
Definition withMakeVariable : World :=
  show env (XmlNodes [node "make_variable" statement]) fresh.

(** The menu shows one statement block; it is block 1 and its hit-region
    is element 2. *)
Definition withStatement : World :=
  show env (XmlNodes [node "move" statement]) fresh.

(** The menu shows one block that is beyond capacity. *)
Definition withFull : World :=
  show env (XmlNodes [node "move" full]) fresh.

(** The button went down on the block at (100, 100). *)
Definition pressed : World :=
  deliver env (TRoot 1) "mousedown" (click 100 100) withStatement.

(** A value block above a statement block. *)
Definition valueThenStatement : XmlList :=
  XmlNodes [node "number" value; node "move" statement].

(** The statement block was moved down by 50 after it was shown; its
    hit-region is still where [show] left it, and no block has another
    width than before. *)
Definition nudged : World := moveBy 1 (Js.Num 0) (Js.Num 50) withStatement.

(** The menu lays out one statement block, right-to-left: the world in
    which [show] calls [reflow], the block at (10, 17) and the width reset
    to 0. *)
Definition rtlLaidOut : World :=
  on_menu (with_width_ (Some (Js.Num 0)))
          (showLaidOut rtl (XmlNodes [node "move" statement]) fresh).

(** A block that was never rendered. *)
Definition unrendered : World :=
  on_store (with_heap (insert 9%nat
    {| type := "move"; workspace := Some PanelWorkspace; shape := statement;
       svgRoot := None; xy := (Js.Num 0, Js.Num 0); isInFlyout := true;
       isInBlockMenu := true; commentText := None; blockMenuRect_ := None;
       stalkerBlock := None; startDragXY := None |})) fresh.

(** A click on the hit-region of the block has left a copy of it in the
    workspace of the menu. *)
Definition dragged : World :=
  snd (createBlockFunc_ env 1 (click 100 100) withStatement).

(** The page without Entry. *)
Definition plain : Env :=
  {| DRAG_RADIUS := 5; RTL := false; TAB_WIDTH := 8; scrollbarThickness := 15;
     hasEntry := false; hasComment := true;
     hasContextMenu := true; rendersIn := fun _ => true;
     mainCanvasXY := (0, 0); variablesCategory := []; proceduresCategory := [] |}.

(** A text node between two block elements, one of them with its tag in
    upper case. *)
Definition mixedNodes : list Xml :=
  [ {| tagName := Some "BLOCK"%string; xtype := "number"; xshape := value |};
    {| tagName := None; xtype := ""; xshape := statement |};
    {| tagName := Some "sep"%string; xtype := ""; xshape := statement |};
    node "move" statement ].

(** getBBox fails on the hidden canvas. *)
Definition hidden : World :=
  on_dom (fun d =>
    {| bindings := bindings d; rects := rects d; viewRect := viewRect d;
       canvasBBox := None; menuViewSize := menuViewSize d;
       display := display d; canvasTransform := canvasTransform d |}) fresh.

End Page.

(** ** Well-formed worlds *)

(** Every bound listener has a handle that was given out before. *)
Definition handlesBelow (w : World) : Prop :=
  Forall (fun p : nat * Binding => (fst p < next_id w)%nat) (bindings (dom w)).

(** Every top block of the workspace of the menu is an object of that
    workspace. *)
Definition panelOwned (w : World) : Prop :=
  forall b, In b (panelTopBlocks (store w)) ->
    exists obj, heap (store w) !! b = Some obj /\
                workspace obj = Some PanelWorkspace.

(** The listeners that are bound, without those of the handles [hs]. *)
Definition withoutHandles (hs : list nat) (l : list (nat * Binding))
  : list (nat * Binding) :=
  List.filter (fun p => negb (existsb (Nat.eqb (fst p)) hs)) l.

(** * Properties *)

(** Unfolds the projections and updates of worlds, blocks and rectangles. *)
Ltac world_simpl :=
  cbn [fst snd dom store menu statics next_id trace
       on_dom on_store on_menu on_statics bump log
       heap panelTopBlocks mainTopBlocks scrollY
       with_heap with_panelTopBlocks with_mainTopBlocks with_scrollY
       addTopBlock update_block moveBy
       bindings rects canvasTransform with_bindings with_rects
       type workspace shape svgRoot xy stalkerBlock startDragXY
       block_moved block_isInBlockMenu block_stalkerBlock block_startDragXY
       block_isInFlyout block_commentText block_blockMenuRect_
       blockToDom_ xtype xshape] in *.

(** ** Numbers *)

Lemma same_refl a : Js.same a a.
Proof. destruct a; cbn; [reflexivity | exact I]. Qed.

Lemma same_sym a b : Js.same a b -> Js.same b a.
Proof. destruct a, b; cbn; auto. intros H. now symmetry. Qed.

Lemma same_trans a b c : Js.same a b -> Js.same b c -> Js.same a c.
Proof.
  destruct a, b, c; cbn; try tauto. intros H1 H2. now rewrite H1.
Qed.

Lemma add_zero a : Js.same (Js.add a (Js.Num 0)) a.
Proof. destruct a; cbn; [ring | exact I]. Qed.

(** Nothing compares equal to NaN, so [!=] against it always holds. *)
Lemma neq_NaN p : Js.neq p Js.NaN = true.
Proof. destruct p as [[q |] |]; reflexivity. Qed.

(** ** The guards of the block-creation handler *)

(** C10. A right-button click, or an origin block that is disabled, makes
    the block-creation handler return at once: it creates no block and the
    world is the one it was called in. *)
Theorem createBlockFunc_guards env origin e w :
  isRightButton e = true \/
  (exists obj, heap (store w) !! origin = Some obj /\ disabled (shape obj) = true) ->
  createBlockFunc_ env origin e w = (Js.Returned, w).
Proof.
  unfold createBlockFunc_.
  intros [Hright | (obj & Hobj & Hdis)].
  - now rewrite Hright.
  - destruct (isRightButton e); [reflexivity |].
    now rewrite Hobj, Hdis.
Qed.

Lemma createBlockFunc_guards_witness :
  createBlockFunc_ Page.env 1 (Page.rightClick 3 4) Page.withStatement
    = (Js.Returned, Page.withStatement) /\
  createBlockFunc_ Page.env 1 (Page.click 3 4) Page.withFull
    = (Js.Returned, Page.withFull).
Proof.
  split.
  - apply createBlockFunc_guards. left. reflexivity.
  - apply createBlockFunc_guards. right.
    eexists. split; [vm_compute; reflexivity | reflexivity].
Defined.

(** ** Scrolling *)

Lemma getMetrics_object w : is_Some (getMetrics_ w).
Proof. unfold getMetrics_. eauto. Qed.

(** C8. Called with a ratio whose [y] is a number, [setMetrics_] sets the
    scroll offset of the panel workspace to
    [-contentHeight * y - contentTop], both taken from the metrics of the
    moment, and translates the canvas vertically to that offset plus
    [absoluteTop]. *)
Theorem setMetrics_tracks_ratio w y :
  exists m,
    getMetrics_ w = Some m /\
    scrollY (store (setMetrics_ (Js.Number y) w))
      = - contentHeight m * y - contentTop m /\
    canvasTransform (dom (setMetrics_ (Js.Number y) w))
      = Some (0, scrollY (store (setMetrics_ (Js.Number y) w)) + absoluteTop m).
Proof.
  unfold setMetrics_.
  destruct (getMetrics_ w) as [m |] eqn:Hm.
  - exists m. repeat split; reflexivity.
  - destruct (getMetrics_object w) as [m' Hm']. congruence.
Qed.

(** A ratio without a number leaves the scroll offset alone; the canvas is
    still translated to it. *)
Lemma setMetrics_not_a_number v w :
  Js.isNumber v = false ->
  scrollY (store (setMetrics_ v w)) = scrollY (store w) /\
  canvasTransform (dom (setMetrics_ v w)) = Some (0, scrollY (store w) + 0).
Proof.
  intros Hv. unfold setMetrics_, getMetrics_.
  destruct v; try discriminate; split; reflexivity.
Qed.

(** [getMetrics_] recovers from a failing [getBBox] with an empty box. *)
Lemma getMetrics_recovers w :
  canvasBBox (dom w) = None ->
  exists m, getMetrics_ w = Some m /\ contentHeight m == 0.
Proof.
  intros Hbox. unfold getMetrics_. rewrite Hbox.
  eexists. split; [reflexivity |]. cbn. reflexivity.
Qed.

(** ** Blocks that are not rendered *)

Lemma domToBlock_lookup env ws xml w :
  heap (store (snd (domToBlock env ws xml w))) !! fst (domToBlock env ws xml w)
  = Some {| type := xtype xml; workspace := Some ws; shape := xshape xml;
            svgRoot := if rendersIn env ws then Some (next_id w) else None;
            xy := (Js.Num 0, Js.Num 0); isInFlyout := false; isInBlockMenu := false;
            commentText := comment (xshape xml); blockMenuRect_ := None;
            stalkerBlock := None; startDragXY := None |}.
Proof.
  unfold domToBlock. cbn. destruct ws; cbn; apply lookup_insert_eq.
Qed.

(** C6, as the code has it.  The handler returns at once, with nothing
    changed, on a right click and on a disabled origin block, rendered or
    not.  On a left click on an enabled origin block it throws the string
    'originBlock is not rendered.' when the origin has no SVG root, and the
    string 'block is not rendered.' when the copy in the panel or the copy
    on the main workspace has none; it returns when all three are rendered.
    A throw undoes nothing: Entry has been told of the change, the copy in
    the workspace of the menu is there as a new top block, and so is the
    copy on the main workspace when the throw is about it.  Elsewhere the
    file handles errors by recovering: [getMetrics_] goes on with an empty
    box when [getBBox] fails, so that it always gives a metrics object, and
    the guard of [setMetrics_] against missing metrics never makes it
    return before it has translated the canvas. *)
Theorem createBlockFunc_not_rendered env origin obj e w :
  heap (store w) !! origin = Some obj ->
  let r := createBlockFunc_ env origin e w in
  let rendered := match svgRoot obj with Some _ => true | None => false end in
  (isRightButton e = true \/ disabled (shape obj) = true ->
   r = (Js.Returned, w)) /\
  (isRightButton e = false -> disabled (shape obj) = false ->
   fst r =
     match svgRoot obj with
     | None => Js.Thrown "originBlock is not rendered."
     | Some _ =>
         if rendersIn env PanelWorkspace && rendersIn env MainWorkspace
         then Js.Returned
         else Js.Thrown "block is not rendered."
     end /\
   (fst r <> Js.Returned ->
    trace (snd r)
      = (if hasEntry env then [EntryDispatch "entryBlocklyChanged"] else [])
        ++ trace w /\
    panelTopBlocks (store (snd r)) = panelTopBlocks (store w) ++ [next_id w] /\
    mainTopBlocks (store (snd r))
      = mainTopBlocks (store w)
        ++ (if rendered && rendersIn env PanelWorkspace
            then [S (next_id w)] else []) /\
    exists k, heap (store (snd r)) !! next_id w = Some k /\
              blockToDom_ k = blockToDom_ obj /\
              workspace k = Some PanelWorkspace)) /\
  (forall v, exists m, getMetrics_ v = Some m /\
                       (canvasBBox (dom v) = None -> contentHeight m == 0)) /\
  (forall y v, canvasTransform (dom (setMetrics_ y v))
               = Some (0, scrollY (store (setMetrics_ y v)) + 0)).
Proof.
  intros Hobj. cbn zeta. repeat apply conj.
  - intros [Hright | Hdis]; unfold createBlockFunc_.
    + now rewrite Hright.
    + destruct (isRightButton e); [reflexivity |]. now rewrite Hobj, Hdis.
  - intros Hleft Hen. unfold createBlockFunc_.
    rewrite Hleft, Hobj, Hen. unfold domToBlock.
    assert (Hne : next_id w <> S (next_id w)) by lia.
    destruct (hasEntry env), (svgRoot obj) as [root |],
      (rendersIn env PanelWorkspace), (rendersIn env MainWorkspace);
      world_simpl;
      rewrite ?lookup_alter_eq, ?lookup_insert_eq;
      cbn [fmap option_fmap option_map]; world_simpl;
      rewrite ?lookup_insert_eq; world_simpl;
      (split; [reflexivity |]); intros Hthrown;
      try (exfalso; apply Hthrown; reflexivity);
      cbn [andb app];
      (repeat apply conj; try reflexivity; try (now rewrite app_nil_r);
       eexists; split;
       [ rewrite ?(lookup_insert_ne _ _ _ _ (not_eq_sym Hne)),
                 ?lookup_alter_eq, ?lookup_insert_eq; reflexivity
       | split; reflexivity ]).
  - intros v. unfold getMetrics_. eexists. split; [reflexivity |].
    intros Hbox. rewrite Hbox. cbn. reflexivity.
  - intros y v. unfold setMetrics_, getMetrics_. destruct y; reflexivity.
Qed.

Lemma createBlockFunc_not_rendered_witness :
  fst (createBlockFunc_ Page.env 9 (Page.click 3 4) Page.unrendered)
    = Js.Thrown "originBlock is not rendered." /\
  panelTopBlocks (store (snd (createBlockFunc_ Page.env 9 (Page.click 3 4)
                                 Page.unrendered)))
    = panelTopBlocks (store Page.unrendered) ++ [next_id Page.unrendered].
Proof.
  destruct (createBlockFunc_not_rendered Page.env 9
           {| type := "move"; workspace := Some PanelWorkspace;
              shape := Page.statement; svgRoot := None;
              xy := (Js.Num 0, Js.Num 0);
              isInFlyout := true; isInBlockMenu := true; commentText := None;
              blockMenuRect_ := None; stalkerBlock := None;
              startDragXY := None |} (Page.click 3 4) Page.unrendered)
    as (_ & Hthrow & _).
  - vm_compute. reflexivity.
  - destruct (Hthrow eq_refl eq_refl) as (Hout & Hkept).
    split; [exact Hout |].
    destruct Hkept as (_ & Hpanel & _).
    + rewrite Hout. discriminate.
    + exact Hpanel.
Defined.

(** C6, as the specification has it, fails on a right click: the handler
    runs on a block without SVG root and returns.  Nor are the two throws
    the only error handling of the file: [getMetrics_] catches the failure
    of [getBBox] and goes on with an empty box. *)
Lemma createBlockFunc_unrendered_returns :
  (svgRoot <$> heap (store Page.unrendered) !! 9%nat) = Some None /\
  fst (createBlockFunc_ Page.env 9 (Page.rightClick 3 4) Page.unrendered)
    = Js.Returned /\
  canvasBBox (dom Page.hidden) = None /\
  (contentHeight <$> getMetrics_ Page.hidden) = Some (0 + 0).
Proof. cbv zeta. repeat apply conj; vm_compute; reflexivity. Qed.

(** ** The end of a pending drag *)

(** [terminateDrag_] clears [startFlyout_], a static that nothing sets; the
    static [startblockMenu_], which [blockMouseDown_] sets, keeps its
    value. *)
Lemma terminateDrag_startblockMenu_ w :
  startblockMenu_ (statics (terminateDrag_ w)) = startblockMenu_ (statics w).
Proof.
  unfold terminateDrag_.
  destruct (onMouseUpWrapper_ (statics w)) as [up |]; cbn;
    destruct (onMouseMoveWrapper_ (statics w)) as [mv |]; reflexivity.
Qed.

Lemma terminateDrag_clears w :
  let s := statics (terminateDrag_ w) in
  startDownEvent_ s = None /\ startBlock_ s = None /\
  onMouseUpWrapper_ s = None /\ onMouseMoveWrapper_ s = None.
Proof.
  unfold terminateDrag_.
  destruct (onMouseUpWrapper_ (statics w)) as [up |] eqn:Hup; cbn;
    destruct (onMouseMoveWrapper_ (statics w)) as [mv |] eqn:Hmv; cbn; auto.
Qed.

(** C3, at a press and release on the block of the menu.  The button goes
    down on the block at (100, 100) and comes up there: no block is
    created, the two listeners of the document are unbound, the start
    event and the start block are null again, but [startblockMenu_] still
    holds the block menu. *)
Theorem release_keeps_startblockMenu_ :
  let w := deliver Page.env TDocument "mouseup" (Page.release 100 100) Page.pressed in
  startblockMenu_ (statics Page.pressed) = Some TheBlockMenu /\
  statics w =
    {| startDownEvent_ := None; startBlock_ := None;
       startblockMenu_ := Some TheBlockMenu; startFlyout_ := None;
       onMouseUpWrapper_ := None; onMouseMoveWrapper_ := None |} /\
  listenersAt TDocument "mouseup" w = [] /\
  listenersAt TDocument "mousemove" w = [] /\
  mainTopBlocks (store w) = [] /\
  panelTopBlocks (store w) = panelTopBlocks (store Page.pressed).
Proof. cbv zeta. repeat apply conj; vm_compute; reflexivity. Qed.

(** ** Hiding the menu *)

Lemma fold_left_frame {A B C} (f : A -> B -> A) (g : A -> C) :
  (forall a b, g (f a b) = g a) ->
  forall l a, g (fold_left f l a) = g a.
Proof.
  intros Hf l. induction l as [| b l IH]; intros a; cbn; [reflexivity |].
  now rewrite IH.
Qed.

Lemma dispose_menu b w : menu (dispose b w) = menu w.
Proof.
  unfold dispose. destruct (heap (store w) !! b) as [obj |]; [| reflexivity].
  destruct (workspace obj) as [[] |]; reflexivity.
Qed.

Lemma dispose_dom b w : dom (dispose b w) = dom w.
Proof.
  unfold dispose. destruct (heap (store w) !! b) as [obj |]; [| reflexivity].
  destruct (workspace obj) as [[] |]; reflexivity.
Qed.

Lemma dispose_next_id b w : next_id (dispose b w) = next_id w.
Proof.
  unfold dispose. destruct (heap (store w) !! b) as [obj |]; [| reflexivity].
  destruct (workspace obj) as [[] |]; reflexivity.
Qed.

Lemma hideBlocks_frame {C} (g : World -> C) :
  (forall b w, g (dispose b w) = g w) ->
  forall l w, g (hideBlocks l w) = g w.
Proof.
  intros Hg. apply fold_left_frame. intros w b.
  destruct (heap (store w) !! b) as [obj |]; [| reflexivity].
  destruct (decide (workspace obj = Some PanelWorkspace)); [apply Hg | reflexivity].
Qed.

Lemma hide_unfold w :
  hide w =
  let w1 := on_menu (with_listeners_ (fun _ => [])) (hideListeners w) in
  let w2 := match reflowWrapper_ (menu w1) with
            | Some h => on_menu (with_reflowWrapper_ None) (unbindEvent_ h w1)
            | None => w1
            end in
  let w3 := hideBlocks (getTopBlocks PanelWorkspace w2) w2 in
  on_menu (with_buttons_ (fun _ => []))
          (hideButtons (Js.truthy_prefix (buttons_ (menu w3))) w3).
Proof. reflexivity. Qed.

Lemma hideListeners_menu w : menu (hideListeners w) = menu w.
Proof. unfold hideListeners. now apply (fold_left_frame _ menu). Qed.

Lemma hide_listeners_ w : listeners_ (menu (hide w)) = [].
Proof.
  rewrite hide_unfold. cbn zeta. cbn [menu on_menu with_buttons_ listeners_].
  unfold hideButtons. rewrite (fold_left_frame _ menu) by reflexivity.
  rewrite (hideBlocks_frame menu dispose_menu).
  destruct (reflowWrapper_ _); reflexivity.
Qed.

Lemma hide_buttons_ w : buttons_ (menu (hide w)) = [].
Proof. rewrite hide_unfold. reflexivity. Qed.

Lemma hide_reflowWrapper_ w : reflowWrapper_ (menu (hide w)) = None.
Proof.
  rewrite hide_unfold. cbn zeta. cbn [menu on_menu with_buttons_ reflowWrapper_].
  unfold hideButtons. rewrite (fold_left_frame _ menu) by reflexivity.
  rewrite (hideBlocks_frame menu dispose_menu).
  match goal with |- context [match ?x with Some _ => _ | None => _ end] =>
    destruct x eqn:Hr end; [reflexivity | exact Hr].
Qed.

Lemma hide_next_id w : next_id (hide w) = next_id w.
Proof.
  rewrite hide_unfold. cbn zeta. cbn [next_id on_menu].
  unfold hideButtons. rewrite (fold_left_frame _ next_id) by reflexivity.
  rewrite (hideBlocks_frame next_id dispose_next_id).
  destruct (reflowWrapper_ _); cbn [next_id on_menu unbindEvent_ on_dom];
    unfold hideListeners; now rewrite (fold_left_frame _ next_id).
Qed.

Lemma unbindEvent_isBound h k w :
  isBound k (unbindEvent_ h w) = isBound k w && negb (Nat.eqb k h).
Proof.
  unfold isBound, unbindEvent_. cbn.
  induction (bindings (dom w)) as [| p l IH]; [reflexivity |].
  cbn. destruct (Nat.eqb (fst p) h) eqn:Hph; cbn.
  - rewrite IH. destruct (Nat.eqb (fst p) k) eqn:Hpk; cbn; [| reflexivity].
    apply Nat.eqb_eq in Hph, Hpk. subst.
    rewrite Nat.eqb_refl. cbn. now rewrite andb_false_r.
  - rewrite IH. destruct (Nat.eqb (fst p) k) eqn:Hpk; cbn; [| reflexivity].
    apply Nat.eqb_eq in Hpk. subst. now rewrite Hph.
Qed.

Lemma unbind_all_isBound hs k w :
  isBound k (fold_left (fun w h => unbindEvent_ h w) hs w)
  = isBound k w && negb (existsb (Nat.eqb k) hs).
Proof.
  revert w. induction hs as [| h hs IH]; intros w; cbn.
  - now rewrite andb_true_r.
  - rewrite IH, unbindEvent_isBound.
    destruct (isBound k w), (Nat.eqb k h); reflexivity.
Qed.

Lemma hide_bindings w :
  bindings (dom (hide w)) =
  bindings (dom
    (let w1 := hideListeners w in
     match reflowWrapper_ (menu w) with
     | Some h => unbindEvent_ h w1
     | None => w1
     end)).
Proof.
  rewrite hide_unfold. cbn zeta. cbn [dom on_menu].
  unfold hideButtons. rewrite (fold_left_frame _ (fun w => bindings (dom w))) by reflexivity.
  rewrite (hideBlocks_frame (fun w => bindings (dom w)))
    by (intros; now rewrite dispose_dom).
  cbn [menu on_menu with_listeners_ reflowWrapper_].
  rewrite hideListeners_menu.
  destruct (reflowWrapper_ (menu w)); reflexivity.
Qed.

(** Each listener that the menu has recorded is unbound by [hide]. *)
Lemma hide_unbinds_recorded w h :
  In h (listeners_ (menu w)) \/ reflowWrapper_ (menu w) = Some h ->
  isBound h (hide w) = false.
Proof.
  intros Hh. unfold isBound at 1. rewrite hide_bindings.
  change (isBound h
    (let w1 := hideListeners w in
     match reflowWrapper_ (menu w) with
     | Some h => unbindEvent_ h w1
     | None => w1
     end) = false).
  cbn zeta. unfold hideListeners.
  destruct Hh as [Hin | Hwr].
  - assert (Hex : existsb (Nat.eqb h) (listeners_ (menu w)) = true).
    { apply existsb_exists. exists h. split; [exact Hin | apply Nat.eqb_refl]. }
    destruct (reflowWrapper_ (menu w)) as [r |].
    + rewrite unbindEvent_isBound, unbind_all_isBound, Hex. cbn.
      now rewrite andb_false_r.
    + rewrite unbind_all_isBound, Hex. cbn. now rewrite andb_false_r.
  - rewrite Hwr, unbindEvent_isBound, Nat.eqb_refl. cbn. now rewrite andb_false_r.
Qed.

(** A listener that the menu has not recorded stays bound. *)
Lemma hide_keeps_unrecorded w h :
  ~ In h (listeners_ (menu w)) -> reflowWrapper_ (menu w) <> Some h ->
  isBound h (hide w) = isBound h w.
Proof.
  intros Hnin Hwr. unfold isBound at 1. rewrite hide_bindings.
  change (isBound h
    (let w1 := hideListeners w in
     match reflowWrapper_ (menu w) with
     | Some h => unbindEvent_ h w1
     | None => w1
     end) = isBound h w).
  cbn zeta. unfold hideListeners.
  assert (Hex : existsb (Nat.eqb h) (listeners_ (menu w)) = false).
  { apply not_true_is_false. intros Hex. apply existsb_exists in Hex.
    destruct Hex as (k & Hk & Hhk). apply Nat.eqb_eq in Hhk. now subst. }
  destruct (reflowWrapper_ (menu w)) as [r |].
  - rewrite unbindEvent_isBound, unbind_all_isBound, Hex. cbn.
    rewrite andb_true_r.
    destruct (Nat.eqb h r) eqn:Hhr; cbn; [| now rewrite andb_true_r].
    apply Nat.eqb_eq in Hhr. subst. congruence.
  - rewrite unbind_all_isBound, Hex. cbn. now rewrite andb_true_r.
Qed.

Lemma hideButtons_missing rs :
  forall w r,
    rects (dom w) !! r = None -> rects (dom (hideButtons rs w)) !! r = None.
Proof.
  induction rs as [| r0 rs IH]; intros w r Hr; [exact Hr |].
  cbn [hideButtons fold_left]. apply IH.
  unfold removeNode. cbn. now apply lookup_alter_None.
Qed.

(** The hit-regions that the menu has recorded are out of the canvas
    after [hide]. *)
Lemma hideButtons_removed rs :
  forall w r rect,
    rects (dom (hideButtons rs w)) !! r = Some rect ->
    In r rs \/ (exists rect0, rects (dom w) !! r = Some rect0 /\ inCanvas rect0 = false) ->
    inCanvas rect = false.
Proof.
  induction rs as [| r0 rs IH]; intros w r rect Hrect Hwhy.
  - cbn in Hrect. destruct Hwhy as [[] | (rect0 & H0 & Hout)]. congruence.
  - cbn [hideButtons fold_left] in Hrect. apply (IH _ _ _ Hrect).
    destruct (decide (r = r0)) as [-> | Hne].
    + right. unfold removeNode. cbn. rewrite lookup_alter_eq.
      destruct (rects (dom w) !! r0) as [rect1 |] eqn:H1.
      * eexists. split; reflexivity.
      * exfalso.
        assert (Hnone : rects (dom (removeNode r0 w)) !! r0 = None).
        { unfold removeNode. cbn. now apply lookup_alter_None. }
        apply (hideButtons_missing rs) in Hnone.
        unfold hideButtons in Hnone. congruence.
    + destruct Hwhy as [[Heq | Hin] | (rect0 & H0 & Hout)].
      * congruence.
      * now left.
      * right. exists rect0. split; [| exact Hout].
        unfold removeNode. cbn. now rewrite lookup_alter_ne by congruence.
Qed.

Lemma hide_removes_buttons w r rect :
  In r (Js.truthy_prefix (buttons_ (menu w))) ->
  rects (dom (hide w)) !! r = Some rect ->
  inCanvas rect = false.
Proof.
  intros Hin. rewrite hide_unfold. cbn zeta. cbn [dom on_menu].
  match goal with
  | |- rects (dom (hideButtons (Js.truthy_prefix (buttons_ (menu ?w3))) _)) !! _ = _ -> _ =>
      assert (Hb : buttons_ (menu w3) = buttons_ (menu w))
  end.
  { rewrite (hideBlocks_frame menu dispose_menu).
    cbn [menu on_menu with_listeners_ reflowWrapper_].
    destruct (reflowWrapper_ (menu (hideListeners w)));
      cbn [menu on_menu unbindEvent_ on_dom with_reflowWrapper_ with_listeners_ buttons_];
      now rewrite hideListeners_menu. }
  rewrite Hb. intros Hrect.
  eapply hideButtons_removed; [exact Hrect | now left].
Qed.

(** A top block that is still on the workspace of the menu after the loop
    of [hide] over [blocks] was there before and is not one of [blocks]. *)
Lemma hideBlocks_disposed blocks :
  forall w b obj,
    In b (panelTopBlocks (store (hideBlocks blocks w))) ->
    heap (store (hideBlocks blocks w)) !! b = Some obj ->
    workspace obj = Some PanelWorkspace ->
    In b (panelTopBlocks (store w)) /\ ~ In b blocks /\
    exists obj0, heap (store w) !! b = Some obj0 /\
                 workspace obj0 = Some PanelWorkspace.
Proof.
  induction blocks as [| b0 rest IH]; intros w b obj Hin Hobj Hws.
  - cbn in *. repeat split; [exact Hin | intros [] | eauto].
  - cbn [hideBlocks fold_left] in Hin, Hobj.
    match type of Hin with
    | In b (panelTopBlocks (store (fold_left _ rest ?w1))) => set (v := w1) in *
    end.
    destruct (IH v b obj Hin Hobj Hws) as (Hin1 & Hnot & obj1 & Hobj1 & Hws1).
    destruct (heap (store w) !! b0) as [o0 |] eqn:Ho0.
    + destruct (decide (workspace o0 = Some PanelWorkspace)) as [Hp | Hnp].
      * subst v. unfold dispose in Hin1, Hobj1. rewrite Ho0, Hp in Hin1, Hobj1.
        cbn in Hin1, Hobj1.
        apply filter_In in Hin1. destruct Hin1 as [Hin0 Hneq].
        apply negb_true_iff, Nat.eqb_neq in Hneq.
        rewrite lookup_alter_ne in Hobj1 by congruence.
        repeat split; [exact Hin0 | intros [-> | Hrest]; [congruence | contradiction] | eauto].
      * subst v.
        assert (Hne : b <> b0) by (intros ->; congruence).
        repeat split; [exact Hin1 | intros [-> | Hrest]; [congruence | contradiction] | eauto].
    + subst v.
      assert (Hne : b <> b0) by (intros ->; congruence).
      repeat split; [exact Hin1 | intros [-> | Hrest]; [congruence | contradiction] | eauto].
Qed.

(** After [hide] no top block of the workspace of the menu has that
    workspace as its own: each one was disposed. *)
Lemma hide_disposes_blocks w b obj :
  In b (panelTopBlocks (store (hide w))) ->
  heap (store (hide w)) !! b = Some obj ->
  workspace obj <> Some PanelWorkspace.
Proof.
  rewrite hide_unfold. cbn zeta. cbn [store on_menu].
  unfold hideButtons at 1 2.
  rewrite !(fold_left_frame _ store) by reflexivity.
  intros Hin Hobj Hws.
  destruct (hideBlocks_disposed _ _ b obj Hin Hobj Hws) as (Hin0 & Hnot & _).
  apply Hnot. exact Hin0.
Qed.

(** C1, at a menu that shows the button of Entry that makes a variable.
    After [hide] the two lists are empty, the block and its hit-region are
    gone and the listeners that [show] recorded are unbound; the mousedown
    listener that [show] bound for Entry is still bound at the root of the
    block. *)
Theorem hide_keeps_entry_listener :
  let w := hide Page.withMakeVariable in
  listenersAt (TRoot 1) "mousedown" Page.withMakeVariable
    = [HBlockMouseDown 1; HEntry createVariable] /\
  listeners_ (menu w) = [] /\ buttons_ (menu w) = [] /\
  panelTopBlocks (store w) = [] /\
  (inCanvas <$> rects (dom w) !! 2%nat) = Some false /\
  listenersAt (TRect 2) "mousedown" w = [] /\
  listenersAt (TRoot 1) "mousedown" w = [HEntry createVariable].
Proof. cbv zeta. repeat apply conj; vm_compute; reflexivity. Qed.

(** ** Creating a block from the menu *)

(** Runs [createBlockFunc_] through its guards and its three checks of
    rendering, for a left click on an enabled, rendered block in rendered
    workspaces.  [w0] is the world after Entry was told of the change. *)
Ltac create_block_path Hleft Hobj Hen Hroot HrP HrM w0 :=
  unfold createBlockFunc_; rewrite Hleft, Hobj, Hen, Hroot;
  unfold domToBlock; rewrite HrP, HrM;
  match goal with
  | |- context [if hasEntry ?env then log ?x ?w else ?w] =>
      set (w0 := if hasEntry env then log x w else w);
      assert (next_id w0 = next_id w)
        by (subst w0; destruct (hasEntry env); reflexivity);
      assert (store w0 = store w)
        by (subst w0; destruct (hasEntry env); reflexivity);
      assert (dom w0 = dom w)
        by (subst w0; destruct (hasEntry env); reflexivity)
  end;
  world_simpl;
  rewrite lookup_alter_eq, lookup_insert_eq;
  cbn [fmap option_fmap option_map]; world_simpl;
  rewrite lookup_insert_eq; world_simpl.

Lemma createBlockFunc_success env origin obj root e w :
  isRightButton e = false ->
  heap (store w) !! origin = Some obj ->
  disabled (shape obj) = false ->
  svgRoot obj = Some root ->
  rendersIn env PanelWorkspace = true ->
  rendersIn env MainWorkspace = true ->
  fst (createBlockFunc_ env origin e w) = Js.Returned /\
  mainTopBlocks (store (snd (createBlockFunc_ env origin e w)))
    = mainTopBlocks (store w) ++ [S (next_id w)].
Proof.
  intros Hleft Hobj Hen Hroot HrP HrM.
  create_block_path Hleft Hobj Hen Hroot HrP HrM w0.
  split; [reflexivity | congruence].
Qed.




(** ** The drag threshold *)

(** The test on integers is the comparison of the Euclidean distance with
    the radius. *)
Lemma beyondRadius_sqrt env dx dy :
  beyondRadius env dx dy = true <->
  (sqrt (IZR (dx * dx + dy * dy)) > IZR (DRAG_RADIUS env))%R.
Proof.
  unfold beyondRadius.
  assert (Hn : (0 <= dx * dx + dy * dy)%Z) by nia.
  destruct (Z.ltb_spec (DRAG_RADIUS env) 0) as [Hneg | Hpos].
  - split; [intros _ | reflexivity].
    apply Rlt_gt. apply Rlt_le_trans with 0%R.
    + now apply IZR_lt.
    + apply sqrt_pos.
  - set (r := DRAG_RADIUS env) in *.
    assert (Hr : (0 <= IZR r)%R) by now apply IZR_le.
    assert (Hsq : sqrt (IZR (r * r)) = IZR r).
    { rewrite mult_IZR. now apply sqrt_square. }
    split.
    + intros Hlt. apply Z.ltb_lt in Hlt.
      apply Rlt_gt. rewrite <- Hsq. apply sqrt_lt_1_alt.
      split; [apply IZR_le; nia | now apply IZR_lt].
    + intros Hgt. apply Z.ltb_lt. apply lt_IZR.
      apply Rgt_lt in Hgt. rewrite <- Hsq in Hgt.
      apply sqrt_lt_0_alt in Hgt. exact Hgt.
Qed.

Lemma onMouseMove_rogue env e w :
  rogueMove e = true ->
  onMouseMove_ env e w = (Js.Returned, log StopPropagation w).
Proof. intros Hr. unfold onMouseMove_. now rewrite Hr. Qed.

(** C2, as the code has it.  While a drag is pending on an enabled,
    rendered block of the menu, a move event that does not bear the
    signature of the rogue events (a mousemove with clientX at most 1,
    clientY 0 and button 0) puts a block on the main workspace if and only
    if the Euclidean distance between its position and that of the
    pointer-down strictly exceeds Blockly.DRAG_RADIUS. *)
Theorem onMouseMove_threshold env e w down origin obj root :
  rogueMove e = false ->
  startDownEvent_ (statics w) = Some down ->
  isRightButton down = false ->
  startBlock_ (statics w) = Some origin ->
  startblockMenu_ (statics w) = Some TheBlockMenu ->
  heap (store w) !! origin = Some obj ->
  disabled (shape obj) = false ->
  svgRoot obj = Some root ->
  rendersIn env PanelWorkspace = true ->
  rendersIn env MainWorkspace = true ->
  createsBlock w (snd (onMouseMove_ env e w)) <->
  (sqrt (IZR ((clientX e - clientX down) * (clientX e - clientX down)
              + (clientY e - clientY down) * (clientY e - clientY down)))
   > IZR (DRAG_RADIUS env))%R.
Proof.
  intros Hrogue Hdown Hleft Hblock Hmenu Hobj Hen Hroot HrP HrM.
  rewrite <- beyondRadius_sqrt.
  unfold onMouseMove_, createsBlock. rewrite Hrogue.
  cbn [statics log]. rewrite Hdown, Hblock, Hmenu.
  destruct (beyondRadius env _ _).
  - destruct (createBlockFunc_success env origin obj root down
                (log RemoveAllRanges w) Hleft Hobj Hen Hroot HrP HrM) as [_ Hmain].
    rewrite Hmain. cbn [store log].
    rewrite length_app. cbn [length]. split; [reflexivity | lia].
  - cbn [snd store log]. split; [lia | discriminate].
Qed.

Lemma onMouseMove_threshold_witness :
  createsBlock Page.pressed (snd (onMouseMove_ Page.env (Page.move 104 103) Page.pressed)) <->
  (sqrt (IZR ((104 - 100) * (104 - 100) + (103 - 100) * (103 - 100))) > IZR 5)%R.
Proof.
  apply (onMouseMove_threshold Page.env (Page.move 104 103) Page.pressed
           (Page.click 100 100) 1
           {| type := "move"; workspace := Some PanelWorkspace;
              shape := Page.statement; svgRoot := Some 1%nat;
              xy := (Js.Num (0 + 10), Js.Num (0 + (10 + 7)));
              isInFlyout := true; isInBlockMenu := true; commentText := None;
              blockMenuRect_ := Some 2%nat; stalkerBlock := None;
              startDragXY := None |} 1%nat).
  - reflexivity.
  - vm_compute. reflexivity.
  - reflexivity.
  - vm_compute. reflexivity.
  - vm_compute. reflexivity.
  - vm_compute. reflexivity.
  - reflexivity.
  - reflexivity.
  - reflexivity.
  - reflexivity.
Defined.

(** C2, as the specification has it, fails on a move event to (1, 0) while
    the drag that began at (100, 100) is pending: the distance exceeds the
    radius of 5 and no block is created. *)
Lemma rogue_move_creates_nothing :
  let w := deliver Page.env TDocument "mousemove" (Page.move 1 0) Page.pressed in
  startDownEvent_ (statics Page.pressed) = Some (Page.click 100 100) /\
  (sqrt (IZR ((1 - 100) * (1 - 100) + (0 - 100) * (0 - 100)))
   > IZR (DRAG_RADIUS Page.env))%R /\
  ~ createsBlock Page.pressed w.
Proof.
  cbv zeta. repeat apply conj.
  - vm_compute. reflexivity.
  - apply (beyondRadius_sqrt Page.env (1 - 100) (0 - 100)). reflexivity.
  - unfold createsBlock.
    replace (mainTopBlocks (store (deliver Page.env TDocument "mousemove"
               (Page.move 1 0) Page.pressed))) with (@nil nat)
      by (vm_compute; reflexivity).
    replace (mainTopBlocks (store Page.pressed)) with (@nil nat)
      by (vm_compute; reflexivity).
    cbn. lia.
Qed.

(** ** The layout loop of [show] *)

Lemma layoutBlock_spec env gaps i c w block obj :
  let r := next_id w in
  let w' := snd (layoutBlock env gaps i c w block obj) in
  fst (layoutBlock env gaps i c w block obj)
    = leadOut (shape obj) (default 0 (gaps !! i)) (snd (leadIn (shape obj) c)) /\
  (S r < next_id w')%nat /\
  heap (store w') = alter (placeBlock env (leadIn (shape obj) c) r) block (heap (store w)) /\
  panelTopBlocks (store w') = panelTopBlocks (store w) /\
  mainTopBlocks (store w') = mainTopBlocks (store w) /\
  rects (dom w') = <[r := newRect]> (rects (dom w)) /\
  buttons_ (menu w') = Js.array_set (buttons_ (menu w)) i r /\
  (exists hs, listeners_ (menu w') = listeners_ (menu w) ++ hs /\
              Forall (fun h => r < h < next_id w')%nat hs) /\
  reflowWrapper_ (menu w') = reflowWrapper_ (menu w) /\
  width_ (menu w') = width_ (menu w).
Proof.
  unfold layoutBlock.
  destruct (leadIn (shape obj) c) as [x y] eqn:Hlead.
  unfold createSvgRect, insertBefore, bindEvent_.
  assert (Hheap : forall m : gmap nat Block,
    alter (block_blockMenuRect_ (Some (next_id w))) block
      (alter (block_moved (Js.Num x) (Js.Num y)) block
         (alter (if hasComment env then block_commentText None else fun b => b) block
            (alter (block_isInFlyout true) block m)))
    = alter (placeBlock env (x, y) (next_id w)) block m).
  { intros m. rewrite !alter_alter_eq. apply alter_ext. intros b _. unfold placeBlock. destruct (hasComment env); reflexivity. }
  assert (Hrect : forall m : gmap nat Rect,
    alter (rect_inCanvas true) (next_id w)
      (<[next_id w := {| rwidth := None; rheight := None; rx := None;
                         ry := None; inCanvas := false |}]> m)
    = <[next_id w := newRect]> m).
  { intros m. rewrite alter_insert_eq. reflexivity. }
  destruct (hasComment env) eqn:Hc, (addable (shape obj)),
    (if hasEntry env then entryAction (type obj) else None);
    world_simpl; cbn [menu on_menu buttons_ listeners_ reflowWrapper_ width_
                      with_buttons_ with_listeners_ insertBefore];
    (repeat apply conj; try reflexivity; try lia;
     try (rewrite <- Hheap; reflexivity);
     try (rewrite <- Hheap, (alter_id (fun b : Block => b)) by (intros; reflexivity);
          reflexivity);
     try (rewrite <- Hrect; reflexivity);
     try (eexists; split;
          [ rewrite <- ?app_assoc; reflexivity
          | repeat constructor; cbn; lia ])).
Qed.

Lemma array_set_push (rs : list nat) (r : nat) :
  Js.array_set (map Some rs) (length rs) r = map Some (rs ++ [r]).
Proof.
  unfold Js.array_set. rewrite length_map.
  destruct (decide (length rs < length rs)%nat) as [Hlt | _]; [lia |].
  rewrite Nat.sub_diag, map_app. reflexivity.
Qed.

Lemma layoutBlock_keeps_blocks env gaps i c w block obj b :
  is_Some (heap (store (snd (layoutBlock env gaps i c w block obj))) !! b)
  <-> is_Some (heap (store w) !! b).
Proof.
  destruct (layoutBlock_spec env gaps i c w block obj)
    as (_ & _ & Hheap & _).
  rewrite Hheap. apply lookup_alter_is_Some.
Qed.

(** The lists of the menu after the layout loop: one new hit-region per
    block, and listeners bound during the loop. *)
Lemma layoutBlocks_menu env blocks :
  forall gaps i c w rs,
    (forall b, In b blocks -> is_Some (heap (store w) !! b)) ->
    buttons_ (menu w) = map Some rs ->
    length rs = i ->
    let w' := layoutBlocks env blocks gaps i c w in
    (next_id w <= next_id w')%nat /\
    exists rs' hs,
      buttons_ (menu w') = map Some (rs ++ rs') /\
      length rs' = length blocks /\
      listeners_ (menu w') = listeners_ (menu w) ++ hs /\
      Forall (fun r => next_id w <= r < next_id w')%nat rs' /\
      NoDup rs' /\
      Forall (fun h => next_id w <= h < next_id w')%nat hs.
Proof.
  induction blocks as [| block rest IH]; intros gaps i c w rs Hin Hb Hlen; cbn zeta.
  - cbn. split; [lia |]. exists [], []. rewrite !app_nil_r.
    repeat apply conj; auto; constructor.
  - cbn [layoutBlocks].
    destruct (Hin block (or_introl eq_refl)) as [obj Hobj]. rewrite Hobj.
    destruct (layoutBlock_spec env gaps i c w block obj)
      as (Hc & Hid & Hheap & _ & _ & _ & Hbtn & (hs1 & Hls & Hhs1) & _).
    destruct (layoutBlock env gaps i c w block obj) as [c1 w1] eqn:Hstep.
    cbn [fst snd] in *.
    assert (Hin1 : forall b, In b rest -> is_Some (heap (store w1) !! b)).
    { intros b Hb'. rewrite Hheap. apply lookup_alter_is_Some. apply Hin. now right. }
    assert (Hb1 : buttons_ (menu w1) = map Some (rs ++ [next_id w])).
    { rewrite Hbtn, Hb, <- Hlen. apply array_set_push. }
    assert (Hlen1 : length (rs ++ [next_id w]) = S i).
    { rewrite length_app. cbn. lia. }
    destruct (IH gaps (S i) c1 w1 (rs ++ [next_id w]) Hin1 Hb1 Hlen1)
      as (Hle & rs' & hs & Hbtn' & Hlen' & Hls' & Hrs' & Hnd & Hhs).
    split; [lia |].
    exists (next_id w :: rs'), (hs1 ++ hs).
    repeat apply conj.
    + rewrite Hbtn', <- app_assoc. reflexivity.
    + cbn. now rewrite Hlen'.
    + rewrite Hls', Hls, <- app_assoc. reflexivity.
    + constructor; [lia |].
      eapply Forall_impl; [exact Hrs' |]. cbn. intros r Hr. lia.
    + constructor; [| exact Hnd].
      intros Hmem. apply list_elem_of_In in Hmem.
      rewrite Forall_forall in Hrs'.
      specialize (Hrs' _ ltac:(apply list_elem_of_In; exact Hmem)). lia.
    + apply Forall_app. split.
      * eapply Forall_impl; [exact Hhs1 |]. cbn. intros h Hh. lia.
      * eapply Forall_impl; [exact Hhs |]. cbn. intros h Hh. lia.
Qed.

(** ** The blocks that [show] builds *)

Lemma createBlocks_built env nodes :
  forall margin blocks gaps w,
    built (map (fun xml => (xml, margin)) (List.filter isBlockTag nodes))
          blocks gaps w (createBlocks env nodes margin blocks gaps w).
Proof.
  induction nodes as [| xml rest IH]; intros margin blocks gaps w.
  - cbn. unfold built. cbn. rewrite !app_nil_r, Nat.add_0_r.
    repeat apply conj; auto. intros k it Hk. discriminate.
  - cbn [createBlocks List.filter]. destruct (isBlockTag xml) eqn:Htag.
    + unfold domToBlock. world_simpl.
      match goal with |- built _ _ _ _ (createBlocks _ _ _ _ _ ?w1) =>
        specialize (IH margin (blocks ++ [next_id w]) (gaps ++ [margin]) w1);
        set (v := w1) in *
      end.
      unfold built in *. cbn [map length] in *.
      destruct IH as (Hb & Hg & Hn & Hm & Hd & Hold & Hnew).
      assert (Hv : next_id v = S (next_id w)) by reflexivity.
      rewrite Hv in *.
      repeat apply conj.
      * rewrite Hb, <- app_assoc. reflexivity.
      * rewrite Hg, <- app_assoc. reflexivity.
      * rewrite Hn. lia.
      * rewrite Hm. reflexivity.
      * rewrite Hd. reflexivity.
      * intros b Hlt. rewrite Hold by lia. subst v. world_simpl.
        rewrite !lookup_alter_ne, lookup_insert_ne by lia. reflexivity.
      * intros [| k] it Hk.
        -- cbn in Hk. inversion Hk; subst it. clear Hk.
           rewrite Nat.add_0_r, Hold by lia. subst v. world_simpl.
           rewrite !lookup_alter_eq, lookup_insert_eq. cbn.
           eexists. split; [reflexivity |]. split; reflexivity.
        -- cbn in Hk. destruct (Hnew k it Hk) as (obj & Ho & Hs).
           exists obj. split; [| exact Hs].
           rewrite <- Ho. f_equal. lia.
    + apply IH.
Qed.

Lemma categoryBlocks_built env items :
  forall blocks gaps w,
    built items blocks gaps w (categoryBlocks env items blocks gaps w).
Proof.
  induction items as [| [xml gap] rest IH]; intros blocks gaps w.
  - cbn. unfold built. cbn. rewrite !app_nil_r, Nat.add_0_r.
    repeat apply conj; auto. intros k it Hk. discriminate.
  - cbn [categoryBlocks]. unfold domToBlock. world_simpl.
    match goal with |- built _ _ _ _ (categoryBlocks _ _ _ _ ?w1) =>
      specialize (IH (blocks ++ [next_id w]) (gaps ++ [gap]) w1);
      set (v := w1) in *
    end.
    unfold built in *. cbn [map length] in *.
    destruct IH as (Hb & Hg & Hn & Hm & Hd & Hold & Hnew).
    assert (Hv : next_id v = S (next_id w)) by reflexivity.
    rewrite Hv in *.
    repeat apply conj.
    + rewrite Hb, <- app_assoc. reflexivity.
    + rewrite Hg, <- app_assoc. reflexivity.
    + rewrite Hn. lia.
    + rewrite Hm. reflexivity.
    + rewrite Hd. reflexivity.
    + intros b Hlt. rewrite Hold by lia. subst v. world_simpl.
      rewrite lookup_insert_ne by lia. reflexivity.
    + intros [| k] it Hk.
      * cbn in Hk. inversion Hk; subst it. clear Hk.
        rewrite Nat.add_0_r, Hold by lia. subst v. world_simpl.
        rewrite lookup_insert_eq.
        eexists. split; [reflexivity |]. split; reflexivity.
      * cbn in Hk. destruct (Hnew k it Hk) as (obj & Ho & Hs).
        exists obj. split; [| exact Hs].
        rewrite <- Ho. f_equal. lia.
Qed.

Lemma placeBlock_shape env p r b : shape (placeBlock env p r b) = shape b.
Proof. unfold placeBlock. destruct (hasComment env); reflexivity. Qed.

Lemma itemsOf_ext w w' blocks :
  forall gaps i,
    (forall b, In b blocks ->
       shape <$> heap (store w') !! b = shape <$> heap (store w) !! b) ->
    itemsOf w' blocks gaps i = itemsOf w blocks gaps i.
Proof.
  induction blocks as [| block rest IH]; intros gaps i Hsh; [reflexivity |].
  cbn [itemsOf].
  pose proof (Hsh block (or_introl eq_refl)) as Hb.
  rewrite (IH gaps (S i)) by (intros b Hin; apply Hsh; now right).
  destruct (heap (store w') !! block) as [o' |], (heap (store w) !! block) as [o |];
    cbn in Hb; try discriminate; [| reflexivity].
  inversion Hb as [Hs]. now rewrite Hs.
Qed.

(** The objects of the blocks after the layout loop: each block is placed
    where [positions] has it, over a hit-region of its own. *)
Lemma layoutBlocks_heap env blocks :
  forall gaps i c w rs,
    NoDup blocks ->
    (forall b, In b blocks -> is_Some (heap (store w) !! b)) ->
    buttons_ (menu w) = map Some rs ->
    length rs = i ->
    let w' := layoutBlocks env blocks gaps i c w in
    (forall b, ~ In b blocks -> heap (store w') !! b = heap (store w) !! b) /\
    (forall k b obj,
        blocks !! k = Some b -> heap (store w) !! b = Some obj ->
        exists p r,
          positions (itemsOf w blocks gaps i) c !! k = Some p /\
          heap (store w') !! b = Some (placeBlock env p r obj) /\
          buttons_ (menu w') !! (i + k)%nat = Some (Some r)).
Proof.
  induction blocks as [| block rest IH]; intros gaps i c w rs Hnd Hin Hb Hlen; cbn zeta.
  - cbn. split; [reflexivity |]. intros k b obj Hk. discriminate.
  - cbn [layoutBlocks itemsOf].
    destruct (Hin block (or_introl eq_refl)) as [obj0 Hobj0]. rewrite Hobj0.
    destruct (layoutBlock_spec env gaps i c w block obj0)
      as (Hc & Hid & Hheap & _ & _ & _ & Hbtn & _).
    destruct (layoutBlock env gaps i c w block obj0) as [c1 w1] eqn:Hstep.
    cbn [fst snd] in *.
    apply NoDup_cons in Hnd. destruct Hnd as [Hnotin Hnd].
    assert (Hin1 : forall b, In b rest -> is_Some (heap (store w1) !! b)).
    { intros b Hb'. rewrite Hheap. apply lookup_alter_is_Some. apply Hin. now right. }
    assert (Hb1 : buttons_ (menu w1) = map Some (rs ++ [next_id w])).
    { rewrite Hbtn, Hb, <- Hlen. apply array_set_push. }
    assert (Hlen1 : length (rs ++ [next_id w]) = S i).
    { rewrite length_app. cbn. lia. }
    destruct (IH gaps (S i) c1 w1 (rs ++ [next_id w]) Hnd Hin1 Hb1 Hlen1)
      as (Hframe & Hplaced).
    destruct (layoutBlocks_menu env rest gaps (S i) c1 w1 (rs ++ [next_id w])
                Hin1 Hb1 Hlen1) as (_ & rs' & hs & Hbtn' & _).
    assert (Hitems : itemsOf w1 rest gaps (S i) = itemsOf w rest gaps (S i)).
    { apply itemsOf_ext. intros b _. rewrite Hheap.
      destruct (decide (block = b)) as [-> | Hne].
      - rewrite lookup_alter_eq.
        destruct (heap (store w) !! b); cbn [fmap option_fmap option_map];
          [| reflexivity].
        now rewrite placeBlock_shape.
      - now rewrite lookup_alter_ne. }
    split.
    + intros b Hnb. rewrite Hframe by (intros H; apply Hnb; now right).
      rewrite Hheap, lookup_alter_ne; [reflexivity |].
      intros ->. apply Hnb. now left.
    + intros [| k] b obj Hk Hobj.
      * cbn in Hk. inversion Hk; subst b. clear Hk.
        assert (obj = obj0) by congruence. subst obj.
        exists (leadIn (shape obj0) c), (next_id w).
        repeat apply conj.
        -- cbn. destruct (leadIn (shape obj0) c). reflexivity.
        -- rewrite Hframe by (rewrite <- list_elem_of_In; exact Hnotin).
           rewrite Hheap, lookup_alter_eq, Hobj0. reflexivity.
        -- rewrite Hbtn', Nat.add_0_r, <- Hlen, <- app_assoc, map_app.
           rewrite lookup_app_r by (rewrite length_map; lia).
           rewrite length_map, Nat.sub_diag. reflexivity.
      * cbn in Hk.
        assert (Hne : block <> b).
        { intros ->. apply Hnotin. eapply list_elem_of_lookup_2. exact Hk. }
        assert (Hobj1 : heap (store w1) !! b = Some obj).
        { rewrite Hheap, lookup_alter_ne by exact Hne. exact Hobj. }
        destruct (Hplaced k b obj Hk Hobj1) as (p & r & Hp & Hh & Hbt).
        exists p, r. repeat apply conj.
        -- cbn [positions]. rewrite Hitems in Hp. rewrite Hc in Hp.
           destruct (leadIn (shape obj0) c) as [x y] eqn:Hl. cbn [snd] in Hp.
           cbn. exact Hp.
        -- exact Hh.
        -- rewrite <- Hbt. f_equal. lia.
Qed.

(** ** [reflow] *)

Lemma reflowBlock_spec env W w b obj :
  heap (store w) !! b = Some obj ->
  let w' := reflowBlock env W (Js.toNumber CORNER_RADIUS) w b in
  heap (store w') = (if RTL env
                     then alter (fun _ => reflowed env W obj) b (heap (store w))
                     else heap (store w)) /\
  rects (dom w') = match blockMenuRect_ obj with
                   | Some r => alter (reflowedRect env W obj) r (rects (dom w))
                   | None => rects (dom w)
                   end /\
  menu w' = menu w /\ next_id w' = next_id w /\
  panelTopBlocks (store w') = panelTopBlocks (store w) /\
  mainTopBlocks (store w') = mainTopBlocks (store w) /\
  bindings (dom w') = bindings (dom w).
Proof.
  intros Hobj. unfold reflowBlock, reflowedRect, reflowed. rewrite Hobj.
  destruct (RTL env); destruct (blockMenuRect_ obj); world_simpl;
    repeat apply conj; try reflexivity;
    apply alter_ext; intros o Ho; congruence.
Qed.

Lemma reflowBlock_missing env W m w b :
  heap (store w) !! b = None -> reflowBlock env W m w b = w.
Proof. intros Hb. unfold reflowBlock. now rewrite Hb. Qed.

Lemma reflowBlock_frame {C} (g : World -> C) env W w b :
  (forall w f, g (on_store (with_heap f) w) = g w) ->
  (forall w f, g (on_dom (with_rects f) w) = g w) ->
  g (reflowBlock env W (Js.toNumber CORNER_RADIUS) w b) = g w.
Proof.
  intros Hh Hr. unfold reflowBlock.
  destruct (heap (store w) !! b) as [obj |]; [| reflexivity].
  destruct (RTL env); destruct (blockMenuRect_ obj);
    unfold moveBy, update_block; now rewrite ?Hr, ?Hh.
Qed.

Lemma reflow_frame {C} (g : World -> C) env w :
  (forall w f, g (on_store (with_heap f) w) = g w) ->
  (forall w f, g (on_dom (with_rects f) w) = g w) ->
  (forall w v, g (on_menu (with_width_ v) w) = g w) ->
  (forall w e, g (log e w) = g w) ->
  g (reflow env w) = g w.
Proof.
  intros Hh Hr Hw Hl. unfold reflow.
  destruct (Js.neq (width_ (menu w)) (reflowWidth env w)); [| reflexivity].
  rewrite Hl, Hw.
  apply (fold_left_frame (reflowBlock env (reflowWidth env w) (Js.toNumber CORNER_RADIUS)) g).
  intros a b. now apply reflowBlock_frame.
Qed.

Lemma keepsRows_refl env w : keepsRows env w w.
Proof.
  intros b. destruct (heap (store w) !! b); [| exact I].
  repeat split; try reflexivity. apply same_refl.
Qed.

Lemma keepsRows_trans env w1 w2 w3 :
  keepsRows env w1 w2 -> keepsRows env w2 w3 -> keepsRows env w1 w3.
Proof.
  intros H12 H23 b. specialize (H12 b). specialize (H23 b).
  destruct (heap (store w1) !! b), (heap (store w2) !! b), (heap (store w3) !! b);
    try contradiction; try exact I.
  destruct H12 as (Hs & Hy & Hr & Hx), H23 as (Hs' & Hy' & Hr' & Hx').
  repeat split.
  - congruence.
  - eapply same_trans; eassumption.
  - congruence.
  - intros Hrtl. rewrite Hx', Hx by exact Hrtl. reflexivity.
Qed.

Lemma reflowBlock_keepsRows env W w b :
  keepsRows env w (reflowBlock env W (Js.toNumber CORNER_RADIUS) w b).
Proof.
  destruct (heap (store w) !! b) as [obj |] eqn:Hobj.
  - destruct (reflowBlock_spec env W w b obj Hobj) as (Hheap & _).
    intros b'. cbn zeta in Hheap. rewrite Hheap.
    unfold reflowed. destruct (RTL env) eqn:Hrtl.
    + destruct (decide (b = b')) as [<- | Hne].
      * rewrite lookup_alter_eq, Hobj. cbn [fmap option_fmap option_map].
        cbn [shape xy blockMenuRect_ block_moved snd].
        repeat split; [apply add_zero | discriminate].
      * rewrite lookup_alter_ne by exact Hne.
        destruct (heap (store w) !! b'); [| exact I].
        repeat split; try reflexivity. apply same_refl.
    + destruct (heap (store w) !! b'); [| exact I].
      repeat split; try reflexivity. apply same_refl.
  - rewrite reflowBlock_missing by exact Hobj. apply keepsRows_refl.
Qed.

Lemma reflow_keepsRows env w : keepsRows env w (reflow env w).
Proof.
  unfold reflow.
  destruct (Js.neq (width_ (menu w)) (reflowWidth env w));
    [| apply keepsRows_refl].
  assert (Hfold : forall l a, keepsRows env a
            (fold_left (reflowBlock env (reflowWidth env w) (Js.toNumber CORNER_RADIUS)) l a)).
  { induction l as [| b l IH]; intros a; cbn; [apply keepsRows_refl |].
    eapply keepsRows_trans; [apply reflowBlock_keepsRows | apply IH]. }
  intros b. specialize (Hfold (getTopBlocks PanelWorkspace w) w b). exact Hfold.
Qed.

(** The second loop of [reflow]: each block is right-aligned if need be,
    and its hit-region takes its geometry. *)
Lemma reflowLoop env W blocks :
  forall w,
    NoDup blocks ->
    rectsDistinct w blocks ->
    let w' := fold_left (reflowBlock env W (Js.toNumber CORNER_RADIUS)) blocks w in
    (forall b, ~ In b blocks -> heap (store w') !! b = heap (store w) !! b) /\
    (forall r,
        (forall b obj, In b blocks -> heap (store w) !! b = Some obj ->
                       blockMenuRect_ obj <> Some r) ->
        rects (dom w') !! r = rects (dom w) !! r) /\
    (forall b obj, In b blocks -> heap (store w) !! b = Some obj ->
        heap (store w') !! b = Some (reflowed env W obj) /\
        forall r, blockMenuRect_ obj = Some r ->
          rects (dom w') !! r = reflowedRect env W obj <$> rects (dom w) !! r).
Proof.
  induction blocks as [| b0 rest IH]; intros w Hnd Hdist; cbn zeta.
  - cbn. repeat split; try reflexivity; intros; contradiction.
  - cbn [fold_left].
    apply NoDup_cons in Hnd. destruct Hnd as [Hnotin Hnd].
    rewrite list_elem_of_In in Hnotin.
    set (w1 := reflowBlock env W (Js.toNumber CORNER_RADIUS) w b0).
    assert (Hheap1 : forall b, b <> b0 -> heap (store w1) !! b = heap (store w) !! b).
    { intros b Hne. subst w1.
      destruct (heap (store w) !! b0) as [obj0 |] eqn:Hobj0.
      - destruct (reflowBlock_spec env W w b0 obj0 Hobj0) as (Hh & _).
        cbn zeta in Hh. rewrite Hh. destruct (RTL env); [| reflexivity].
        now rewrite lookup_alter_ne by congruence.
      - now rewrite reflowBlock_missing. }
    assert (Hrect1 : forall r,
               (forall obj0, heap (store w) !! b0 = Some obj0 ->
                             blockMenuRect_ obj0 <> Some r) ->
               rects (dom w1) !! r = rects (dom w) !! r).
    { intros r Hr. subst w1.
      destruct (heap (store w) !! b0) as [obj0 |] eqn:Hobj0.
      - destruct (reflowBlock_spec env W w b0 obj0 Hobj0) as (_ & Hrs & _).
        cbn zeta in Hrs. rewrite Hrs.
        specialize (Hr obj0 eq_refl).
        destruct (blockMenuRect_ obj0) as [r0 |]; [| reflexivity].
        now rewrite lookup_alter_ne by congruence.
      - now rewrite reflowBlock_missing. }
    assert (Hdist1 : rectsDistinct w1 rest).
    { intros b1 b2 o1 o2 r H1 H2 Ho1 Ho2 Hr1 Hr2.
      rewrite Hheap1 in Ho1 by (intros ->; contradiction).
      rewrite Hheap1 in Ho2 by (intros ->; contradiction).
      apply (Hdist b1 b2 o1 o2 r); auto; now right. }
    destruct (IH w1 Hnd Hdist1) as (Hframe & Hrframe & Hdone).
    repeat apply conj.
    + intros b Hb. rewrite Hframe by (intros H; apply Hb; now right).
      apply Hheap1. intros ->. apply Hb. now left.
    + intros r Hr. rewrite Hrframe.
      * apply Hrect1. intros obj0 Hobj0. apply (Hr b0 obj0); [now left | exact Hobj0].
      * intros b obj Hb Hobj.
        rewrite Hheap1 in Hobj by (intros ->; contradiction).
        apply (Hr b obj); [now right | exact Hobj].
    + intros b obj [<- | Hb] Hobj.
      * destruct (reflowBlock_spec env W w b0 obj Hobj) as (Hh & Hrs & _).
        cbn zeta in Hh, Hrs. fold w1 in Hh, Hrs.
        split.
        -- rewrite Hframe by exact Hnotin. rewrite Hh.
           destruct (RTL env) eqn:Hrtl.
           ++ rewrite lookup_alter_eq, Hobj. reflexivity.
           ++ unfold reflowed. rewrite Hrtl. exact Hobj.
        -- intros r Hr. rewrite Hrframe.
           ++ rewrite Hrs, Hr. apply lookup_alter_eq.
           ++ intros b obj' Hb Hobj' Hr'.
              rewrite Hheap1 in Hobj' by (intros ->; contradiction).
              assert (b0 = b).
              { apply (Hdist b0 b obj obj' r); auto; [now left | now right]. }
              subst b. contradiction.
      * assert (Hne : b <> b0) by (intros ->; contradiction).
        assert (Hobj1 : heap (store w1) !! b = Some obj).
        { rewrite Hheap1 by exact Hne. exact Hobj. }
        destruct (Hdone b obj Hb Hobj1) as (Hb' & Hr').
        split; [exact Hb' |].
        intros r Hr. rewrite (Hr' r Hr). f_equal.
        apply Hrect1. intros obj0 Hobj0 Hr0.
        apply Hne. apply (Hdist b b0 obj obj0 r); auto; [now right | now left].
Qed.

(** The first loop of [reflow] finds the greatest width, or 0. *)
Lemma maxWidth_spec w blocks :
  forall acc,
    let m := fold_left (fun acc block => Js.max acc (widthOf w block)) blocks acc in
    acc <= m /\
    (forall b, In b blocks -> widthOf w b <= m) /\
    (m = acc \/ exists b, In b blocks /\ m = widthOf w b).
Proof.
  induction blocks as [| b rest IH]; intros acc; cbn zeta.
  - cbn. repeat split; [apply Qle_refl | intros b [] | now left].
  - cbn [fold_left].
    destruct (IH (Js.max acc (widthOf w b))) as (Hle & Hall & Hwho).
    assert (Hmax : acc <= Js.max acc (widthOf w b) /\
                   widthOf w b <= Js.max acc (widthOf w b) /\
                   (Js.max acc (widthOf w b) = acc \/
                    Js.max acc (widthOf w b) = widthOf w b)).
    { unfold Js.max. destruct (Qle_bool acc (widthOf w b)) eqn:Hcmp.
      - apply Qle_bool_iff in Hcmp. repeat split; [exact Hcmp | apply Qle_refl | now right].
      - assert (~ acc <= widthOf w b) as Hn.
        { intros H. apply Qle_bool_iff in H. congruence. }
        apply Qnot_le_lt in Hn.
        repeat split; [apply Qle_refl | now apply Qlt_le_weak | now left]. }
    destruct Hmax as (H1 & H2 & H3).
    repeat split.
    + eapply Qle_trans; eassumption.
    + intros b' [<- | Hin]; [eapply Qle_trans; eassumption | now apply Hall].
    + destruct Hwho as [Heq | (b' & Hin & Heq)].
      * rewrite Heq. destruct H3 as [-> | ->]; [now left |].
        right. exists b. split; [now left | reflexivity].
      * right. exists b'. split; [now right | exact Heq].
Qed.

(** ** [show] as a whole *)

Lemma show_unfold env xmlList w :
  show env xmlList w =
  let res := showBuild env xmlList (on_dom (with_display (Some "block"%string)) (hide w)) in
  let w4 := layoutBlocks env (fst (fst res)) (snd (fst res)) 0 10 (snd res) in
  let w6 := reflow env (on_menu (with_width_ (Some (Js.Num 0))) w4) in
  log FireChange
    (on_menu (with_reflowWrapper_ (Some (next_id w6)))
       (snd (bindEvent_ TCanvas "blocklyWorkspaceChange" HReflow (log FireResize w6)))).
Proof.
  unfold show, showBuild.
  destruct xmlList as [| | nodes]; cbn zeta.
  - destruct (categoryBlocks env (variablesCategory env) [] [] _) as [[blocks gaps] w3].
    reflexivity.
  - destruct (categoryBlocks env (proceduresCategory env) [] [] _) as [[blocks gaps] w3].
    reflexivity.
  - destruct (createBlocks env nodes 0 [] [] _) as [[blocks gaps] w3].
    reflexivity.
Qed.

(** [show] is its layout loop, the reset of the width, [reflow], and the
    binding of [reflow] to the changes of the workspace. *)
Lemma show_after_layout env xmlList w :
  show env xmlList w =
  let w6 := reflow env (on_menu (with_width_ (Some (Js.Num 0)))
                                (showLaidOut env xmlList w)) in
  log FireChange
    (on_menu (with_reflowWrapper_ (Some (next_id w6)))
       (snd (bindEvent_ TCanvas "blocklyWorkspaceChange" HReflow (log FireResize w6)))).
Proof. rewrite show_unfold. reflexivity. Qed.

Lemma showBuild_built env xmlList w :
  built (shownItems env xmlList) [] [] w (showBuild env xmlList w).
Proof.
  destruct xmlList; cbn [showBuild shownItems];
    [apply categoryBlocks_built | apply categoryBlocks_built | apply createBlocks_built].
Qed.

Lemma shownShapes_items env xmlList :
  shownShapes env xmlList
  = map (fun it => (xshape (fst it), snd it)) (shownItems env xmlList).
Proof.
  destruct xmlList; cbn [shownShapes shownItems]; try reflexivity.
  rewrite map_map. reflexivity.
Qed.

Lemma itemsOf_built w items :
  forall n i gaps,
    (forall k it, items !! k = Some it ->
       exists obj, heap (store w) !! (n + k)%nat = Some obj /\
                   shape obj = xshape (fst it)) ->
    (forall k it, items !! k = Some it -> gaps !! (i + k)%nat = Some (snd it)) ->
    itemsOf w (seq n (length items)) gaps i
    = map (fun it => (xshape (fst it), snd it)) items.
Proof.
  induction items as [| it rest IH]; intros n i gaps Hheap Hgaps; [reflexivity |].
  cbn [length seq itemsOf map].
  destruct (Hheap 0%nat it eq_refl) as (obj & Hobj & Hshape).
  rewrite Nat.add_0_r in Hobj. rewrite Hobj.
  pose proof (Hgaps 0%nat it eq_refl) as Hgap. rewrite Nat.add_0_r in Hgap.
  rewrite Hgap, Hshape. cbn [default]. f_equal.
  apply IH.
  - intros k it' Hk. destruct (Hheap (S k) it' Hk) as (obj' & Hobj' & Hs').
    exists obj'. split; [| exact Hs']. rewrite <- Hobj'. f_equal. lia.
  - intros k it' Hk. rewrite <- (Hgaps (S k) it' Hk). f_equal. lia.
Qed.

(** What [show] leaves: one new hit-region per block laid out, in
    [buttons_]; in [listeners_], listeners bound during the call only; and
    each block where [positions] has it, which is where the layout loop
    put it, but for what [reflow] does to the columns of a right-to-left
    layout. *)
Lemma show_blocks_placed env xmlList w :
  let w' := show env xmlList w in
  let n := next_id w in
  let items := shownShapes env xmlList in
  exists rs,
    buttons_ (menu w') = map Some rs /\
    length rs = length items /\
    NoDup rs /\
    Forall (fun r => n <= r < next_id w')%nat rs /\
    Forall (fun h => n <= h < next_id w')%nat (listeners_ (menu w')) /\
    forall k it, items !! k = Some it ->
      exists obj p r placed,
        (heap (store w') !! (n + k)%nat = Some obj /\
         positions items 10 !! k = Some p /\
         shape obj = fst it /\
         Js.same (snd (xy obj)) (Js.Num (snd p)) /\
         (RTL env = false -> Js.same (fst (xy obj)) (Js.Num (fst p))) /\
         blockMenuRect_ obj = Some r /\
         rs !! k = Some r) /\
        heap (store (showLaidOut env xmlList w)) !! (n + k)%nat = Some placed /\
        xy placed = (Js.Num (0 + fst p), Js.Num (0 + snd p)) /\
        Js.same (snd (xy obj)) (snd (xy placed)) /\
        (RTL env = false -> fst (xy obj) = fst (xy placed)).
Proof.
  cbn zeta. rewrite show_unfold. unfold showLaidOut. cbn zeta.
  set (w2 := on_dom (with_display (Some "block"%string)) (hide w)).
  assert (Hn2 : next_id w2 = next_id w) by apply hide_next_id.
  assert (Hb2 : buttons_ (menu w2) = []) by apply hide_buttons_.
  assert (Hl2 : listeners_ (menu w2) = []) by apply hide_listeners_.
  pose proof (showBuild_built env xmlList w2) as Hbuilt.
  destruct (showBuild env xmlList w2) as [[blocks gaps] w3].
  unfold built in Hbuilt. cbn [fst snd] in *.
  destruct Hbuilt as (Hblocks & Hgaps & Hn3 & Hm3 & _ & _ & Hnew).
  rewrite Hn2 in *. cbn [app] in Hblocks, Hgaps.
  assert (Hin3 : forall b, In b blocks -> is_Some (heap (store w3) !! b)).
  { intros b Hb. rewrite Hblocks in Hb. apply in_seq in Hb.
    destruct (lookup_lt_is_Some_2 (shownItems env xmlList) (b - next_id w)%nat ltac:(lia)) as [it Hit].
    destruct (Hnew _ it Hit) as (obj & Hobj & _).
    replace (next_id w + (b - next_id w))%nat with b in Hobj by lia. eauto. }
  assert (Hb3 : buttons_ (menu w3) = map Some []) by (rewrite Hm3; exact Hb2).
  assert (Hnd : NoDup blocks) by (rewrite Hblocks; apply NoDup_seq).
  destruct (layoutBlocks_menu env blocks gaps 0 10 w3 [] Hin3 Hb3 eq_refl)
    as (Hle & rs & hs & Hbtn & Hlen & Hls & Hrs & Hndrs & Hhs).
  destruct (layoutBlocks_heap env blocks gaps 0 10 w3 [] Hnd Hin3 Hb3 eq_refl)
    as (_ & Hplaced).
  assert (Hitems : itemsOf w3 blocks gaps 0 = shownShapes env xmlList).
  { rewrite shownShapes_items, Hblocks, Hgaps. apply itemsOf_built.
    - intros k it Hk. destruct (Hnew k it Hk) as (obj & Hobj & Hs & _). eauto.
    - intros k it Hk. cbn [Nat.add]. rewrite list_lookup_fmap, Hk. reflexivity. }
  set (w4 := layoutBlocks env blocks gaps 0 10 w3) in *.
  set (w5 := on_menu (with_width_ (Some (Js.Num 0))) w4).
  pose proof (reflow_keepsRows env w5) as Hrows.
  assert (Hm6 : buttons_ (menu (reflow env w5)) = buttons_ (menu w4)
                /\ listeners_ (menu (reflow env w5)) = listeners_ (menu w4)
                /\ next_id (reflow env w5) = next_id w4).
  { repeat split.
    - now rewrite (reflow_frame (fun w => buttons_ (menu w))).
    - now rewrite (reflow_frame (fun w => listeners_ (menu w))).
    - now rewrite (reflow_frame next_id). }
  destruct Hm6 as (Hb6 & Hl6 & Hn6).
  set (w6 := reflow env w5) in *.
  cbn [bindEvent_ snd menu on_menu log bump on_dom buttons_ listeners_
       with_reflowWrapper_ next_id store].
  rewrite Hb6, Hl6, Hn6.
  exists rs. repeat apply conj.
  - exact Hbtn.
  - rewrite Hlen, Hblocks, length_seq, shownShapes_items, length_map. reflexivity.
  - exact Hndrs.
  - eapply Forall_impl; [exact Hrs |]. cbn. intros r Hr. lia.
  - rewrite Hls, Hm3, Hl2. cbn [app].
    eapply Forall_impl; [exact Hhs |]. cbn. intros h Hh. lia.
  - intros k it Hk.
    rewrite shownShapes_items, list_lookup_fmap in Hk.
    destruct (shownItems env xmlList !! k) as [it0 |] eqn:Hit0; cbn in Hk; [| discriminate Hk].
    inversion Hk; subst it. clear Hk.
    destruct (Hnew k it0 Hit0) as (obj0 & Hobj0 & Hshape0 & Hxy0).
    assert (Hkb : blocks !! k = Some (next_id w + k)%nat).
    { rewrite Hblocks. apply lookup_seq. split; [reflexivity |].
      apply lookup_lt_Some in Hit0. exact Hit0. }
    destruct (Hplaced k _ obj0 Hkb Hobj0) as (p & r & Hp & Hh4 & Hbt).
    rewrite Hitems in Hp.
    specialize (Hrows (next_id w + k)%nat).
    change (heap (store w5)) with (heap (store w4)) in Hrows.
    rewrite Hh4 in Hrows.
    destruct (heap (store w6) !! (next_id w + k)%nat) as [obj |]; [| contradiction].
    destruct Hrows as (Hs & Hy & Hr & Hx).
    exists obj, p, r, (placeBlock env p r obj0). repeat apply conj.
    + reflexivity.
    + exact Hp.
    + rewrite Hs, placeBlock_shape. exact Hshape0.
    + eapply same_trans; [exact Hy |]. unfold placeBlock. cbn.
      destruct (hasComment env); cbn; rewrite Hxy0; cbn; ring.
    + intros Hrtl. rewrite (Hx Hrtl). unfold placeBlock. cbn.
      destruct (hasComment env); cbn; rewrite Hxy0; cbn; ring.
    + rewrite Hr. reflexivity.
    + rewrite Hbtn in Hbt. cbn [app Nat.add] in Hbt.
      rewrite list_lookup_fmap in Hbt.
      destruct (rs !! k); cbn in Hbt; congruence.
    + exact Hh4.
    + unfold placeBlock. destruct (hasComment env); cbn; rewrite Hxy0; reflexivity.
    + exact Hy.
    + exact Hx.
Qed.

Lemma show_blocks env xmlList w :
  let w' := show env xmlList w in
  let n := next_id w in
  let items := shownShapes env xmlList in
  exists rs,
    buttons_ (menu w') = map Some rs /\
    length rs = length items /\
    NoDup rs /\
    Forall (fun r => n <= r < next_id w')%nat rs /\
    Forall (fun h => n <= h < next_id w')%nat (listeners_ (menu w')) /\
    forall k it, items !! k = Some it ->
      exists obj p r,
        heap (store w') !! (n + k)%nat = Some obj /\
        positions items 10 !! k = Some p /\
        shape obj = fst it /\
        Js.same (snd (xy obj)) (Js.Num (snd p)) /\
        (RTL env = false -> Js.same (fst (xy obj)) (Js.Num (fst p))) /\
        blockMenuRect_ obj = Some r /\
        rs !! k = Some r.
Proof.
  cbn zeta.
  destruct (show_blocks_placed env xmlList w)
    as (rs & Hb & Hlen & Hnd & Hrs & Hls & Hblocks).
  exists rs. repeat apply conj; try assumption.
  intros k it Hk.
  destruct (Hblocks k it Hk) as (obj & p & r & placed & Hall & _).
  exists obj, p, r. exact Hall.
Qed.


(** C9. [show] begins with [hide], so whatever shows came before, after a
    show the array [buttons_] holds exactly one hit-region per block that
    this call laid out, each a new element and the hit-region of its block,
    and [listeners_] holds only listeners bound during this call. *)
Theorem show_replaces_lists env xs x w :
  let w1 := fold_left (fun w x => show env x w) xs w in
  let w' := show env x w1 in
  exists rs,
    buttons_ (menu w') = map Some rs /\
    length rs = length (shownShapes env x) /\
    NoDup rs /\
    Forall (fun r => next_id w1 <= r < next_id w')%nat rs /\
    Forall (fun h => next_id w1 <= h < next_id w')%nat (listeners_ (menu w')) /\
    forall k r, rs !! k = Some r ->
      exists obj, heap (store w') !! (next_id w1 + k)%nat = Some obj /\
                  blockMenuRect_ obj = Some r.
Proof.
  cbn zeta. set (w1 := fold_left (fun w x => show env x w) xs w).
  destruct (show_blocks env x w1) as (rs & Hb & Hlen & Hnd & Hrs & Hls & Hblocks).
  exists rs. repeat apply conj; try assumption.
  intros k r Hk.
  destruct (lookup_lt_is_Some_2 (shownShapes env x) k) as [it Hit].
  { rewrite <- Hlen. eapply lookup_lt_Some. exact Hk. }
  destruct (Hblocks k it Hit) as (obj & p & r' & Hobj & _ & _ & _ & _ & Hr & Hk').
  exists obj. split; [exact Hobj | congruence].
Qed.

(** ** The vertical layout *)

Lemma leadIn_spec s c :
  fst (leadIn s c) == 10 + (if outputConnection s then height s / 2 else 0) /\
  snd (leadIn s c) == c + leadingGap s.
Proof.
  unfold leadIn, leadingGap.
  destruct (outputConnection s), (previousConnection s), (nextConnection s);
    cbn; split; ring.
Qed.

Lemma leadOut_spec s gap y :
  leadOut s gap y == y + trailingGap s + (height s + gap).
Proof.
  unfold leadOut, trailingGap.
  destruct (previousConnection s), (nextConnection s); cbn; ring.
Qed.

Lemma gaps_nonneg s : 0 <= leadingGap s /\ 0 <= trailingGap s.
Proof.
  unfold leadingGap, trailingGap.
  destruct (outputConnection s), (previousConnection s), (nextConnection s);
    cbn; split; discriminate.
Qed.

Lemma positions_lookup items :
  forall c k it,
    items !! k = Some it ->
    exists p, positions items c !! k = Some p /\
      fst p == 10 + (if outputConnection (fst it) then height (fst it) / 2 else 0) /\
      (k = 0%nat -> snd p == c + leadingGap (fst it)) /\
      forall it', items !! S k = Some it' ->
        exists p', positions items c !! S k = Some p' /\
          snd p' == snd p + trailingGap (fst it) + (height (fst it) + snd it)
                    + leadingGap (fst it').
Proof.
  induction items as [| [s gap] rest IH]; intros c k it Hk; [discriminate |].
  destruct k as [| k].
  - cbn in Hk. inversion Hk; subst it. clear Hk. cbn [positions fst snd].
    exists (leadIn s c). destruct (leadIn_spec s c) as [Hx Hy].
    repeat apply conj; [reflexivity | exact Hx | intros _; exact Hy |].
    intros [s' gap'] Hk'. cbn in Hk'.
    destruct rest as [| [s1 gap1] rest']; [discriminate |].
    cbn in Hk'. inversion Hk'; subst s1 gap1. clear Hk'.
    cbn [positions fst snd]. eexists. split; [reflexivity |].
    destruct (leadIn_spec s' (leadOut s gap (snd (leadIn s c)))) as [_ Hy'].
    rewrite Hy', leadOut_spec. reflexivity.
  - cbn in Hk. cbn [positions].
    destruct (IH (leadOut s gap (snd (leadIn s c))) k it Hk) as (p & Hp & Hx & _ & Hnext).
    exists p. repeat apply conj; [exact Hp | exact Hx | discriminate |].
    intros it' Hk'. exact (Hnext it' Hk').
Qed.

(** C4, as the code has it.  The layout loop of [show] goes down from the
    cursor 10.  It moves a block with an output connection to 10 plus half
    its height across and leaves no gap above it; it moves any other block
    to 10 across, with a gap of 10 above it if it lacks a previous
    connection and of 7 otherwise.  Every block that lacks both a previous
    and a next connection has a gap of 10 below it.  The next block comes
    after the height of the block and its own gap, so that it lies strictly
    lower whenever height plus gap of the block is positive.  The [reflow]
    that ends [show] leaves each block in its row, and in its column too
    unless the layout is right-to-left. *)
Theorem show_layout env xmlList w k s gap :
  shownShapes env xmlList !! k = Some (s, gap) ->
  exists placed obj x y,
    heap (store (showLaidOut env xmlList w)) !! (next_id w + k)%nat
      = Some placed /\
    xy placed = (Js.Num x, Js.Num y) /\
    x == 10 + (if outputConnection s then height s / 2 else 0) /\
    (k = 0%nat -> y == 10 + leadingGap s) /\
    heap (store (show env xmlList w)) !! (next_id w + k)%nat = Some obj /\
    shape obj = s /\
    Js.same (snd (xy obj)) (Js.Num y) /\
    (RTL env = false -> fst (xy obj) = Js.Num x) /\
    forall s' gap',
      shownShapes env xmlList !! S k = Some (s', gap') ->
      exists placed' obj' x' y',
        heap (store (showLaidOut env xmlList w)) !! (next_id w + S k)%nat
          = Some placed' /\
        xy placed' = (Js.Num x', Js.Num y') /\
        heap (store (show env xmlList w)) !! (next_id w + S k)%nat = Some obj' /\
        Js.same (snd (xy obj')) (Js.Num y') /\
        y' == y + trailingGap s + (height s + gap) + leadingGap s' /\
        (0 < height s + gap -> y < y').
Proof.
  intros Hk.
  destruct (show_blocks_placed env xmlList w) as (rs & _ & _ & _ & _ & _ & Hblocks).
  destruct (Hblocks k (s, gap) Hk)
    as (obj & p & r & placed & (Hobj & Hp & Hs & _) & Hplaced & Hxy & Hy & Hx).
  destruct (positions_lookup (shownShapes env xmlList) 10 k (s, gap) Hk)
    as (p0 & Hp0 & Hx0 & Hy0 & Hnext).
  assert (p0 = p) by congruence. subst p0. cbn [fst snd] in *.
  exists placed, obj, (0 + fst p), (0 + snd p).
  rewrite Hxy in Hy, Hx. cbn [fst snd] in Hy, Hx.
  repeat apply conj.
  - exact Hplaced.
  - exact Hxy.
  - rewrite Qplus_0_l. exact Hx0.
  - intros Hk0. rewrite Qplus_0_l. exact (Hy0 Hk0).
  - exact Hobj.
  - exact Hs.
  - exact Hy.
  - exact Hx.
  - intros s' gap' Hk'.
    destruct (Hblocks (S k) (s', gap') Hk')
      as (obj' & p' & r' & placed' & (Hobj' & Hp' & _) & Hplaced' & Hxy' & Hy' & _).
    destruct (Hnext (s', gap') Hk') as (p1 & Hp1 & Hstep).
    assert (p1 = p') by congruence. subst p1. cbn [fst snd] in *.
    rewrite Hxy' in Hy'. cbn [snd] in Hy'.
    exists placed', obj', (0 + fst p'), (0 + snd p').
    assert (Heq : 0 + snd p' ==
              0 + snd p + trailingGap s + (height s + gap) + leadingGap s').
    { rewrite !Qplus_0_l. exact Hstep. }
    repeat apply conj;
      [exact Hplaced' | exact Hxy' | exact Hobj' | exact Hy' | exact Heq |].
    intros Hpos. rewrite Heq.
    destruct (gaps_nonneg s) as [_ Ht]. destruct (gaps_nonneg s') as [Hl _].
    lra.
Qed.

Lemma show_layout_witness :
  exists obj,
    heap (store (show Page.env Page.valueThenStatement Page.fresh)) !! 1%nat
      = Some obj /\
    Js.same (snd (xy obj)) (Js.Num (0 + 10)) /\
    fst (xy obj) = Js.Num (0 + (10 + 20 / 2)).
Proof.
  destruct (show_layout Page.env Page.valueThenStatement Page.fresh 0
              Page.value 0 eq_refl)
    as (placed & obj & x & y & Hplaced & Hxy & _ & _ & Hobj & _ & Hy & Hx & _).
  exists obj.
  assert (Hp : (Js.Num x, Js.Num y) = (Js.Num (0 + (10 + 20 / 2)), Js.Num (0 + 10))).
  { rewrite <- Hxy.
    assert (Hs : Some placed = Some
      {| type := "number"; workspace := Some PanelWorkspace;
         shape := Page.value; svgRoot := Some 1%nat;
         xy := (Js.Num (0 + (10 + 20 / 2)), Js.Num (0 + 10));
         isInFlyout := true; isInBlockMenu := true; commentText := None;
         blockMenuRect_ := Some 3%nat; stalkerBlock := None;
         startDragXY := None |}).
    { rewrite <- Hplaced. vm_compute. reflexivity. }
    inversion Hs. reflexivity. }
  inversion Hp; subst x y.
  repeat apply conj; [exact Hobj | exact Hy | exact (Hx eq_refl)].
Defined.

(** C4, as the specification has it, fails on a value block above a
    statement block, each 20 high.  [show] puts them at y 10 and 47.  If
    the block with the output connection also counts as a block that lacks
    a previous connection, the specification has them at 20 and 57; if it
    does not, at 10 and 37.  And in a right-to-left layout [show] does not
    leave the value block at 10 + 20/2 across: its [reflow] has moved it,
    and what it finds across is not a number. *)
Lemma layout_differs_from_spec :
  let w := show Page.env Page.valueThenStatement Page.fresh in
  let items := shownShapes Page.env Page.valueThenStatement in
  let wr := show Page.rtl Page.valueThenStatement Page.fresh in
  (snd <$> positionOf w 1, snd <$> positionOf w 2)
    = (Some (Js.Num 10), Some (Js.Num 47)) /\
  Spec.ys Spec.leadingGapLiteral Spec.trailingGapLiteral items 10 = [20; 57] /\
  Spec.ys Spec.leadingGapExclusive Spec.trailingGapExclusive items 10 = [10; 37] /\
  ~ 47 == 57 /\ ~ 47 == 37 /\
  (fst <$> positionOf wr 1) = Some Js.NaN.
Proof.
  cbv zeta. repeat apply conj; try (vm_compute; reflexivity); discriminate.
Qed.

(** ** Where [reflow] puts the hit-regions *)

Lemma reflowedRect_matches env W obj rect0 :
  rectMatches env (reflowedRect env W obj rect0) (reflowed env W obj).
Proof.
  unfold rectMatches, reflowedRect, reflowed, rect_geometry.
  destruct (RTL env); cbn [rwidth rheight rx ry xy block_moved fst snd];
    do 4 eexists; repeat apply conj; try reflexivity;
    try apply same_refl.
  apply same_sym, add_zero.
Qed.

(** The margin of [reflow] is undefined, so the width that it computes is
    not a number, whatever the blocks. *)
Lemma reflowWidth_NaN env w : reflowWidth env w = Js.NaN.
Proof. reflexivity. Qed.

(** The width that is stored never compares equal to it: [reflow] always
    goes through its second loop, stores what it computed and fires the
    resize. *)
Lemma reflow_unfold env w :
  reflow env w =
  log FireResize
    (on_menu (with_width_ (Some Js.NaN))
       (fold_left (reflowBlock env Js.NaN (Js.toNumber CORNER_RADIUS))
                  (panelTopBlocks (store w)) w)).
Proof.
  unfold reflow. rewrite reflowWidth_NaN, neq_NaN. reflexivity.
Qed.

(** C5, at the menu that lays out one statement block, 100 wide, right to
    left, with a tab width of 8 and a scrollbar 15 thick.  The block is at
    (10, 17) and the widest block is 100 wide, but the width that [reflow]
    computes and stores is not a number, and neither is the column to
    which it moves the block, nor the x that it gives to the hit-region.
    Left to right the width is not a number either. *)
Theorem reflow_not_a_number :
  let w := reflow Page.rtl Page.rtlLaidOut in
  positionOf Page.rtlLaidOut 1 = Some (Js.Num 10, Js.Num 17) /\
  maxWidth Page.rtlLaidOut = 100 /\
  reflowWidth Page.rtl Page.rtlLaidOut = Js.NaN /\
  width_ (menu w) = Some Js.NaN /\
  positionOf w 1 = Some (Js.NaN, Js.Num 17) /\
  (rx <$> rects (dom w) !! 2%nat) = Some (Some Js.NaN) /\
  (ry <$> rects (dom w) !! 2%nat) = Some (Some (Js.Num 17)) /\
  reflowWidth Page.env Page.withStatement = Js.NaN /\
  width_ (menu (reflow Page.env Page.withStatement)) = Some Js.NaN.
Proof. cbv zeta. repeat apply conj; vm_compute; reflexivity. Qed.

(** ** Runs of the model *)

(** The listeners and lists of a menu that shows one statement block. *)
Example show_statement :
  buttons_ (menu Page.withStatement) = [Some 2%nat] /\
  listeners_ (menu Page.withStatement) = [3%nat; 4%nat] /\
  reflowWrapper_ (menu Page.withStatement) = Some 5%nat /\
  listenersAt (TRoot 1) "mousedown" Page.withStatement = [HBlockMouseDown 1] /\
  listenersAt (TRect 2) "mousedown" Page.withStatement = [HCreateBlock 1] /\
  positionOf Page.withStatement 1 = Some (Js.Num 10, Js.Num 17).
Proof. repeat apply conj; vm_compute; reflexivity. Qed.

(** Showing another list replaces the block and its hit-region. *)
Example show_twice :
  let w := show Page.env Page.valueThenStatement Page.withStatement in
  buttons_ (menu w) = [Some 8%nat; Some 11%nat] /\
  listeners_ (menu w) = [9%nat; 10%nat; 12%nat; 13%nat] /\
  panelTopBlocks (store w) = [6%nat; 7%nat] /\
  workspaceOf w 1 = None.
Proof. cbv zeta. repeat apply conj; vm_compute; reflexivity. Qed.

(** A move of 10 to the right during the pending drag puts block 9 on the
    main workspace and starts the drag on block 8 of the menu. *)
Example drag_beyond_radius :
  let w := deliver Page.env TDocument "mousemove" (Page.move 110 100) Page.pressed in
  mainTopBlocks (store w) = [9%nat] /\
  panelTopBlocks (store w) = [1%nat; 8%nat] /\
  dragTarget w = Some 8%nat /\
  positionOf w 8 = Some (Js.Num 10, Js.Num 17) /\
  positionOf w 9 = Some (Js.Num (-192), Js.Num 50).
Proof. cbv zeta. repeat apply conj; vm_compute; reflexivity. Qed.

(** A move of 3 during the pending drag creates nothing. *)
Example drag_within_radius :
  let w := deliver Page.env TDocument "mousemove" (Page.move 103 100) Page.pressed in
  mainTopBlocks (store w) = [] /\ panelTopBlocks (store w) = [1%nat].
Proof. cbv zeta. repeat apply conj; vm_compute; reflexivity. Qed.

(** Right-to-left: the width that the menu stores is not a number, nor is
    the column of the block or the x of its hit-region, which is 100 wide
    at y 17. *)
Example show_right_to_left :
  let w := show Page.rtl (XmlNodes [Page.node "move" Page.statement]) Page.fresh in
  width_ (menu w) = Some Js.NaN /\
  positionOf w 1 = Some (Js.NaN, Js.Num 17) /\
  (rx <$> rects (dom w) !! 2%nat) = Some (Some Js.NaN) /\
  (ry <$> rects (dom w) !! 2%nat) = Some (Some (Js.Num 17)) /\
  (rwidth <$> rects (dom w) !! 2%nat) = Some (Some 100).
Proof. cbv zeta. repeat apply conj; vm_compute; reflexivity. Qed.

(** Scrolling half way down a canvas that is 300 high. *)
Example scroll_half :
  let w := setMetrics_ (Js.Number (1 # 2)) Page.fresh in
  Qred (scrollY (store w)) = -150 /\
  (fun p => Qred (snd p)) <$> canvasTransform (dom w) = Some (-150).
Proof. cbv zeta. repeat apply conj; vm_compute; reflexivity. Qed.

(** * More properties of the block menu *)

(** ** [hide] *)

Lemma on_menu_listeners_id v :
  listeners_ (menu v) = [] -> on_menu (with_listeners_ (fun _ => [])) v = v.
Proof.
  destruct v as [d s m st n t]. destruct m as [b l r o wd]. cbn. intros ->. reflexivity.
Qed.

Lemma on_menu_buttons_id v :
  buttons_ (menu v) = [] -> on_menu (with_buttons_ (fun _ => [])) v = v.
Proof.
  destruct v as [d s m st n t]. destruct m as [b l r o wd]. cbn. intros ->. reflexivity.
Qed.

Lemma hideBlocks_nothing blocks :
  forall w,
    (forall b obj, In b blocks -> heap (store w) !! b = Some obj ->
                   workspace obj <> Some PanelWorkspace) ->
    hideBlocks blocks w = w.
Proof.
  induction blocks as [| b0 rest IH]; intros w Hno; [reflexivity |].
  cbn [hideBlocks fold_left].
  destruct (heap (store w) !! b0) as [obj |] eqn:Hobj.
  - destruct (decide (workspace obj = Some PanelWorkspace)) as [Hp | _].
    + exfalso. apply (Hno b0 obj); [now left | exact Hobj | exact Hp].
    + apply IH. intros b o Hb. apply Hno. now right.
  - apply IH. intros b o Hb. apply Hno. now right.
Qed.

(** X5. Hiding a hidden menu changes nothing. *)
Theorem hide_idempotent w : hide (hide w) = hide w.
Proof.
  rewrite (hide_unfold (hide w)). cbn zeta.
  assert (H1 : hideListeners (hide w) = hide w).
  { unfold hideListeners. now rewrite hide_listeners_. }
  rewrite H1, (on_menu_listeners_id _ (hide_listeners_ w)), hide_reflowWrapper_.
  rewrite hideBlocks_nothing.
  - rewrite hide_buttons_. cbn [Js.truthy_prefix hideButtons fold_left].
    apply on_menu_buttons_id, hide_buttons_.
  - intros b obj Hb Hobj. exact (hide_disposes_blocks w b obj Hb Hobj).
Qed.

Lemma hideListeners_bindings w :
  bindings (dom (hideListeners w))
  = withoutHandles (listeners_ (menu w)) (bindings (dom w)).
Proof.
  unfold hideListeners, withoutHandles.
  generalize (listeners_ (menu w)) as hs. intros hs. revert w.
  induction hs as [| h hs IH]; intros w.
  - cbn. induction (bindings (dom w)) as [| p l IHl]; [reflexivity |].
    cbn. now rewrite <- IHl.
  - cbn [fold_left]. rewrite IH. cbn [unbindEvent_ dom on_dom with_bindings bindings].
    induction (bindings (dom w)) as [| p l IHl]; [reflexivity |].
    cbn. destruct (Nat.eqb (fst p) h) eqn:Hph; cbn.
    + exact IHl.
    + destruct (existsb (Nat.eqb (fst p)) hs); cbn; [exact IHl | now rewrite IHl].
Qed.

Lemma withoutHandles_app hs hs' l :
  withoutHandles (hs ++ hs') l = withoutHandles hs' (withoutHandles hs l).
Proof.
  unfold withoutHandles. induction l as [| p l IH]; [reflexivity |].
  cbn. rewrite existsb_app.
  destruct (existsb (Nat.eqb (fst p)) hs); cbn; [exact IH |].
  destruct (existsb (Nat.eqb (fst p)) hs'); cbn; [exact IH | now rewrite IH].
Qed.

(** The listeners that stay bound over [hide]: those whose handle is
    neither in [listeners_] nor in [reflowWrapper_]. *)
Lemma hide_bindings_exact w :
  bindings (dom (hide w))
  = withoutHandles (listeners_ (menu w) ++ option_list (reflowWrapper_ (menu w)))
                   (bindings (dom w)).
Proof.
  rewrite hide_bindings, withoutHandles_app. cbn zeta.
  destruct (reflowWrapper_ (menu w)) as [h |]; cbn [option_list].
  - cbn [unbindEvent_ dom on_dom with_bindings bindings].
    rewrite hideListeners_bindings. unfold withoutHandles at 2.
    apply filter_ext. intros p. cbn. now rewrite orb_false_r.
  - rewrite hideListeners_bindings. unfold withoutHandles at 2.
    cbn. symmetry. apply forallb_filter_id. apply forallb_forall. reflexivity.
Qed.

Lemma isBound_withoutHandles hs h w l :
  bindings (dom w) = withoutHandles hs l ->
  isBound h w = existsb (fun p => Nat.eqb (fst p) h) l && negb (existsb (Nat.eqb h) hs).
Proof.
  intros Hb. unfold isBound. rewrite Hb. clear Hb. unfold withoutHandles.
  induction l as [| p l IH]; [reflexivity |].
  cbn [List.filter existsb].
  destruct (Nat.eqb (fst p) h) eqn:Hph.
  - apply Nat.eqb_eq in Hph. rewrite <- Hph in *.
    destruct (existsb (Nat.eqb (fst p)) hs) eqn:Hex; cbn [negb existsb orb andb].
    + rewrite IH. apply andb_false_r.
    + rewrite Nat.eqb_refl. reflexivity.
  - destruct (existsb (Nat.eqb (fst p)) hs); cbn [negb existsb orb].
    + exact IH.
    + rewrite Hph. exact IH.
Qed.

(** X1. [hide] unbinds exactly the listeners that the menu has recorded: a
    handle is bound after [hide] if and only if it was bound before and is
    neither in [listeners_] nor the one in [reflowWrapper_]. *)
Theorem hide_unbinds_exactly w h :
  isBound h (hide w)
  = isBound h w
    && negb (existsb (Nat.eqb h)
               (listeners_ (menu w) ++ option_list (reflowWrapper_ (menu w)))).
Proof. apply isBound_withoutHandles, hide_bindings_exact. Qed.

Lemma dispose_statics b w : statics (dispose b w) = statics w.
Proof.
  unfold dispose. destruct (heap (store w) !! b) as [obj |]; [| reflexivity].
  destruct (workspace obj) as [[] |]; reflexivity.
Qed.

Lemma dispose_trace b w : trace (dispose b w) = trace w.
Proof.
  unfold dispose. destruct (heap (store w) !! b) as [obj |]; [| reflexivity].
  destruct (workspace obj) as [[] |]; reflexivity.
Qed.

Lemma hideBlocks_main blocks :
  forall w, mainTopBlocks (store (hideBlocks blocks w)) = mainTopBlocks (store w).
Proof.
  induction blocks as [| b0 rest IH]; intros w; [reflexivity |].
  cbn [hideBlocks fold_left]. fold (hideBlocks rest).
  rewrite IH.
  destruct (heap (store w) !! b0) as [obj |] eqn:Hobj; [| reflexivity].
  destruct (decide (workspace obj = Some PanelWorkspace)) as [Hp | _]; [| reflexivity].
  unfold dispose. rewrite Hobj, Hp. reflexivity.
Qed.

Lemma hideBlocks_keeps blocks :
  forall w b obj,
    heap (store w) !! b = Some obj ->
    workspace obj <> Some PanelWorkspace ->
    heap (store (hideBlocks blocks w)) !! b = Some obj.
Proof.
  induction blocks as [| b0 rest IH]; intros w b obj Hobj Hws; [exact Hobj |].
  cbn [hideBlocks fold_left]. fold (hideBlocks rest).
  apply IH; [| exact Hws].
  destruct (heap (store w) !! b0) as [o0 |] eqn:Ho0; [| exact Hobj].
  destruct (decide (workspace o0 = Some PanelWorkspace)) as [Hp | _]; [| exact Hobj].
  assert (Hne : b0 <> b) by (intros ->; congruence).
  unfold dispose. rewrite Ho0, Hp. cbn.
  now rewrite lookup_alter_ne by exact Hne.
Qed.


Lemma hide_store w :
  store (hide w) = store (hideBlocks (panelTopBlocks (store w)) w).
Proof.
  rewrite hide_unfold. cbn zeta. cbn [store on_menu].
  unfold hideButtons. rewrite (fold_left_frame _ store) by reflexivity.
  set (w1 := on_menu (with_listeners_ (fun _ => [])) (hideListeners w)).
  assert (Hs1 : store w1 = store w).
  { subst w1. cbn [store on_menu]. unfold hideListeners.
    now rewrite (fold_left_frame _ store). }
  set (w2 := match reflowWrapper_ (menu w1) with
             | Some h => on_menu (with_reflowWrapper_ None) (unbindEvent_ h w1)
             | None => w1
             end).
  assert (Hs2 : store w2 = store w).
  { subst w2. destruct (reflowWrapper_ (menu w1)); exact Hs1. }
  cbn [getTopBlocks]. rewrite Hs2.
  generalize (panelTopBlocks (store w)) as l. revert Hs2.
  generalize w2 as a. clear. intros a Hs l. revert a w Hs.
  induction l as [| b l IH]; intros a w Hs; [exact Hs |].
  cbn [hideBlocks fold_left]. fold (hideBlocks l). rewrite Hs.
  apply IH.
  destruct (heap (store w) !! b) as [obj |]; [| exact Hs].
  destruct (decide (workspace obj = Some PanelWorkspace)); [| exact Hs].
  unfold dispose. rewrite Hs.
  destruct (heap (store w) !! b) as [o |]; [| exact Hs].
  destruct (workspace o) as [[] |]; cbn; now rewrite Hs.
Qed.

(** X2. [hide] disposes only the blocks whose workspace is that of the
    menu: the list of top blocks of the main workspace is as it was, and a
    block object of another workspace (or a disposed one) is untouched. *)
Theorem hide_spares_other_blocks w :
  mainTopBlocks (store (hide w)) = mainTopBlocks (store w) /\
  forall b obj,
    heap (store w) !! b = Some obj ->
    workspace obj <> Some PanelWorkspace ->
    heap (store (hide w)) !! b = Some obj.
Proof.
  rewrite hide_store. split.
  - apply hideBlocks_main.
  - intros b obj. apply hideBlocks_keeps.
Qed.

Lemma hideBlocks_tops blocks :
  forall w b,
    In b (panelTopBlocks (store (hideBlocks blocks w))) ->
    In b (panelTopBlocks (store w)).
Proof.
  induction blocks as [| b0 rest IH]; intros w b Hin; [exact Hin |].
  cbn [hideBlocks fold_left] in Hin. fold (hideBlocks rest) in Hin.
  apply IH in Hin.
  destruct (heap (store w) !! b0) as [o0 |] eqn:Ho0; [| exact Hin].
  destruct (decide (workspace o0 = Some PanelWorkspace)) as [Hp | _]; [| exact Hin].
  unfold dispose in Hin. rewrite Ho0, Hp in Hin. cbn in Hin.
  apply filter_In in Hin. tauto.
Qed.

Lemma hideBlocks_disposes blocks :
  forall w b obj,
    In b blocks ->
    heap (store w) !! b = Some obj ->
    workspace obj = Some PanelWorkspace ->
    ~ In b (panelTopBlocks (store (hideBlocks blocks w))) /\
    heap (store (hideBlocks blocks w)) !! b = Some (block_disposed obj).
Proof.
  induction blocks as [| b0 rest IH]; intros w b obj Hin Hobj Hws; [contradiction |].
  cbn [hideBlocks fold_left]. fold (hideBlocks rest).
  destruct (decide (b0 = b)) as [-> | Hne].
  - rewrite Hobj. destruct (decide (workspace obj = Some PanelWorkspace)); [| contradiction].
    assert (Hd : heap (store (dispose b w)) !! b = Some (block_disposed obj)).
    { unfold dispose. rewrite Hobj, Hws. cbn. now rewrite lookup_alter_eq, Hobj. }
    assert (Ht : ~ In b (panelTopBlocks (store (dispose b w)))).
    { unfold dispose. rewrite Hobj, Hws. cbn. intros H.
      apply filter_In in H. destruct H as [_ H].
      now rewrite Nat.eqb_refl in H. }
    split.
    + intros H. apply Ht. eapply hideBlocks_tops. exact H.
    + apply hideBlocks_keeps; [exact Hd | discriminate].
  - destruct Hin as [-> | Hin]; [contradiction |].
    apply IH; [exact Hin | | exact Hws].
    destruct (heap (store w) !! b0) as [o0 |] eqn:Ho0; [| exact Hobj].
    destruct (decide (workspace o0 = Some PanelWorkspace)) as [Hp | _]; [| exact Hobj].
    unfold dispose. rewrite Ho0, Hp. cbn.
    now rewrite lookup_alter_ne by exact Hne.
Qed.

(** X3. Each top block of the workspace of the menu that has this
    workspace as its own is disposed by [hide]: it is no longer a top block
    there, and its object has no workspace and no SVG root. *)
Theorem hide_disposes_panel_block w b obj :
  In b (panelTopBlocks (store w)) ->
  heap (store w) !! b = Some obj ->
  workspace obj = Some PanelWorkspace ->
  ~ In b (panelTopBlocks (store (hide w))) /\
  heap (store (hide w)) !! b = Some (block_disposed obj).
Proof. rewrite hide_store. apply hideBlocks_disposes. Qed.

Lemma hide_disposes_panel_block_witness :
  ~ In 1%nat (panelTopBlocks (store (hide Page.withStatement))).
Proof.
  eapply (hide_disposes_panel_block Page.withStatement 1).
  - vm_compute. now left.
  - vm_compute. reflexivity.
  - reflexivity.
Defined.

(** X4. Each hit-region that [buttons_] holds is out of the canvas after
    [hide]. *)
Theorem hide_removes_hit_regions w r rect :
  In r (Js.truthy_prefix (buttons_ (menu w))) ->
  rects (dom (hide w)) !! r = Some rect ->
  inCanvas rect = false.
Proof. apply hide_removes_buttons. Qed.

Lemma hide_removes_hit_regions_witness :
  inCanvas <$> rects (dom (hide Page.withStatement)) !! 2%nat = Some false.
Proof.
  destruct (rects (dom (hide Page.withStatement)) !! 2%nat) as [rect |] eqn:Hr.
  - cbn. f_equal.
    apply (hide_removes_hit_regions Page.withStatement 2 rect); [| exact Hr].
    vm_compute. now left.
  - vm_compute in Hr. discriminate.
Defined.

(** X6. [hide] does not end a pending drag: the statics of the class, with
    the start event and the start block, are as they were, even when the
    start block has just been disposed. *)
Theorem hide_keeps_pending_drag w :
  statics (hide w) = statics w /\
  forall b obj,
    startBlock_ (statics w) = Some b ->
    In b (panelTopBlocks (store w)) ->
    heap (store w) !! b = Some obj ->
    workspace obj = Some PanelWorkspace ->
    startBlock_ (statics (hide w)) = Some b /\
    svgRoot <$> heap (store (hide w)) !! b = Some None.
Proof.
  assert (Hst : statics (hide w) = statics w).
  { rewrite hide_unfold. cbn zeta. cbn [statics on_menu].
    unfold hideButtons. rewrite (fold_left_frame _ statics) by reflexivity.
    rewrite (hideBlocks_frame statics dispose_statics).
    destruct (reflowWrapper_ _); cbn [statics on_menu unbindEvent_ on_dom];
      unfold hideListeners; now rewrite (fold_left_frame _ statics). }
  split; [exact Hst |].
  intros b obj Hb Hin Hobj Hws. rewrite Hst. split; [exact Hb |].
  rewrite hide_store.
  destruct (hideBlocks_disposes _ w b obj Hin Hobj Hws) as [_ Hd].
  rewrite Hd. reflexivity.
Qed.

(** ** The pending drag *)

Lemma withoutHandles_option o l :
  withoutHandles (option_list o) l
  = match o with
    | Some h => List.filter (fun p => negb (Nat.eqb (fst p) h)) l
    | None => l
    end.
Proof.
  unfold withoutHandles. destruct o as [h |]; cbn [option_list existsb].
  - apply filter_ext. intros p. cbn. now rewrite orb_false_r.
  - apply forallb_filter_id. apply forallb_forall. reflexivity.
Qed.

Lemma terminateDrag_bindings w :
  bindings (dom (terminateDrag_ w))
  = withoutHandles (option_list (onMouseUpWrapper_ (statics w))
                    ++ option_list (onMouseMoveWrapper_ (statics w)))
                   (bindings (dom w)).
Proof.
  rewrite withoutHandles_app, !withoutHandles_option. unfold terminateDrag_.
  destruct (onMouseUpWrapper_ (statics w)) as [up |];
    destruct (onMouseMoveWrapper_ (statics w)) as [mv |] eqn:Hmv;
    cbn [statics on_statics unbindEvent_ on_dom dom with_bindings bindings
         onMouseMoveWrapper_ with_onMouseUpWrapper_];
    rewrite ?Hmv; reflexivity.
Qed.

(** X7. [terminateDrag_] unbinds exactly the two listeners of the pending
    drag: a handle is bound afterwards if and only if it was bound before
    and is in neither of the two wrappers. *)
Theorem terminateDrag_unbinds_exactly w h :
  isBound h (terminateDrag_ w)
  = isBound h w
    && negb (existsb (Nat.eqb h)
               (option_list (onMouseUpWrapper_ (statics w))
                ++ option_list (onMouseMoveWrapper_ (statics w)))).
Proof. apply isBound_withoutHandles, terminateDrag_bindings. Qed.

Lemma terminateDrag_frame w :
  menu (terminateDrag_ w) = menu w /\ store (terminateDrag_ w) = store w.
Proof.
  unfold terminateDrag_.
  destruct (onMouseUpWrapper_ (statics w)) as [up |];
    cbn [statics on_statics unbindEvent_ on_dom onMouseMoveWrapper_
         with_onMouseUpWrapper_];
    destruct (onMouseMoveWrapper_ (statics w)) as [mv |]; split; reflexivity.
Qed.

(** X8. Ending the drag twice is ending it once; the menu, the blocks and
    the workspaces are not touched. *)
Theorem terminateDrag_idempotent w :
  terminateDrag_ (terminateDrag_ w) = terminateDrag_ w /\
  menu (terminateDrag_ w) = menu w /\ store (terminateDrag_ w) = store w.
Proof.
  destruct w as [d s m st n t]. destruct st as [ev blk mn fl up mv].
  unfold terminateDrag_.
  destruct up as [up |], mv as [mv |]; repeat split; reflexivity.
Qed.

Lemma withoutHandles_below hs n l :
  Forall (fun p : nat * Binding => (fst p < n)%nat) l ->
  Forall (fun h => (n <= h)%nat) hs ->
  withoutHandles hs l = l.
Proof.
  intros Hl Hhs. unfold withoutHandles.
  apply forallb_filter_id. apply forallb_forall. intros p Hp.
  apply negb_true_iff. apply not_true_is_false. intros Hex.
  apply existsb_exists in Hex. destruct Hex as (h & Hh & Heq).
  apply Nat.eqb_eq in Heq.
  pose proof (proj1 (Forall_forall _ _) Hl p
                (proj2 (list_elem_of_In _ _) Hp)) as Hlt.
  pose proof (proj1 (Forall_forall _ _) Hhs h
                (proj2 (list_elem_of_In _ _) Hh)) as Hge.
  cbn in Hlt, Hge. lia.
Qed.

Lemma withoutHandles_all hs l :
  (forall p, In p l -> In (fst p) hs) -> withoutHandles hs l = [].
Proof.
  intros Hall. unfold withoutHandles. induction l as [| p l IH]; [reflexivity |].
  cbn. assert (Hex : existsb (Nat.eqb (fst p)) hs = true).
  { apply existsb_exists. exists (fst p). split; [apply Hall; now left | apply Nat.eqb_refl]. }
  rewrite Hex. cbn. apply IH. intros q Hq. apply Hall. now right.
Qed.

Lemma withoutHandles_split hs l l' :
  withoutHandles hs (l ++ l') = withoutHandles hs l ++ withoutHandles hs l'.
Proof. unfold withoutHandles. apply List.filter_app. Qed.

Lemma withoutHandles_Forall (P : nat * Binding -> Prop) hs l :
  Forall P l -> Forall P (withoutHandles hs l).
Proof.
  intros Hl. unfold withoutHandles. rewrite Forall_forall in *.
  intros p Hp. apply Hl. apply list_elem_of_In in Hp. apply filter_In in Hp.
  apply list_elem_of_In. tauto.
Qed.

(** What a left press leaves: the pending drag that was there is ended,
    the event, the block and the menu are recorded, and two new listeners
    are bound on the document. *)
Lemma blockMouseDown_left env block e w :
  isRightButton e = false ->
  let w' := blockMouseDown_ env block e w in
  bindings (dom w')
  = bindings (dom (terminateDrag_ w))
    ++ [(next_id w, {| btarget := TDocument; bname := "mouseup";
                       bhandler := HTerminateDrag |});
        (S (next_id w), {| btarget := TDocument; bname := "mousemove";
                           bhandler := HMouseMove |})] /\
  statics w' = {| startDownEvent_ := Some e; startBlock_ := Some block;
                  startblockMenu_ := Some TheBlockMenu; startFlyout_ := None;
                  onMouseUpWrapper_ := Some (next_id w);
                  onMouseMoveWrapper_ := Some (S (next_id w)) |} /\
  store w' = store w /\ menu w' = menu w /\ next_id w' = S (S (next_id w)).
Proof.
  intros Hleft. destruct w as [d s m st n t]. destruct st as [ev blk mn fl up mv].
  unfold blockMouseDown_, Blockly_terminateDrag_, terminateDrag_, bindEvent_.
  rewrite Hleft.
  destruct up as [up |], mv as [mv |]; cbn; rewrite <- ?app_assoc;
    repeat apply conj; reflexivity.
Qed.

(** X9. A left press followed by the release leaves no listener behind:
    the listeners bound are those that were bound before the press, less
    the two of an earlier pending drag; the start event and the start block
    are null again, and menu and blocks are untouched. *)
Theorem press_then_release env block e w :
  isRightButton e = false ->
  handlesBelow w ->
  let w' := Blockly_terminateDrag_ (blockMouseDown_ env block e w) in
  bindings (dom w') = bindings (dom (terminateDrag_ w)) /\
  startDownEvent_ (statics w') = None /\ startBlock_ (statics w') = None /\
  onMouseUpWrapper_ (statics w') = None /\ onMouseMoveWrapper_ (statics w') = None /\
  store w' = store w /\ menu w' = menu w.
Proof.
  intros Hleft Hbelow. cbn zeta.
  destruct (blockMouseDown_left env block e w Hleft) as (Hb & Hst & Hs & Hm & _).
  set (w1 := blockMouseDown_ env block e w) in *.
  unfold Blockly_terminateDrag_.
  destruct (terminateDrag_clears (log BlockTerminateDrag w1)) as (H1 & H2 & H3 & H4).
  destruct (terminateDrag_frame (log BlockTerminateDrag w1)) as (Hm' & Hs').
  repeat apply conj; try assumption.
  - rewrite terminateDrag_bindings. cbn [statics log dom].
    rewrite Hst, Hb. cbn [onMouseUpWrapper_ onMouseMoveWrapper_ option_list app].
    rewrite withoutHandles_split.
    rewrite (withoutHandles_below _ (next_id w)).
    + rewrite withoutHandles_all; [apply app_nil_r |].
      intros p [<- | [<- | []]]; cbn; auto.
    + rewrite terminateDrag_bindings. apply withoutHandles_Forall. exact Hbelow.
    + repeat constructor; lia.
  - rewrite Hs'. exact Hs.
  - rewrite Hm'. exact Hm.
Qed.

Lemma withStatement_handlesBelow : handlesBelow Page.withStatement.
Proof. unfold handlesBelow. vm_compute. repeat constructor. Defined.

Lemma press_then_release_witness :
  bindings (dom (Blockly_terminateDrag_
                   (blockMouseDown_ Page.env 1 (Page.click 100 100) Page.withStatement)))
  = bindings (dom (terminateDrag_ Page.withStatement)).
Proof.
  apply (press_then_release Page.env 1 (Page.click 100 100) Page.withStatement).
  - reflexivity.
  - exact withStatement_handlesBelow.
Defined.

(** X10. Pressing again while a drag is pending does not pile up listeners
    on the document: after the second press the listeners bound are, target
    by target and in order, those bound after the first. *)
Theorem press_twice env b1 e1 b2 e2 w :
  isRightButton e1 = false ->
  isRightButton e2 = false ->
  handlesBelow w ->
  map snd (bindings (dom (blockMouseDown_ env b2 e2 (blockMouseDown_ env b1 e1 w))))
  = map snd (bindings (dom (blockMouseDown_ env b1 e1 w))).
Proof.
  intros H1 H2 Hbelow.
  destruct (blockMouseDown_left env b1 e1 w H1) as (Hb1 & Hst1 & _ & _ & Hn1).
  set (w1 := blockMouseDown_ env b1 e1 w) in *.
  destruct (blockMouseDown_left env b2 e2 w1 H2) as (Hb2 & _).
  rewrite Hb2, Hb1, !map_app. f_equal.
  rewrite terminateDrag_bindings, Hst1, Hb1.
  cbn [onMouseUpWrapper_ onMouseMoveWrapper_ option_list app].
  rewrite withoutHandles_split.
  rewrite (withoutHandles_below _ (next_id w)).
  - rewrite withoutHandles_all; [now rewrite app_nil_r |].
    intros p [<- | [<- | []]]; cbn; auto.
  - rewrite terminateDrag_bindings. apply withoutHandles_Forall. exact Hbelow.
  - repeat constructor; lia.
Qed.

Lemma press_twice_witness :
  map snd (bindings (dom (blockMouseDown_ Page.env 1 (Page.click 5 5)
             (blockMouseDown_ Page.env 1 (Page.click 100 100) Page.withStatement))))
  = map snd (bindings (dom (blockMouseDown_ Page.env 1 (Page.click 100 100)
                              Page.withStatement))).
Proof.
  apply press_twice; [reflexivity | reflexivity | exact withStatement_handlesBelow].
Defined.

(** X11. A right press starts no drag: it ends the drag that was pending,
    records nothing and binds nothing. *)
Theorem right_press_starts_no_drag env block e w :
  isRightButton e = true ->
  let w' := blockMouseDown_ env block e w in
  bindings (dom w') = bindings (dom (terminateDrag_ w)) /\
  statics w' = statics (terminateDrag_ w) /\
  startDownEvent_ (statics w') = None /\
  store w' = store w /\ menu w' = menu w.
Proof.
  intros Hright. destruct w as [d s m st n t]. destruct st as [ev blk mn fl up mv].
  unfold blockMouseDown_, Blockly_terminateDrag_, terminateDrag_.
  rewrite Hright.
  destruct (hasContextMenu env), up as [up |], mv as [mv |]; cbn;
    repeat apply conj; reflexivity.
Qed.

Lemma right_press_starts_no_drag_witness :
  startDownEvent_ (statics (blockMouseDown_ Page.env 1 (Page.rightClick 100 100)
                              Page.pressed)) = None.
Proof.
  apply (right_press_starts_no_drag Page.env 1 (Page.rightClick 100 100) Page.pressed).
  reflexivity.
Defined.

(** X12. A move that stays within the radius, or bears the signature of
    the rogue events, returns and changes nothing but the trace of toolkit
    calls: the drag stays pending with the start point of the press, so
    that the threshold is counted from the press and not from the last
    move. *)
Theorem move_within_radius env e down w :
  startDownEvent_ (statics w) = Some down ->
  rogueMove e = true \/
  beyondRadius env (clientX e - clientX down) (clientY e - clientY down) = false ->
  let r := onMouseMove_ env e w in
  fst r = Js.Returned /\
  statics (snd r) = statics w /\ store (snd r) = store w /\
  menu (snd r) = menu w /\ dom (snd r) = dom w /\ next_id (snd r) = next_id w.
Proof.
  intros Hdown Hwhy. unfold onMouseMove_.
  destruct (rogueMove e) eqn:Hrogue.
  - repeat split; reflexivity.
  - destruct Hwhy as [Hr | Hin]; [discriminate |].
    cbn [statics log]. rewrite Hdown, Hin. repeat split; reflexivity.
Qed.

Lemma move_within_radius_witness :
  statics (snd (onMouseMove_ Page.env (Page.move 103 104) Page.pressed))
  = statics Page.pressed.
Proof.
  apply (move_within_radius Page.env (Page.move 103 104) (Page.click 100 100)
           Page.pressed).
  - vm_compute. reflexivity.
  - right. reflexivity.
Defined.

(** ** Failing to create a block *)

(** X13. When the origin block of a left click is enabled and has no SVG
    root, the handler throws after it has told Entry of the change and
    built the copy in the workspace of the menu: the copy stays there as a
    new top block, and nothing is put on the main workspace. *)
Theorem createBlockFunc_throw_leaves_copy env origin obj e w :
  isRightButton e = false ->
  heap (store w) !! origin = Some obj ->
  disabled (shape obj) = false ->
  svgRoot obj = None ->
  let r := createBlockFunc_ env origin e w in
  fst r = Js.Thrown "originBlock is not rendered." /\
  panelTopBlocks (store (snd r)) = panelTopBlocks (store w) ++ [next_id w] /\
  mainTopBlocks (store (snd r)) = mainTopBlocks (store w) /\
  (exists copy, heap (store (snd r)) !! next_id w = Some copy /\
                blockToDom_ copy = blockToDom_ obj /\
                isInBlockMenu copy = true /\
                workspace copy = Some PanelWorkspace) /\
  trace (snd r) = (if hasEntry env then [EntryDispatch "entryBlocklyChanged"] else [])
                  ++ trace w.
Proof.
  intros Hleft Hobj Hen Hroot. unfold createBlockFunc_.
  rewrite Hleft, Hobj, Hen, Hroot. unfold domToBlock.
  destruct (hasEntry env); world_simpl; cbn [fst snd];
    (repeat apply conj; try reflexivity;
     eexists; split; [rewrite lookup_alter_eq, lookup_insert_eq; reflexivity |];
     repeat apply conj; reflexivity).
Qed.

Lemma createBlockFunc_throw_leaves_copy_witness :
  panelTopBlocks (store (snd (createBlockFunc_ Page.env 9 (Page.click 3 4) Page.unrendered)))
  = panelTopBlocks (store Page.unrendered) ++ [next_id Page.unrendered].
Proof.
  apply (createBlockFunc_throw_leaves_copy Page.env 9
           {| type := "move"; workspace := Some PanelWorkspace;
              shape := Page.statement; svgRoot := None; xy := (Js.Num 0, Js.Num 0);
              isInFlyout := true; isInBlockMenu := true; commentText := None;
              blockMenuRect_ := None; stalkerBlock := None;
              startDragXY := None |}).
  - reflexivity.
  - vm_compute. reflexivity.
  - reflexivity.
  - reflexivity.
Defined.

(** ** Metrics *)

(** X14. Scrolling and reading back: after [setMetrics_] with the ratio
    [y], [getMetrics_] reports the top of the view at [y] times the height
    of the content; the height of the content and the size of the view are
    as before. *)
Theorem setMetrics_then_getMetrics w y :
  exists m m',
    getMetrics_ w = Some m /\
    getMetrics_ (setMetrics_ (Js.Number y) w) = Some m' /\
    viewTop m' == contentHeight m * y /\
    contentHeight m' = contentHeight m /\
    viewHeight m' = viewHeight m /\ viewWidth m' = viewWidth m /\
    contentTop m' = 0 /\ absoluteTop m' = 0 /\ absoluteLeft m' = 0.
Proof.
  unfold setMetrics_, getMetrics_. do 2 eexists.
  split; [reflexivity |]. split; [reflexivity |].
  cbn. repeat apply conj; try reflexivity. ring.
Qed.

(** X15. Setting the same ratio twice is setting it once, number or
    not. *)
Theorem setMetrics_idempotent v w :
  setMetrics_ v (setMetrics_ v w) = setMetrics_ v w.
Proof.
  destruct w as [d s m st n t]. destruct d, s.
  unfold setMetrics_, getMetrics_. destruct v; reflexivity.
Qed.

(** X16. A ratio that is not a number leaves the scroll offset as it is;
    the canvas is translated to that offset all the same. *)
Theorem setMetrics_without_number v w :
  Js.isNumber v = false ->
  scrollY (store (setMetrics_ v w)) = scrollY (store w) /\
  canvasTransform (dom (setMetrics_ v w)) = Some (0, scrollY (store w) + 0).
Proof. apply setMetrics_not_a_number. Qed.

Lemma setMetrics_without_number_witness :
  scrollY (store (setMetrics_ Js.Undefined Page.fresh)) = scrollY (store Page.fresh).
Proof. apply (setMetrics_without_number Js.Undefined Page.fresh). reflexivity. Defined.

(** X17. For a ratio between 0 and 1 and a content that is not of negative
    height, the scroll offset lies between minus the height of the content
    and 0. *)
Theorem setMetrics_bounds w y m :
  getMetrics_ w = Some m ->
  0 <= contentHeight m ->
  0 <= y -> y <= 1 ->
  - contentHeight m <= scrollY (store (setMetrics_ (Js.Number y) w)) /\
  scrollY (store (setMetrics_ (Js.Number y) w)) <= 0.
Proof.
  intros Hm Hh H0 H1. unfold setMetrics_. rewrite Hm.
  cbn [store on_store on_dom scrollY with_scrollY].
  assert (Hc : contentTop m = 0).
  { unfold getMetrics_ in Hm. inversion Hm. reflexivity. }
  rewrite Hc. split; nra.
Qed.

Lemma setMetrics_bounds_witness :
  - (300 + 0) <= scrollY (store (setMetrics_ (Js.Number (1 # 2)) Page.fresh)) /\
  scrollY (store (setMetrics_ (Js.Number (1 # 2)) Page.fresh)) <= 0.
Proof.
  apply (setMetrics_bounds Page.fresh (1 # 2)
           {| viewHeight := 600; viewWidth := 250; contentHeight := 300 + 0;
              viewTop := - 0; contentTop := 0; absoluteTop := 0;
              absoluteLeft := 0 |}).
  - reflexivity.
  - discriminate.
  - discriminate.
  - discriminate.
Defined.

(** ** [reflow] again *)

Lemma nudged_wellFormed : panelWellFormed Page.nudged.
Proof.
  assert (Htop : panelTopBlocks (store Page.nudged) = [1%nat])
    by (vm_compute; reflexivity).
  assert (Hrect : forall o, heap (store Page.nudged) !! 1%nat = Some o ->
                            blockMenuRect_ o = Some 2%nat).
  { intros o Ho. vm_compute in Ho. inversion Ho. reflexivity. }
  unfold panelWellFormed. rewrite Htop. repeat apply conj.
  - apply NoDup_singleton.
  - intros b [<- | []]. vm_compute. eauto.
  - intros b1 b2 o1 o2 r [<- | []] [<- | []] _ _ _ _. reflexivity.
  - intros b o r [<- | []] Ho Hr. rewrite (Hrect o Ho) in Hr.
    inversion Hr; subst r. vm_compute. eauto.
Defined.

(** X18. [reflow] never skips its second loop.  Whatever width the menu
    has stored, a call fires the resize and, left to right in a well-formed
    panel, gives the hit-region of each top block the width, the height and
    the position that the block has, and leaves the block as it is. *)
Theorem reflow_always_repositions env w b obj r :
  panelWellFormed w ->
  RTL env = false ->
  In b (panelTopBlocks (store w)) ->
  heap (store w) !! b = Some obj ->
  blockMenuRect_ obj = Some r ->
  let w' := reflow env w in
  trace w' = FireResize :: trace w /\
  heap (store w') !! b = Some obj /\
  exists rect,
    rects (dom w') !! r = Some rect /\
    rwidth rect = Some (width (shape obj)) /\
    rheight rect = Some (height (shape obj)) /\
    rx rect = Some (fst (xy obj)) /\
    ry rect = Some (snd (xy obj)).
Proof.
  intros (Hnd & Hobjs & Hdist & Hrects) Hltr Hb Hobj Hr. cbn zeta.
  rewrite reflow_unfold. cbn [trace store dom log on_menu].
  repeat apply conj.
  - f_equal. apply (fold_left_frame _ trace). intros a b0.
    now apply reflowBlock_frame.
  - destruct (reflowLoop env Js.NaN (panelTopBlocks (store w)) w Hnd)
      as (_ & _ & Hdone).
    { intros b1 b2 o1 o2 r0. apply Hdist. }
    destruct (Hdone b obj Hb Hobj) as (Hobj' & _).
    rewrite Hobj'. unfold reflowed. now rewrite Hltr.
  - destruct (reflowLoop env Js.NaN (panelTopBlocks (store w)) w Hnd)
      as (_ & _ & Hdone).
    { intros b1 b2 o1 o2 r0. apply Hdist. }
    destruct (Hdone b obj Hb Hobj) as (_ & Hrect').
    destruct (Hrects b obj r Hb Hobj Hr) as [rect0 Hrect0].
    exists (reflowedRect env Js.NaN obj rect0). split.
    + rewrite (Hrect' r Hr), Hrect0. reflexivity.
    + unfold reflowedRect, reflowed. rewrite Hltr. repeat split.
Qed.

Lemma reflow_always_repositions_witness :
  trace (reflow Page.env Page.nudged) = FireResize :: trace Page.nudged /\
  exists rect,
    rects (dom (reflow Page.env Page.nudged)) !! 2%nat = Some rect /\
    ry rect = Some (Js.Num (0 + (10 + 7) + 50)).
Proof.
  destruct (reflow_always_repositions Page.env Page.nudged 1
    {| type := "move"; workspace := Some PanelWorkspace;
       shape := Page.statement; svgRoot := Some 1%nat;
       xy := (Js.Num (0 + 10 + 0), Js.Num (0 + (10 + 7) + 50));
       isInFlyout := true; isInBlockMenu := true; commentText := None;
       blockMenuRect_ := Some 2%nat; stalkerBlock := None;
       startDragXY := None |} 2 nudged_wellFormed eq_refl)
    as (Htrace & _ & rect & Hrect & _ & _ & _ & Hy).
  - left. reflexivity.
  - vm_compute. reflexivity.
  - reflexivity.
  - split; [exact Htrace |]. exists rect. split; [exact Hrect | exact Hy].
Defined.

Lemma reflowBlock_ltr_store env W m w b :
  RTL env = false -> store (reflowBlock env W m w b) = store w.
Proof.
  intros Hltr. unfold reflowBlock. rewrite Hltr.
  destruct (heap (store w) !! b) as [obj |]; [| reflexivity].
  destruct (blockMenuRect_ obj); reflexivity.
Qed.

(** X19. [reflow] moves no block up or down and changes no shape, no
    hit-region of a block, no list of the menu, no listener and no list of
    top blocks; unless the layout is right-to-left it moves no block at
    all. *)
Theorem reflow_keeps env w :
  keepsRows env w (reflow env w) /\
  buttons_ (menu (reflow env w)) = buttons_ (menu w) /\
  listeners_ (menu (reflow env w)) = listeners_ (menu w) /\
  reflowWrapper_ (menu (reflow env w)) = reflowWrapper_ (menu w) /\
  bindings (dom (reflow env w)) = bindings (dom w) /\
  panelTopBlocks (store (reflow env w)) = panelTopBlocks (store w) /\
  mainTopBlocks (store (reflow env w)) = mainTopBlocks (store w) /\
  (RTL env = false -> store (reflow env w) = store w).
Proof.
  repeat apply conj.
  - apply reflow_keepsRows.
  - now rewrite (reflow_frame (fun w => buttons_ (menu w))).
  - now rewrite (reflow_frame (fun w => listeners_ (menu w))).
  - now rewrite (reflow_frame (fun w => reflowWrapper_ (menu w))).
  - now rewrite (reflow_frame (fun w => bindings (dom w))).
  - now rewrite (reflow_frame (fun w => panelTopBlocks (store w))).
  - now rewrite (reflow_frame (fun w => mainTopBlocks (store w))).
  - intros Hltr. unfold reflow.
    destruct (Js.neq (width_ (menu w)) (reflowWidth env w)); [| reflexivity].
    cbn [store log on_menu].
    apply (fold_left_frame _ store). intros a b.
    now apply reflowBlock_ltr_store.
Qed.

(** ** [show] again *)

Lemma createBlocks_filter env nodes :
  forall margin blocks gaps w,
    createBlocks env nodes margin blocks gaps w
    = createBlocks env (List.filter isBlockTag nodes) margin blocks gaps w.
Proof.
  induction nodes as [| xml rest IH]; intros margin blocks gaps w; [reflexivity |].
  cbn [createBlocks List.filter]. destruct (isBlockTag xml) eqn:Htag.
  - cbn [createBlocks]. rewrite Htag.
    destruct (domToBlock env PanelWorkspace xml w) as [block w1]. apply IH.
  - apply IH.
Qed.

(** X20. [show] skips what is not a block element: text nodes, which have
    no tag name, and elements of another tag, the tag being compared
    without regard to case.  Showing a list is showing its block
    elements. *)
Theorem show_skips_other_nodes env nodes w :
  show env (XmlNodes nodes) w
  = show env (XmlNodes (List.filter isBlockTag nodes)) w.
Proof.
  unfold show. rewrite createBlocks_filter. reflexivity.
Qed.

(** X21. Showing a list without block elements leaves an empty menu: both
    lists are empty, no block is built, and the one listener that [show]
    binds is that of the canvas for changes of the workspace, kept in
    [reflowWrapper_]. *)
Theorem show_nothing env nodes w :
  List.filter isBlockTag nodes = [] ->
  let w' := show env (XmlNodes nodes) w in
  buttons_ (menu w') = [] /\ listeners_ (menu w') = [] /\
  reflowWrapper_ (menu w') = Some (next_id w) /\
  panelTopBlocks (store w') = panelTopBlocks (store (hide w)) /\
  mainTopBlocks (store w') = mainTopBlocks (store w) /\
  bindings (dom w')
  = bindings (dom (hide w))
    ++ [(next_id w, {| btarget := TCanvas; bname := "blocklyWorkspaceChange";
                       bhandler := HReflow |})].
Proof.
  intros Hnone. cbn zeta.
  rewrite show_unfold. unfold showBuild. rewrite createBlocks_filter, Hnone.
  cbn [createBlocks layoutBlocks fst snd].
  set (w5 := on_menu (with_width_ (Some (Js.Num 0))) (on_dom (with_display (Some "block"%string)) (hide w))).
  assert (Hn : next_id (reflow env w5) = next_id w).
  { rewrite (reflow_frame next_id) by reflexivity. apply hide_next_id. }
  cbn [bindEvent_ menu dom store on_menu on_dom log bump with_reflowWrapper_
       buttons_ listeners_ reflowWrapper_ with_bindings bindings fst snd next_id].
  rewrite Hn.
  repeat apply conj.
  - rewrite (reflow_frame (fun w => buttons_ (menu w))) by reflexivity.
    apply hide_buttons_.
  - rewrite (reflow_frame (fun w => listeners_ (menu w))) by reflexivity.
    apply hide_listeners_.
  - reflexivity.
  - now rewrite (reflow_frame (fun w => panelTopBlocks (store w))).
  - rewrite (reflow_frame (fun w => mainTopBlocks (store w))) by reflexivity.
    subst w5. cbn [store on_menu on_dom]. rewrite hide_store. apply hideBlocks_main.
  - rewrite (reflow_frame (fun w => bindings (dom w))) by reflexivity.
    reflexivity.
Qed.

Lemma show_nothing_witness :
  buttons_ (menu (show Page.env (XmlNodes [ {| tagName := None; xtype := "";
                                               xshape := Page.statement |} ])
                    Page.withStatement)) = [].
Proof.
  apply (show_nothing Page.env
           [ {| tagName := None; xtype := ""; xshape := Page.statement |} ]
           Page.withStatement).
  reflexivity.
Defined.

(** The listeners that one pass of the layout loop binds. *)
Lemma layoutBlock_bindings env gaps i c w block obj :
  let w' := snd (layoutBlock env gaps i c w block obj) in
  exists new,
    bindings (dom w') = bindings (dom w) ++ new /\
    Forall (fun p : nat * Binding => (next_id w < fst p < next_id w')%nat) new /\
    (exists hs, listeners_ (menu w') = listeners_ (menu w) ++ hs /\
       (hasEntry env = false -> hs = map fst new) /\
       (exists h, In h hs /\
          In (h, {| btarget := TRect (next_id w); bname := "mousedown";
                    bhandler := HCreateBlock block |}) new) /\
       (addable (shape obj) = true ->
        exists h, In h hs /\
          In (h, {| btarget := TRoot block; bname := "mousedown";
                    bhandler := HBlockMouseDown block |}) new)).
Proof.
  unfold layoutBlock.
  destruct (leadIn (shape obj) c) as [x y].
  unfold createSvgRect, insertBefore, bindEvent_.
  destruct (hasComment env), (addable (shape obj)), (hasEntry env),
    (entryAction (type obj));
    cbn [fst snd dom menu next_id on_dom on_menu on_store bump update_block moveBy
         with_bindings with_rects with_buttons_ with_listeners_ bindings
         listeners_];
    rewrite <- ?app_assoc; cbn [app];
    (eexists; split; [reflexivity |]; split;
     [ repeat constructor; cbn; lia
     | eexists; split; [reflexivity |]; repeat apply conj;
       [ first [ intros _; reflexivity | discriminate ]
       | eexists; split; [| cbn; eauto 6]; cbn; eauto 6
       | first [ discriminate
               | intros _; eexists; split; [| cbn; eauto 6]; cbn; eauto 6 ] ] ]).
Qed.

Lemma layoutBlocks_bindings env blocks :
  forall gaps i c w,
    let w' := layoutBlocks env blocks gaps i c w in
    (next_id w <= next_id w')%nat /\
    exists new hs,
      bindings (dom w') = bindings (dom w) ++ new /\
      Forall (fun p : nat * Binding => (next_id w <= fst p < next_id w')%nat) new /\
      listeners_ (menu w') = listeners_ (menu w) ++ hs /\
      (hasEntry env = false -> hs = map fst new).
Proof.
  induction blocks as [| block rest IH]; intros gaps i c w; cbn zeta.
  - cbn. split; [lia |]. exists [], []. rewrite !app_nil_r. repeat split; auto.
  - cbn [layoutBlocks].
    destruct (heap (store w) !! block) as [obj |].
    2:{ split; [lia |]. exists [], []. rewrite !app_nil_r. repeat split; auto. }
    destruct (layoutBlock_spec env gaps i c w block obj) as (_ & Hid & _).
    destruct (layoutBlock_bindings env gaps i c w block obj)
      as (new1 & Hb1 & Hn1 & hs1 & Hl1 & He1 & _).
    destruct (layoutBlock env gaps i c w block obj) as [c1 w1].
    cbn [fst snd] in *.
    destruct (IH gaps (S i) c1 w1) as (Hle & new & hs & Hb & Hn & Hl & He).
    split; [lia |].
    exists (new1 ++ new), (hs1 ++ hs). repeat apply conj.
    + rewrite Hb, Hb1, <- app_assoc. reflexivity.
    + apply Forall_app. split.
      * eapply Forall_impl; [exact Hn1 |]. cbn. intros p Hp. lia.
      * eapply Forall_impl; [exact Hn |]. cbn. intros p Hp. lia.
    + rewrite Hl, Hl1, <- app_assoc. reflexivity.
    + intros Hne. rewrite map_app, (He1 Hne), (He Hne). reflexivity.
Qed.

(** What [show] does to the listeners: those that [hide] leaves stay, and
    after them come those of the layout loop and that of the canvas. *)
Lemma show_bindings env xmlList w :
  let w' := show env xmlList w in
  exists new,
    bindings (dom w')
    = bindings (dom (hide w)) ++ new
      ++ [(next_id w' - 1, {| btarget := TCanvas; bname := "blocklyWorkspaceChange";
                              bhandler := HReflow |})]%nat /\
    Forall (fun p : nat * Binding => (next_id w <= fst p < next_id w' - 1)%nat) new /\
    reflowWrapper_ (menu w') = Some (next_id w' - 1)%nat /\
    (next_id w < next_id w')%nat /\
    (hasEntry env = false -> listeners_ (menu w') = map fst new).
Proof.
  cbn zeta. rewrite show_unfold. cbn zeta.
  set (w2 := on_dom (with_display (Some "block"%string)) (hide w)).
  pose proof (showBuild_built env xmlList w2) as Hbuilt.
  destruct (showBuild env xmlList w2) as [[blocks gaps] w3].
  unfold built in Hbuilt. cbn [fst snd] in *.
  destruct Hbuilt as (_ & _ & Hn3 & Hm3 & Hd3 & _).
  destruct (layoutBlocks_bindings env blocks gaps 0 10 w3)
    as (Hle & new & hs & Hb & Hn & Hl & He).
  set (w4 := layoutBlocks env blocks gaps 0 10 w3) in *.
  set (w6 := reflow env (on_menu (with_width_ (Some (Js.Num 0))) w4)).
  assert (Hn6 : next_id w6 = next_id w4)
    by (subst w6; now rewrite (reflow_frame next_id)).
  assert (Hb6 : bindings (dom w6) = bindings (dom w4))
    by (subst w6; now rewrite (reflow_frame (fun w => bindings (dom w)))).
  assert (Hl6 : listeners_ (menu w6) = listeners_ (menu w4))
    by (subst w6; now rewrite (reflow_frame (fun w => listeners_ (menu w)))).
  assert (Hn2 : next_id w2 = next_id w) by apply hide_next_id.
  cbn [bindEvent_ menu dom store on_menu on_dom log bump with_reflowWrapper_
       listeners_ reflowWrapper_ with_bindings bindings fst snd next_id].
  rewrite Hn6, Hb6, Hl6, Nat.sub_1_r. cbn [Nat.pred].
  exists new. repeat apply conj.
  - rewrite Hb, Hd3, <- app_assoc. reflexivity.
  - eapply Forall_impl; [exact Hn |]. cbn. intros p Hp. lia.
  - reflexivity.
  - lia.
  - intros Hne. rewrite Hl, Hm3, (He Hne).
    change (listeners_ (menu w2)) with (listeners_ (menu (hide w))).
    now rewrite hide_listeners_.
Qed.

(** X22. A listener that [hide] leaves bound is still bound after [show]:
    [show] unbinds nothing but what its [hide] unbinds.  So the listener
    of the window for resizing, which no list records, outlives every
    show. *)
Theorem show_keeps_unrecorded_listeners env xmlList w h :
  isBound h (hide w) = true -> isBound h (show env xmlList w) = true.
Proof.
  intros Hh. destruct (show_bindings env xmlList w) as (new & Hb & _).
  unfold isBound in *. rewrite Hb, existsb_app, Hh. reflexivity.
Qed.

Lemma show_keeps_unrecorded_listeners_witness :
  isBound 0 (show Page.env Page.valueThenStatement Page.withStatement) = true.
Proof.
  apply show_keeps_unrecorded_listeners. vm_compute. reflexivity.
Defined.

(** X23. Without Entry, [hide] undoes what [show] did to the listeners:
    after a show and a hide, the listeners bound are those that a hide
    alone would have left. *)
Theorem show_then_hide env xmlList w :
  hasEntry env = false ->
  handlesBelow w ->
  bindings (dom (hide (show env xmlList w))) = bindings (dom (hide w)).
Proof.
  intros Hne Hbelow.
  destruct (show_bindings env xmlList w) as (new & Hb & Hn & Hr & Hlt & Hl).
  specialize (Hl Hne). cbn zeta in *.
  set (w' := show env xmlList w) in *.
  rewrite (hide_bindings_exact w'), Hb, Hr, Hl. cbn [option_list].
  rewrite !withoutHandles_split.
  rewrite (withoutHandles_below _ (next_id w)).
  - rewrite !withoutHandles_all.
    + now rewrite !app_nil_r.
    + intros p [<- | []]. cbn. apply in_or_app. right. now left.
    + intros p Hp. apply in_or_app. left. now apply in_map.
  - rewrite hide_bindings_exact. apply withoutHandles_Forall. exact Hbelow.
  - apply Forall_app. split.
    + apply Forall_fmap. eapply Forall_impl; [exact Hn |]. cbn. intros p Hp. lia.
    + repeat constructor. lia.
Qed.

Lemma show_then_hide_witness :
  bindings (dom (hide (show Page.plain (XmlNodes Page.mixedNodes) Page.withStatement)))
  = bindings (dom (hide Page.withStatement)).
Proof.
  apply show_then_hide; [reflexivity | exact withStatement_handlesBelow].
Defined.

Lemma createBlocks_tops env nodes :
  forall margin blocks gaps w,
    let w' := snd (createBlocks env nodes margin blocks gaps w) in
    panelTopBlocks (store w')
    = panelTopBlocks (store w)
      ++ seq (next_id w) (length (List.filter isBlockTag nodes)) /\
    mainTopBlocks (store w') = mainTopBlocks (store w).
Proof.
  induction nodes as [| xml rest IH]; intros margin blocks gaps w; cbn zeta.
  - cbn. now rewrite app_nil_r.
  - cbn [createBlocks List.filter]. destruct (isBlockTag xml).
    + unfold domToBlock. world_simpl.
      match goal with |- context [createBlocks _ _ _ ?bl ?gp ?w1] =>
        destruct (IH margin bl gp w1) as [Hp Hm]
      end.
      cbn zeta in Hp, Hm. rewrite Hp, Hm. world_simpl.
      cbn [length seq]. rewrite <- app_assoc. split; reflexivity.
    + apply IH.
Qed.

Lemma categoryBlocks_tops env items :
  forall blocks gaps w,
    let w' := snd (categoryBlocks env items blocks gaps w) in
    panelTopBlocks (store w')
    = panelTopBlocks (store w) ++ seq (next_id w) (length items) /\
    mainTopBlocks (store w') = mainTopBlocks (store w).
Proof.
  induction items as [| [xml gap] rest IH]; intros blocks gaps w; cbn zeta.
  - cbn. now rewrite app_nil_r.
  - cbn [categoryBlocks]. unfold domToBlock. world_simpl.
    match goal with |- context [categoryBlocks _ _ ?bl ?gp ?w1] =>
      destruct (IH bl gp w1) as [Hp Hm]
    end.
    cbn zeta in Hp, Hm. rewrite Hp, Hm. world_simpl.
    cbn [length seq]. rewrite <- app_assoc. split; reflexivity.
Qed.

Lemma showBuild_tops env xmlList w :
  let w' := snd (showBuild env xmlList w) in
  panelTopBlocks (store w')
  = panelTopBlocks (store w) ++ seq (next_id w) (length (shownShapes env xmlList)) /\
  mainTopBlocks (store w') = mainTopBlocks (store w).
Proof.
  destruct xmlList; cbn [showBuild shownShapes]; rewrite length_map.
  - apply categoryBlocks_tops.
  - apply categoryBlocks_tops.
  - apply createBlocks_tops.
Qed.

Lemma layoutBlocks_tops env blocks :
  forall gaps i c w,
    let w' := layoutBlocks env blocks gaps i c w in
    panelTopBlocks (store w') = panelTopBlocks (store w) /\
    mainTopBlocks (store w') = mainTopBlocks (store w).
Proof.
  induction blocks as [| block rest IH]; intros gaps i c w; cbn zeta.
  - split; reflexivity.
  - cbn [layoutBlocks].
    destruct (heap (store w) !! block) as [obj |]; [| split; reflexivity].
    destruct (layoutBlock_spec env gaps i c w block obj)
      as (_ & _ & _ & Hp & Hm & _).
    destruct (layoutBlock env gaps i c w block obj) as [c1 w1].
    cbn [fst snd] in *.
    destruct (IH gaps (S i) c1 w1) as [Hp' Hm'].
    rewrite Hp', Hm', Hp, Hm. split; reflexivity.
Qed.

Lemma hide_clears_panel w :
  panelOwned w -> panelTopBlocks (store (hide w)) = [].
Proof.
  intros Howned.
  destruct (panelTopBlocks (store (hide w))) as [| b l] eqn:Htops; [reflexivity |].
  exfalso.
  assert (Hin : In b (panelTopBlocks (store (hide w)))) by (rewrite Htops; now left).
  rewrite hide_store in Hin.
  pose proof (hideBlocks_tops _ _ _ Hin) as Hin0.
  destruct (Howned b Hin0) as (obj & Hobj & Hws).
  destruct (hideBlocks_disposes _ w b obj Hin0 Hobj Hws) as [Hnot _].
  contradiction.
Qed.

(** X24. [show] replaces the blocks of the menu and leaves the main
    workspace alone: when each top block of the workspace of the menu is a
    block of it, the copies that drags have built there included, the top
    blocks after [show] are exactly the new blocks, in the order of the
    list; the list of top blocks of the main workspace is as it was. *)
Theorem show_replaces_blocks env xmlList w :
  panelOwned w ->
  panelTopBlocks (store (show env xmlList w))
  = seq (next_id w) (length (shownShapes env xmlList)) /\
  mainTopBlocks (store (show env xmlList w)) = mainTopBlocks (store w).
Proof.
  intros Howned. rewrite show_unfold. cbn zeta.
  set (w2 := on_dom (with_display (Some "block"%string)) (hide w)).
  destruct (showBuild_tops env xmlList w2) as [Hp3 Hm3]. cbn zeta in Hp3, Hm3.
  destruct (layoutBlocks_tops env (fst (fst (showBuild env xmlList w2)))
              (snd (fst (showBuild env xmlList w2))) 0 10
              (snd (showBuild env xmlList w2))) as [Hp4 Hm4].
  cbn zeta in Hp4, Hm4.
  cbn [bindEvent_ store on_menu on_dom log bump fst snd].
  rewrite (reflow_frame (fun w => panelTopBlocks (store w))) by reflexivity.
  rewrite (reflow_frame (fun w => mainTopBlocks (store w))) by reflexivity.
  cbn [store on_menu]. rewrite Hp4, Hm4, Hp3, Hm3.
  subst w2. cbn [store on_dom next_id].
  rewrite hide_next_id, (hide_clears_panel w Howned), hide_store, hideBlocks_main.
  split; reflexivity.
Qed.

Lemma dragged_owned : panelOwned Page.dragged.
Proof.
  unfold panelOwned.
  assert (Htops : panelTopBlocks (store Page.dragged) = [1%nat; 6%nat])
    by (vm_compute; reflexivity).
  rewrite Htops. intros b [<- | [<- | []]].
  - eexists. split; [vm_compute; reflexivity | reflexivity].
  - eexists. split; [vm_compute; reflexivity | reflexivity].
Defined.

Lemma show_replaces_blocks_witness :
  panelTopBlocks (store (show Page.env Page.valueThenStatement Page.dragged))
  = seq (next_id Page.dragged) (length (shownShapes Page.env Page.valueThenStatement)).
Proof.
  exact (proj1 (show_replaces_blocks Page.env Page.valueThenStatement Page.dragged
                  dragged_owned)).
Defined.

(** The listeners of the blocks after the layout loop. *)
Lemma layoutBlocks_wired env blocks :
  forall gaps i c w rs,
    (forall b, In b blocks -> is_Some (heap (store w) !! b)) ->
    buttons_ (menu w) = map Some rs ->
    length rs = i ->
    let w' := layoutBlocks env blocks gaps i c w in
    forall k b obj,
      blocks !! k = Some b -> heap (store w) !! b = Some obj ->
      exists h r,
        buttons_ (menu w') !! (i + k)%nat = Some (Some r) /\
        In h (listeners_ (menu w')) /\
        In (h, {| btarget := TRect r; bname := "mousedown";
                  bhandler := HCreateBlock b |}) (bindings (dom w')) /\
        (addable (shape obj) = true ->
         exists h', In h' (listeners_ (menu w')) /\
           In (h', {| btarget := TRoot b; bname := "mousedown";
                      bhandler := HBlockMouseDown b |}) (bindings (dom w'))).
Proof.
  induction blocks as [| block rest IH]; intros gaps i c w rs Hin Hb Hlen; cbn zeta.
  - intros k b obj Hk. discriminate.
  - cbn [layoutBlocks].
    destruct (Hin block (or_introl eq_refl)) as [obj0 Hobj0]. rewrite Hobj0.
    destruct (layoutBlock_spec env gaps i c w block obj0)
      as (_ & _ & Hheap & _ & _ & _ & Hbtn & _).
    destruct (layoutBlock_bindings env gaps i c w block obj0)
      as (new1 & Hb1 & _ & hs1 & Hl1 & _ & (h0 & Hh0 & Hc0) & Hadd0).
    destruct (layoutBlock env gaps i c w block obj0) as [c1 w1] eqn:Hstep.
    cbn [fst snd] in *.
    assert (Hin1 : forall b, In b rest -> is_Some (heap (store w1) !! b)).
    { intros b Hb'. rewrite Hheap. apply lookup_alter_is_Some. apply Hin. now right. }
    assert (Hbt1 : buttons_ (menu w1) = map Some (rs ++ [next_id w])).
    { rewrite Hbtn, Hb, <- Hlen. apply array_set_push. }
    assert (Hlen1 : length (rs ++ [next_id w]) = S i).
    { rewrite length_app. cbn. lia. }
    specialize (IH gaps (S i) c1 w1 (rs ++ [next_id w]) Hin1 Hbt1 Hlen1).
    cbn zeta in IH.
    destruct (layoutBlocks_menu env rest gaps (S i) c1 w1 (rs ++ [next_id w])
                Hin1 Hbt1 Hlen1) as (_ & rs' & _ & Hbtn' & _).
    destruct (layoutBlocks_bindings env rest gaps (S i) c1 w1)
      as (_ & new & hs & Hbs & _ & Hls & _).
    intros [| k] b obj Hk Hobj.
    + cbn in Hk. inversion Hk; subst b. clear Hk.
      assert (obj = obj0) by congruence. subst obj.
      exists h0, (next_id w). repeat apply conj.
      * rewrite Hbtn', Nat.add_0_r, <- Hlen, <- app_assoc, map_app.
        rewrite lookup_app_r by (rewrite length_map; lia).
        rewrite length_map, Nat.sub_diag. reflexivity.
      * rewrite Hls, Hl1. apply in_or_app. left. apply in_or_app. now right.
      * rewrite Hbs, Hb1. apply in_or_app. left. apply in_or_app. now right.
      * intros Ha. destruct (Hadd0 Ha) as (h' & Hh' & Hb').
        exists h'. split.
        -- rewrite Hls, Hl1. apply in_or_app. left. apply in_or_app. now right.
        -- rewrite Hbs, Hb1. apply in_or_app. left. apply in_or_app. now right.
    + cbn in Hk.
      assert (Hobj1 : exists obj1, heap (store w1) !! b = Some obj1 /\
                                   shape obj1 = shape obj).
      { rewrite Hheap. destruct (decide (block = b)) as [-> | Hne].
        - rewrite lookup_alter_eq, Hobj. cbn. eexists. split; [reflexivity |].
          apply placeBlock_shape.
        - rewrite lookup_alter_ne by exact Hne. eauto. }
      destruct Hobj1 as (obj1 & Hobj1 & Hshape).
      destruct (IH k b obj1 Hk Hobj1) as (h & r & Hbt & Hh & Hc & Hadd).
      exists h, r. repeat apply conj; try assumption.
      * rewrite <- Hbt. f_equal. lia.
      * intros Ha. apply Hadd. now rewrite Hshape.
Qed.

(** X25. [show] wires each block that it lays out: the hit-region of the
    block has a mousedown listener that creates a copy of that block, and a
    block that is addable has a mousedown listener on its own root that
    begins the pending drag; both are recorded in [listeners_], so that
    [hide] unbinds them. *)
Theorem show_wires_blocks env xmlList w k it :
  shownShapes env xmlList !! k = Some it ->
  let w' := show env xmlList w in
  let b := (next_id w + k)%nat in
  exists obj r h,
    heap (store w') !! b = Some obj /\
    blockMenuRect_ obj = Some r /\
    In h (listeners_ (menu w')) /\
    In (h, {| btarget := TRect r; bname := "mousedown";
              bhandler := HCreateBlock b |}) (bindings (dom w')) /\
    (addable (fst it) = true ->
     exists h', In h' (listeners_ (menu w')) /\
       In (h', {| btarget := TRoot b; bname := "mousedown";
                  bhandler := HBlockMouseDown b |}) (bindings (dom w'))).
Proof.
  intros Hk. cbn zeta.
  destruct (show_blocks env xmlList w) as (rs & Hbtn & _ & _ & _ & _ & Hblocks).
  destruct (Hblocks k it Hk) as (obj & p & r & Hobj & _ & Hshape & _ & _ & Hr & Hrs).
  exists obj, r. revert Hbtn Hobj.
  rewrite show_unfold. cbn zeta.
  set (w2 := on_dom (with_display (Some "block"%string)) (hide w)).
  assert (Hn2 : next_id w2 = next_id w) by apply hide_next_id.
  assert (Hb2 : buttons_ (menu w2) = []) by apply hide_buttons_.
  pose proof (showBuild_built env xmlList w2) as Hbuilt.
  destruct (showBuild env xmlList w2) as [[blocks gaps] w3].
  unfold built in Hbuilt. cbn [fst snd] in *.
  destruct Hbuilt as (Hbl & _ & _ & Hm3 & _ & _ & Hnew).
  rewrite Hn2 in *. cbn [app] in Hbl.
  assert (Hin3 : forall b, In b blocks -> is_Some (heap (store w3) !! b)).
  { intros b Hb. rewrite Hbl in Hb. apply in_seq in Hb.
    destruct (lookup_lt_is_Some_2 (shownItems env xmlList) (b - next_id w)%nat
                ltac:(lia)) as [it0 Hit0].
    destruct (Hnew _ it0 Hit0) as (o & Ho & _).
    replace (next_id w + (b - next_id w))%nat with b in Ho by lia. eauto. }
  assert (Hb3 : buttons_ (menu w3) = map Some []) by (rewrite Hm3; exact Hb2).
  rewrite shownShapes_items, list_lookup_fmap in Hk.
  destruct (shownItems env xmlList !! k) as [it0 |] eqn:Hit0; cbn in Hk;
    [| discriminate Hk].
  inversion Hk; subst it. clear Hk.
  destruct (Hnew k it0 Hit0) as (obj0 & Hobj0 & Hshape0 & _).
  assert (Hkb : blocks !! k = Some (next_id w + k)%nat).
  { rewrite Hbl. apply lookup_seq. split; [reflexivity |].
    apply lookup_lt_Some in Hit0. exact Hit0. }
  destruct (layoutBlocks_wired env blocks gaps 0 10 w3 [] Hin3 Hb3 eq_refl
              k _ obj0 Hkb Hobj0) as (h & r' & Hbt & Hh & Hc & Hadd).
  set (w4 := layoutBlocks env blocks gaps 0 10 w3) in *.
  set (w6 := reflow env (on_menu (with_width_ (Some (Js.Num 0))) w4)).
  assert (Hb6 : bindings (dom w6) = bindings (dom w4))
    by (subst w6; now rewrite (reflow_frame (fun w => bindings (dom w)))).
  assert (Hl6 : listeners_ (menu w6) = listeners_ (menu w4))
    by (subst w6; now rewrite (reflow_frame (fun w => listeners_ (menu w)))).
  assert (Hbt6 : buttons_ (menu w6) = buttons_ (menu w4))
    by (subst w6; now rewrite (reflow_frame (fun w => buttons_ (menu w)))).
  cbn [bindEvent_ menu dom store on_menu on_dom log bump with_reflowWrapper_
       listeners_ buttons_ with_bindings bindings fst snd].
  rewrite Hb6, Hl6, Hbt6. intros Hbtn Hobj.
  assert (r' = r).
  { rewrite Hbtn in Hbt. cbn [Nat.add] in Hbt. rewrite list_lookup_fmap, Hrs in Hbt.
    cbn in Hbt. congruence. }
  subst r'. exists h. repeat apply conj.
  - exact Hobj.
  - exact Hr.
  - exact Hh.
  - apply in_or_app. now left.
  - cbn [fst]. rewrite <- Hshape0. intros Ha.
    destruct (Hadd Ha) as (h' & Hh' & Hb').
    exists h'. split; [exact Hh' | apply in_or_app; now left].
Qed.

Lemma show_wires_blocks_witness :
  exists obj r h,
    heap (store Page.withStatement) !! 1%nat = Some obj /\
    blockMenuRect_ obj = Some r /\
    In h (listeners_ (menu Page.withStatement)) /\
    In (h, {| btarget := TRect r; bname := "mousedown";
              bhandler := HCreateBlock 1 |}) (bindings (dom Page.withStatement)).
Proof.
  destruct (show_wires_blocks Page.env (XmlNodes [Page.node "move" Page.statement])
              Page.fresh 0 (Page.statement, 0) eq_refl)
    as (obj & r & h & Hobj & Hr & Hh & Hc & _).
  exists obj, r, h. repeat apply conj; assumption.
Defined.

(** ** The window *)

(** X26. On a page without listeners, a new block menu follows the window:
    when the resize event arrives, the SVG image of the menu takes the
    width and height of its container and the scrollbar is resized. *)
Theorem resize_syncs_view env e w :
  bindings (dom w) = [] ->
  let w' := deliver env TWindow "resize" e (BlockMenu w) in
  menuViewSize (dom w') = Some (snd (viewRect (dom w)), fst (viewRect (dom w))) /\
  trace w' = ScrollbarResize :: trace w /\
  buttons_ (menu w') = [] /\ listeners_ (menu w') = [] /\
  onResizeWrapper_ (menu w') = Some (next_id w).
Proof.
  intros Hnone. unfold deliver, BlockMenu, bindEvent_.
  cbn [dom on_menu on_dom bump with_bindings bindings fst snd]. rewrite Hnone.
  cbn [app fold_left fst snd btarget bname bhandler isBound dom on_menu on_dom
       bump with_bindings bindings existsb].
  rewrite Hnone. cbn [app existsb fst]. rewrite Nat.eqb_refl.
  cbn. repeat split; reflexivity.
Qed.

Lemma resize_syncs_view_witness :
  menuViewSize (dom (deliver Page.env TWindow "resize" (Page.click 0 0) Page.fresh))
  = Some (250, 600).
Proof.
  apply (resize_syncs_view Page.env (Page.click 0 0) Page.blank). reflexivity.
Defined.

(** ** Capacity *)

(** X27. The guard on capacity holds for drags as for clicks: while the
    drag is pending on a disabled block, no move creates a block, however
    far it goes; menu, blocks and listeners stay as they are. *)
Theorem drag_on_disabled_block env e w down origin obj :
  startDownEvent_ (statics w) = Some down ->
  startBlock_ (statics w) = Some origin ->
  startblockMenu_ (statics w) = Some TheBlockMenu ->
  heap (store w) !! origin = Some obj ->
  disabled (shape obj) = true ->
  let r := onMouseMove_ env e w in
  fst r = Js.Returned /\ store (snd r) = store w /\
  menu (snd r) = menu w /\ dom (snd r) = dom w /\ statics (snd r) = statics w.
Proof.
  intros Hdown Hblock Hmenu Hobj Hdis. unfold onMouseMove_.
  destruct (rogueMove e); [repeat split; reflexivity |].
  cbn [statics log]. rewrite Hdown, Hblock, Hmenu.
  destruct (beyondRadius env _ _); [| repeat split; reflexivity].
  unfold createBlockFunc_.
  destruct (isRightButton down); [repeat split; reflexivity |].
  cbn [store log]. rewrite Hobj, Hdis. repeat split; reflexivity.
Qed.

Lemma pressedFull_statics :
  startDownEvent_ (statics (blockMouseDown_ Page.env 1 (Page.click 100 100) Page.withFull))
  = Some (Page.click 100 100).
Proof. vm_compute. reflexivity. Defined.

Lemma drag_on_disabled_block_witness :
  store (snd (onMouseMove_ Page.env (Page.move 300 300)
                (blockMouseDown_ Page.env 1 (Page.click 100 100) Page.withFull)))
  = store (blockMouseDown_ Page.env 1 (Page.click 100 100) Page.withFull).
Proof.
  eapply (drag_on_disabled_block Page.env (Page.move 300 300) _
            (Page.click 100 100) 1).
  - exact pressedFull_statics.
  - vm_compute. reflexivity.
  - vm_compute. reflexivity.
  - vm_compute. reflexivity.
  - reflexivity.
Defined.
